(** * Credex: the credit pool contract and its clearing agent

    A shallow embedding of [CredexPool.sol] (the share-based vault and the
    per-agent credit ledger) and of the clearing agent's onboarding and
    limit-growth policy ([CredexClearing], [ERC8004ReputationReader]),
    followed by the properties of the credit clearing engine.

    Conventions.
    - A Solidity [uint256] is an [N]; every arithmetic operation is the
      checked one of Solidity 0.8: it panics (0x11) when the result leaves
      [0, 2^256), and division panics (0x12) on a zero divisor.
    - A [mapping] is a [gmap]; a key that was never written reads as the
      zero value of its type.
    - A failed transaction leaves the contract state as it was.
    - The USDC token is an external contract: a transaction carries the
      outcome of the token call it makes ([usdc_ok]); the token does not call
      back into the pool.  Events are not part of the model. *)

From Stdlib Require Import NArith ZArith Lia String List.
From Stdlib Require Import Uint63 PrimFloat SpecFloat FloatOps.
From stdpp Require Import gmap strings.

Local Open Scope N_scope.

(** ** Solidity 0.8 arithmetic and failures *)

Module Solidity.

Definition MAX_UINT256 : N := 2 ^ 256 - 1.

(** [Revert] is a failed [require] with its message, [Panic] a failed
    arithmetic check, [CallFailed] a reverting call to the USDC token. *)
Inductive failure : Type :=
| Revert (reason : string)
| Panic (code : N)
| CallFailed.

Inductive result (A : Type) : Type :=
| Ok (a : A)
| Err (e : failure).

Arguments Ok {A} a.
Arguments Err {A} e.

Definition bind {A B : Type} (m : result A) (k : A -> result B) : result B :=
  match m with
  | Ok a => k a
  | Err e => Err e
  end.

Definition OVERFLOW : N := 17.       (* Panic(0x11) *)
Definition DIV_BY_ZERO : N := 18.    (* Panic(0x12) *)

Definition require (cond : bool) (reason : string) : result unit :=
  if cond then Ok tt else Err (Revert reason).

Definition add (a b : N) : result N :=
  if a + b <=? MAX_UINT256 then Ok (a + b) else Err (Panic OVERFLOW).

Definition sub (a b : N) : result N :=
  if b <=? a then Ok (a - b) else Err (Panic OVERFLOW).

Definition mul (a b : N) : result N :=
  if a * b <=? MAX_UINT256 then Ok (a * b) else Err (Panic OVERFLOW).

Definition div (a b : N) : result N :=
  if b =? 0 then Err (Panic DIV_BY_ZERO) else Ok (a / b).

End Solidity.

Import Solidity.

Notation "'do' x <- m ; k" := (bind m (fun x => k))
  (at level 10, x name, m at level 100, k at level 200).
Notation "m ;; k" := (bind m (fun _ => k))
  (at level 100, k at level 200, right associativity).

(** ** CredexPool.sol *)

Definition address : Type := N.

Record AgentAccount : Type := mkAgentAccount {
  debt : N;
  principal : N;
  creditLimit : N;
  lastAccrued : N;
  lastRepayment : N;
  frozen : bool;
  active : bool
}.

(** The value a mapping slot holds before it is written. *)
Definition zeroAccount : AgentAccount :=
  mkAgentAccount 0 0 0 0 0 false false.

Record CredexPool : Type := mkCredexPool {
  credexAgent : address;
  owner : address;
  agents : gmap address AgentAccount;
  lpShares : gmap address N;
  totalShares : N;
  totalLiquidity : N;
  globalTotalDebt : N
}.

(** The transaction context: [msg.sender], [block.timestamp], and whether the
    USDC call of this transaction goes through. *)
Record Env : Type := mkEnv {
  msg_sender : address;
  block_timestamp : N;
  usdc_ok : bool
}.

Definition INTEREST_RATE_BP : N := 10.
Definition ACCRUAL_INTERVAL : N := 60.      (* 1 minutes *)

(** [constructor(_usdc, _credexAgent)], deployed by [deployer]. *)
Definition constructor (deployer _credexAgent : address) : CredexPool :=
  mkCredexPool _credexAgent deployer ∅ ∅ 0 0 0.

(** [agents[a]] and [lpShares[a]] as reads. *)
Definition agentOf (s : CredexPool) (a : address) : AgentAccount :=
  default zeroAccount (agents s !! a).

Definition sharesOf (s : CredexPool) (a : address) : N :=
  default 0 (lpShares s !! a).

(** Field writes. *)
Definition set_agent (a : address) (acc : AgentAccount) (s : CredexPool) : CredexPool :=
  mkCredexPool (credexAgent s) (owner s) (<[a := acc]> (agents s)) (lpShares s)
    (totalShares s) (totalLiquidity s) (globalTotalDebt s).

Definition set_lpShares (a : address) (v : N) (s : CredexPool) : CredexPool :=
  mkCredexPool (credexAgent s) (owner s) (agents s) (<[a := v]> (lpShares s))
    (totalShares s) (totalLiquidity s) (globalTotalDebt s).

Definition set_totalShares (v : N) (s : CredexPool) : CredexPool :=
  mkCredexPool (credexAgent s) (owner s) (agents s) (lpShares s)
    v (totalLiquidity s) (globalTotalDebt s).

Definition set_totalLiquidity (v : N) (s : CredexPool) : CredexPool :=
  mkCredexPool (credexAgent s) (owner s) (agents s) (lpShares s)
    (totalShares s) v (globalTotalDebt s).

Definition set_globalTotalDebt (v : N) (s : CredexPool) : CredexPool :=
  mkCredexPool (credexAgent s) (owner s) (agents s) (lpShares s)
    (totalShares s) (totalLiquidity s) v.

Definition set_credexAgent (v : address) (s : CredexPool) : CredexPool :=
  mkCredexPool v (owner s) (agents s) (lpShares s)
    (totalShares s) (totalLiquidity s) (globalTotalDebt s).

Definition with_debt (v : N) (acc : AgentAccount) : AgentAccount :=
  mkAgentAccount v (principal acc) (creditLimit acc) (lastAccrued acc)
    (lastRepayment acc) (frozen acc) (active acc).

Definition with_principal (v : N) (acc : AgentAccount) : AgentAccount :=
  mkAgentAccount (debt acc) v (creditLimit acc) (lastAccrued acc)
    (lastRepayment acc) (frozen acc) (active acc).

Definition with_creditLimit (v : N) (acc : AgentAccount) : AgentAccount :=
  mkAgentAccount (debt acc) (principal acc) v (lastAccrued acc)
    (lastRepayment acc) (frozen acc) (active acc).

Definition with_lastAccrued (v : N) (acc : AgentAccount) : AgentAccount :=
  mkAgentAccount (debt acc) (principal acc) (creditLimit acc) v
    (lastRepayment acc) (frozen acc) (active acc).

Definition with_lastRepayment (v : N) (acc : AgentAccount) : AgentAccount :=
  mkAgentAccount (debt acc) (principal acc) (creditLimit acc) (lastAccrued acc)
    v (frozen acc) (active acc).

Definition with_frozen (v : bool) (acc : AgentAccount) : AgentAccount :=
  mkAgentAccount (debt acc) (principal acc) (creditLimit acc) (lastAccrued acc)
    (lastRepayment acc) v (active acc).

(** Modifiers and the token. *)
Definition onlyAgent (env : Env) (s : CredexPool) : result unit :=
  require (msg_sender env =? credexAgent s) "Not Credex agent".

Definition onlyOwner (env : Env) (s : CredexPool) : result unit :=
  require (msg_sender env =? owner s) "Not owner".

(** [USDC.transfer] / [USDC.transferFrom]: the returned flag is ignored by
    the pool, a revert of the token propagates. *)
Definition usdc_call (env : Env) : result unit :=
  if usdc_ok env then Ok tt else Err CallFailed.

(** *** View functions *)

Definition totalDebt (s : CredexPool) : N := globalTotalDebt s.

Definition totalAssets (s : CredexPool) : result N :=
  add (totalLiquidity s) (totalDebt s).

Definition availableCredit (s : CredexPool) (agent : address) : N :=
  let acc := agentOf s agent in
  if negb (active acc) || frozen acc then 0
  else if creditLimit acc <=? principal acc then 0
  else creditLimit acc - principal acc.

(** [getAgentState]: the stored account with the pending interest added to
    the debt it reports. *)
Definition getAgentState (env : Env) (s : CredexPool) (agent : address)
  : result AgentAccount :=
  let acc := agentOf s agent in
  do pendingInterest <-
    (if (0 <? lastAccrued acc) && (0 <? debt acc) then
       do elapsed <- sub (block_timestamp env) (lastAccrued acc);
       do intervals <- div elapsed ACCRUAL_INTERVAL;
       if 0 <? intervals then
         do m1 <- mul (debt acc) INTEREST_RATE_BP;
         do m2 <- mul m1 intervals;
         div m2 10000
       else Ok 0
     else Ok 0);
  do d <- add (debt acc) pendingInterest;
  Ok (with_debt d acc).

(** *** Internal: lazy interest accrual *)

Definition _accrueInterest (env : Env) (agent : address) (s : CredexPool)
  : result CredexPool :=
  let acc := agentOf s agent in
  if (lastAccrued acc =? 0) || (debt acc =? 0) then Ok s
  else
    do elapsed <- sub (block_timestamp env) (lastAccrued acc);
    do intervals <- div elapsed ACCRUAL_INTERVAL;
    if 0 <? intervals then
      do m1 <- mul (debt acc) INTEREST_RATE_BP;
      do m2 <- mul m1 intervals;
      do interest <- div m2 10000;
      do d <- add (debt acc) interest;
      do g <- add (globalTotalDebt s) interest;
      do step <- mul intervals ACCRUAL_INTERVAL;
      do la <- add (lastAccrued acc) step;
      Ok (set_agent agent (with_lastAccrued la (with_debt d acc))
            (set_globalTotalDebt g s))
    else Ok s.

(** *** LP functions *)

Definition deposit (env : Env) (assets : N) (s : CredexPool) : result CredexPool :=
  require (0 <? assets) "Zero amount" ;;
  do _totalAssets <- totalAssets s;
  let _totalShares := totalShares s in
  do shares <-
    (if _totalShares =? 0 then Ok assets
     else do m <- mul assets _totalShares; div m _totalAssets);
  usdc_call env ;;
  do mine <- add (sharesOf s (msg_sender env)) shares;
  do ts <- add (totalShares s) shares;
  do tl <- add (totalLiquidity s) assets;
  Ok (set_totalLiquidity tl (set_totalShares ts (set_lpShares (msg_sender env) mine s))).

Definition withdraw (env : Env) (shares : N) (s : CredexPool) : result CredexPool :=
  require (0 <? shares) "Zero shares" ;;
  require (shares <=? sharesOf s (msg_sender env)) "Insufficient shares" ;;
  do _totalAssets <- totalAssets s;
  let _totalShares := totalShares s in
  do m <- mul shares _totalAssets;
  do assets <- div m _totalShares;
  require (assets <=? totalLiquidity s) "Insufficient pool liquidity" ;;
  do mine <- sub (sharesOf s (msg_sender env)) shares;
  do ts <- sub (totalShares s) shares;
  do tl <- sub (totalLiquidity s) assets;
  usdc_call env ;;
  Ok (set_totalLiquidity tl (set_totalShares ts (set_lpShares (msg_sender env) mine s))).

(** *** Agent functions (onlyAgent) *)

Definition onboardAgent (env : Env) (agent : address) (limit : N) (s : CredexPool)
  : result CredexPool :=
  onlyAgent env s ;;
  require (negb (active (agentOf s agent))) "Already onboarded" ;;
  Ok (set_agent agent
        (mkAgentAccount 0 0 limit (block_timestamp env) (block_timestamp env)
           false true) s).

Definition setCreditLimit (env : Env) (agent : address) (newLimit : N) (s : CredexPool)
  : result CredexPool :=
  onlyAgent env s ;;
  require (active (agentOf s agent)) "Not active" ;;
  Ok (set_agent agent (with_creditLimit newLimit (agentOf s agent)) s).

Definition borrow (env : Env) (agent : address) (amount : N) (s : CredexPool)
  : result CredexPool :=
  onlyAgent env s ;;
  require (active (agentOf s agent)) "Not active" ;;
  require (negb (frozen (agentOf s agent))) "Account frozen" ;;
  do s1 <- _accrueInterest env agent s;
  let acc := agentOf s1 agent in
  do wanted <- add (principal acc) amount;
  require (wanted <=? creditLimit acc) "Exceeds limit" ;;
  require (amount <=? totalLiquidity s1) "Insufficient liquidity" ;;
  do p <- add (principal acc) amount;
  do d <- add (debt acc) amount;
  do tl <- sub (totalLiquidity s1) amount;
  do g <- add (globalTotalDebt s1) amount;
  usdc_call env ;;
  Ok (set_globalTotalDebt g (set_totalLiquidity tl
        (set_agent agent (with_debt d (with_principal p acc)) s1))).

Definition repay (env : Env) (agent : address) (amount : N) (s : CredexPool)
  : result CredexPool :=
  onlyAgent env s ;;
  require (active (agentOf s agent)) "Not active" ;;
  do s1 <- _accrueInterest env agent s;
  let acc := agentOf s1 agent in
  let amount := if debt acc <? amount then debt acc else amount in
  usdc_call env ;;
  do interestOwed <- sub (debt acc) (principal acc);
  do acc1 <-
    (if amount <=? interestOwed then
       do d <- sub (debt acc) amount;
       Ok (with_debt d acc)
     else
       do principalRepaid <- sub amount interestOwed;
       do d <- sub (debt acc) amount;
       do p <- sub (principal acc) principalRepaid;
       Ok (with_principal p (with_debt d acc)));
  do g <- sub (globalTotalDebt s1) amount;
  do tl <- add (totalLiquidity s1) amount;
  Ok (set_totalLiquidity tl (set_globalTotalDebt g
        (set_agent agent (with_lastRepayment (block_timestamp env) acc1) s1))).

Definition freeze (env : Env) (agent : address) (s : CredexPool) : result CredexPool :=
  onlyAgent env s ;;
  require (active (agentOf s agent)) "Not active" ;;
  Ok (set_agent agent (with_frozen true (agentOf s agent)) s).

Definition unfreeze (env : Env) (agent : address) (s : CredexPool) : result CredexPool :=
  onlyAgent env s ;;
  require (active (agentOf s agent)) "Not active" ;;
  Ok (set_agent agent (with_frozen false (agentOf s agent)) s).

Definition setAgent (env : Env) (newAgent : address) (s : CredexPool) : result CredexPool :=
  onlyOwner env s ;;
  Ok (set_credexAgent newAgent s).

(** *** Transactions and histories *)

Inductive Call : Type :=
| Deposit (assets : N)
| Withdraw (shares : N)
| OnboardAgent (agent : address) (limit : N)
| SetCreditLimit (agent : address) (newLimit : N)
| Borrow (agent : address) (amount : N)
| Repay (agent : address) (amount : N)
| Freeze (agent : address)
| Unfreeze (agent : address)
| SetAgent (newAgent : address).

Definition call (env : Env) (c : Call) (s : CredexPool) : result CredexPool :=
  match c with
  | Deposit assets => deposit env assets s
  | Withdraw shares => withdraw env shares s
  | OnboardAgent agent limit => onboardAgent env agent limit s
  | SetCreditLimit agent newLimit => setCreditLimit env agent newLimit s
  | Borrow agent amount => borrow env agent amount s
  | Repay agent amount => repay env agent amount s
  | Freeze agent => freeze env agent s
  | Unfreeze agent => unfreeze env agent s
  | SetAgent newAgent => setAgent env newAgent s
  end.

(** A transaction: the state after it, which is the state before it when the
    call fails. *)
Definition transact (s : CredexPool) (tx : Env * Call) : CredexPool :=
  match call (fst tx) (snd tx) s with
  | Ok s' => s'
  | Err _ => s
  end.

Definition run (txs : list (Env * Call)) (s : CredexPool) : CredexPool :=
  fold_left transact txs s.

(** ** JavaScript values used by the clearing agent *)

(** A [number] is a binary64 float, a [bigint] a [Z]; bigint division
    truncates toward zero ([Z.quot]). *)
Module JS.

(** What a handler can catch: a failed contract call, a value that ethers
    or the runtime rejects (a malformed amount, a bigint outside uint256, a
    non-finite number given to [BigInt]), or [new Error(message)]. *)
Inductive error : Type :=
| CallException (f : failure)
| InvalidValue
| Error (message : string).

Inductive outcome (A : Type) : Type :=
| Return (a : A)
| Throw (e : error).

Arguments Return {A} a.
Arguments Throw {A} e.

(** [Number(n)] for an unsigned integer read from an event (a [uint8]
    score, or a length): exact, as the integers met here are far below
    2^53. *)
Definition Number (n : N) : float :=
  PrimFloat.of_uint63 (Uint63.of_Z (Z.of_N n)).

Definition Math_min (a b : float) : float :=
  if is_nan a || is_nan b then nan
  else if PrimFloat.ltb a b then a
  else if PrimFloat.ltb b a then b
  else if get_sign a then a else b.

Definition Math_max (a b : float) : float :=
  if is_nan a || is_nan b then nan
  else if PrimFloat.ltb a b then b
  else if PrimFloat.ltb b a then a
  else if get_sign a then b else a.

(** [BigInt(Math.floor(x))]: the largest integer not above [x]; a
    RangeError when [x] is NaN or infinite. *)
Definition BigInt_floor (x : float) : option Z :=
  match Prim2SF x with
  | S754_zero _ => Some 0%Z
  | S754_finite s m e =>
      let n := if s then Z.neg m else Z.pos m in
      Some (if (0 <=? e)%Z then (n * 2 ^ e)%Z else (n / 2 ^ (- e))%Z)
  | S754_infinity _ => None
  | S754_nan => None
  end.

Definition is_uint256 (v : Z) : bool :=
  ((0 <=? v) && (v <=? Z.of_N MAX_UINT256))%Z.

End JS.

Import JS.

(** ** reputation.ts and the clearing agent *)

(** What the agent reaches outside the repository: its signing key, the
    ethers and runtime conversions, the ERC-8004 registry, the USDC token and
    the rendering of errors as text. *)
Record Externals : Type := mkExternals {
  (** [this.signer.address] *)
  signer : address;
  (** [ethers.parseUnits(amount, 6)]; [None] when it throws *)
  parseUnits : string -> option Z;
  (** [BigInt(agentId)]; [None] when it throws *)
  BigInt : string -> option Z;
  (** the scores of the [NewFeedback] events of an agent id in the lookback
      window ending at the given time; [None] when the RPC call fails *)
  queryFilter : Z -> N -> option (list N);
  (** whether the token lets the pool move [amount] for [agent] *)
  usdc : address -> N -> bool;
  (** [error.message] *)
  describe : error -> string;
  (** [ethers.formatUnits(value, 6)], where it goes into a message *)
  formatUnits : Z -> string
}.

Record CredexResponse_data : Type := mkData {
  data_agentAddress : option address;
  data_agentId : option string;
  data_debt : option Z;
  data_creditLimit : option Z;
  data_available : option Z;
  data_repFactor : option float
}.

(** Amounts in [data] are kept as the integers that
    [ethers.formatUnits(_, 6)] prints. *)
Record CredexResponse : Type := mkResponse {
  success : bool;
  message : option string;
  data : option CredexResponse_data
}.

(** [this.agents]: the in-memory record written at onboarding (its two
    wall-clock fields are left out; nothing reads the map). *)
Record AgentRecord : Type := mkAgentRecord {
  rec_address : address;
  rec_agentId : string;
  rec_debt : Z;
  rec_creditLimit : Z;
  rec_frozen : bool;
  rec_active : bool
}.

(** The ledger backend with its clock, and the agent's memory.  All calls of
    one handler see the timestamp [clock], which only the fixed delay of
    [ensureActiveAgent] moves. *)
Record World : Type := mkWorld {
  ledger : CredexPool;
  clock : N;
  memory : gmap address AgentRecord
}.

Definition Task (A : Type) : Type := World -> outcome A * World.

Definition ret {A : Type} (a : A) : Task A := fun w => (Return a, w).

Definition throw {A : Type} (e : error) : Task A := fun w => (Throw e, w).

Definition await {A B : Type} (m : Task A) (k : A -> Task B) : Task B :=
  fun w =>
    match m w with
    | (Return a, w') => k a w'
    | (Throw e, w') => (Throw e, w')
    end.

Definition try_catch {A : Type} (m : Task A) (handler : error -> Task A) : Task A :=
  fun w =>
    match m w with
    | (Return a, w') => (Return a, w')
    | (Throw e, w') => handler e w'
    end.

Notation "'let*' x := m 'in' k" := (await m (fun x => k))
  (at level 10, x name, m at level 100, k at level 200).

Definition INITIAL_LIMIT_BASE : Z := 50000.
Definition GROWTH_FACTOR_BP : Z := 110.
Definition MAX_LIMIT : Z := 10000 * 1000000.

Section Agent.

Variable X : Externals.

(** *** PoolClient *)

Definition send (env : Env) (f : Env -> CredexPool -> result CredexPool) : Task unit :=
  fun w =>
    match f env (ledger w) with
    | Ok s' => (Return tt, mkWorld s' (clock w) (memory w))
    | Err e => (Throw (CallException e), w)
    end.

Definition getAgent (agentAddress : address) : Task AgentAccount :=
  fun w =>
    match getAgentState (mkEnv (signer X) (clock w) true) (ledger w) agentAddress with
    | Ok acc => (Return acc, w)
    | Err e => (Throw (CallException e), w)
    end.

Definition client_onboardAgent (agentAddress : address) (limit : Z) : Task unit :=
  fun w =>
    if is_uint256 limit then
      send (mkEnv (signer X) (clock w) true)
        (fun env => onboardAgent env agentAddress (Z.to_N limit)) w
    else (Throw InvalidValue, w).

Definition client_setCreditLimit (agentAddress : address) (newLimit : Z) : Task unit :=
  fun w =>
    if is_uint256 newLimit then
      send (mkEnv (signer X) (clock w) true)
        (fun env => setCreditLimit env agentAddress (Z.to_N newLimit)) w
    else (Throw InvalidValue, w).

Definition client_repay (agentAddress : address) (amount : Z) : Task unit :=
  fun w =>
    if is_uint256 amount then
      send (mkEnv (signer X) (clock w) (usdc X agentAddress (Z.to_N amount)))
        (fun env => repay env agentAddress (Z.to_N amount)) w
    else (Throw InvalidValue, w).

Definition client_borrow (agentAddress : address) (amount : Z) : Task unit :=
  fun w =>
    if is_uint256 amount then
      send (mkEnv (signer X) (clock w) (usdc X agentAddress (Z.to_N amount)))
        (fun env => borrow env agentAddress (Z.to_N amount)) w
    else (Throw InvalidValue, w).

(** [setTimeout] for the given number of seconds. *)
Definition sleep (seconds : N) : Task unit :=
  fun w => (Return tt, mkWorld (ledger w) (clock w + seconds) (memory w)).

(** *** ERC8004ReputationReader *)

(** A failed query is swallowed and reads as no feedback. *)
Definition getFeedbackEntries (agentId : Z) : Task (list N) :=
  fun w =>
    match queryFilter X agentId (clock w) with
    | Some scores => (Return scores, w)
    | None => (Return [], w)
    end.

Definition calculateReputationScore (agentId : Z) : Task (option float) :=
  let* entries := getFeedbackEntries agentId in
  match entries with
  | [] => ret None
  | _ =>
      let scores := map Number entries in
      let sum := fold_left PrimFloat.add scores PrimFloat.zero in
      let average := PrimFloat.div sum (Number (N.of_nat (length scores))) in
      ret (Some average)
  end.

Definition getRepFactorByAgentId (agentId : string) : Task float :=
  match BigInt X agentId with
  | None => throw InvalidValue
  | Some agentIdBigInt =>
      if (agentIdBigInt =? 0)%Z then ret PrimFloat.one
      else
        let* score := calculateReputationScore agentIdBigInt in
        match score with
        | None => ret PrimFloat.one
        | Some score =>
            (* 0.1 is the double 0x1.999999999999ap-4 *)
            ret (Math_max 0x1.999999999999ap-4%float
                   (Math_min 3%float (PrimFloat.div score 100%float)))
        end
  end.

(** *** CredexClearing *)

Definition calculateInitialLimit (repFactor : float) : option Z :=
  match BigInt_floor (PrimFloat.mul repFactor 100%float) with
  | Some factor => Some (Z.quot (INITIAL_LIMIT_BASE * factor) 100)
  | None => None
  end.

Definition calculateGrowthLimit (currentLimit : Z) : Z :=
  let grown := Z.quot (currentLimit * GROWTH_FACTOR_BP) 100 in
  if (MAX_LIMIT <? grown)%Z then MAX_LIMIT else grown.

Definition failed (e : error) : Task CredexResponse :=
  ret (mkResponse false (Some (describe X e)) None).

Definition handleOnboard (agentAddress : address) (agentId : string)
  : Task CredexResponse :=
  try_catch
    (let* existing := getAgent agentAddress in
     if active existing then
       ret (mkResponse false (Some "Agent already onboarded")
              (Some (mkData None None (Some (Z.of_N (debt existing)))
                       (Some (Z.of_N (creditLimit existing))) None None)))
     else
       let* repFactor :=
         try_catch (getRepFactorByAgentId agentId)
           (fun _ => ret PrimFloat.one) in
       match calculateInitialLimit repFactor with
       | None => throw InvalidValue
       | Some initialLimit =>
           let* _ := client_onboardAgent agentAddress initialLimit in
           let* _ := (fun w =>
             (Return tt,
              mkWorld (ledger w) (clock w)
                (<[agentAddress :=
                     mkAgentRecord agentAddress agentId 0 initialLimit false true]>
                   (memory w)))) in
           ret (mkResponse true (Some "Agent onboarded successfully")
                  (Some (mkData (Some agentAddress) (Some agentId) None
                           (Some initialLimit) None (Some repFactor))))
       end)
    failed.

Definition ensureActiveAgent (agentAddress : address) : Task AgentAccount :=
  let* agent := getAgent agentAddress in
  if negb (active agent) then
    let* onboardRes := handleOnboard agentAddress "0" in
    if negb (success onboardRes) then
      throw (Error (String.append "Auto-onboarding failed: "
                      (default "undefined" (message onboardRes))))
    else
      let* _ := sleep 2 in
      getAgent agentAddress
  else ret agent.

Definition handleBorrow (agentAddress : address) (amount : string)
  : Task CredexResponse :=
  try_catch
    (match parseUnits X amount with
     | None => throw InvalidValue
     | Some amountWei =>
         let* agent := ensureActiveAgent agentAddress in
         if frozen agent then
           ret (mkResponse false (Some "Agent is frozen") None)
         else
           let available := (Z.of_N (creditLimit agent) - Z.of_N (debt agent))%Z in
           if (available <? amountWei)%Z then
             ret (mkResponse false
                    (Some (String.append "Insufficient credit. Available: "
                             (String.append (formatUnits X available) " USDC")))
                    None)
           else
             let* _ := client_borrow agentAddress amountWei in
             let* updated := getAgent agentAddress in
             ret (mkResponse true
                    (Some (String.append "Borrowed " (String.append amount " USDC")))
                    (Some (mkData None None (Some (Z.of_N (debt updated)))
                             (Some (Z.of_N (creditLimit updated)))
                             (Some (Z.of_N (creditLimit updated) - Z.of_N (debt updated))%Z)
                             None)))
     end)
    failed.

Definition handleRepay (agentAddress : address) (amount : string)
  : Task CredexResponse :=
  try_catch
    (match parseUnits X amount with
     | None => throw InvalidValue
     | Some amountWei =>
         let* agent := ensureActiveAgent agentAddress in
         let* _ := client_repay agentAddress amountWei in
         let currentLimit := Z.of_N (creditLimit agent) in
         let newLimit := calculateGrowthLimit currentLimit in
         let* _ :=
           (if (currentLimit <? newLimit)%Z
            then client_setCreditLimit agentAddress newLimit
            else ret tt) in
         let* updated := getAgent agentAddress in
         ret (mkResponse true
                (Some (String.append "Repaid " (String.append amount " USDC")))
                (Some (mkData None None (Some (Z.of_N (debt updated)))
                         (Some (Z.of_N (creditLimit updated)))
                         (Some (Z.of_N (creditLimit updated) - Z.of_N (debt updated))%Z)
                         None)))
     end)
    failed.

End Agent.

(** * What the properties are stated with *)

(** Sums over the two mappings. *)
Definition sumN (m : gmap address N) : N :=
  map_fold (fun _ v acc => v + acc) 0 m.

Definition sumShares (s : CredexPool) : N := sumN (lpShares s).

Definition sumDebt (s : CredexPool) : N := sumN (debt <$> agents s).

(** ** The books of the pool *)

(** What the pool's counters are meant to record: the share counter is the
    sum of the providers' shares, the debt tracker is the sum of the agents'
    debts, and a slot of [agents] that was written holds an onboarded
    account. *)
Record Books (s : CredexPool) : Prop := mkBooks {
  books_shares : sumShares s = totalShares s;
  books_debt : sumDebt s = globalTotalDebt s;
  books_active : forall a acc, agents s !! a = Some acc -> active acc = true
}.

(** The per-account invariant of the ledger. *)
Definition Covered (s : CredexPool) : Prop :=
  forall a, principal (agentOf s a) <= debt (agentOf s a).


(** The quantities of an accrual at the time of [env]: the whole intervals
    elapsed since the watermark, and the simple interest on the debt for
    that many intervals. *)
Definition intervalsDue (env : Env) (acc : AgentAccount) : N :=
  (block_timestamp env - lastAccrued acc) / ACCRUAL_INTERVAL.

Definition interestDue (env : Env) (acc : AgentAccount) : N :=
  debt acc * INTEREST_RATE_BP * intervalsDue env acc / 10000.

(** The shares a deposit of [assets] mints, and the assets a withdrawal of
    [shares] releases, against total assets [ta]. *)
Definition sharesMinted (s : CredexPool) (ta assets : N) : N :=
  if totalShares s =? 0 then assets else assets * totalShares s / ta.

Definition assetsReleased (s : CredexPool) (ta shares : N) : N :=
  shares * ta / totalShares s.

(** The factor [handleOnboard] works with: what the reputation reader
    returns, or the default 1.0 when the reader throws. *)
Definition obtainedFactor (X : Externals) (agentId : string) (w : World) : float :=
  match getRepFactorByAgentId X agentId w with
  | (Return f, _) => f
  | (Throw _, _) => PrimFloat.one
  end.



(** An account on which no interest is pending at time [t], with a debt
    that is a uint256: what a read at time [t] reports is what is stored. *)
Definition settled (t : N) (acc : AgentAccount) : Prop :=
  debt acc <= MAX_UINT256 /\
  (lastAccrued acc = 0 \/ debt acc = 0 \/
   (lastAccrued acc <= t /\ (t - lastAccrued acc) / ACCRUAL_INTERVAL = 0)).

(** ** Sample states *)

(** A pool with one liquidity provider (address 3, 100 USDC of shares) and
    one agent (address 4) that owes 20 USDC of principal and 0.05 USDC of
    interest; the clearing agent is address 2. *)
Definition sample_account : AgentAccount :=
  mkAgentAccount 20050000 20000000 50000000 1000 1000 false true.

Definition sample_pool : CredexPool :=
  mkCredexPool 2 1 (<[4 := sample_account]> ∅) (<[3 := 100000000]> ∅)
    100000000 80000000 20050000.

(** An agent onboarded at time 1000 that has not borrowed yet, and a
    provider's 100 USDC. *)
Definition idle_pool : CredexPool :=
  run [(mkEnv 2 1000 true, OnboardAgent 4 50000000);
       (mkEnv 3 1000 true, Deposit 100000000)]
      (constructor 1 2).

(** The test scenario: 1000 USDC of liquidity, an agent with a limit of
    100 USDC that borrowed 50 USDC at time 1000. *)
Definition loan_pool : CredexPool :=
  run [(mkEnv 3 1000 true, Deposit 1000000000);
       (mkEnv 2 1000 true, OnboardAgent 4 100000000);
       (mkEnv 2 1000 true, Borrow 4 50000000)]
      (constructor 1 2).

(** 100 shares against 200 of assets (150 in cash, 50 lent out). *)
Definition pool_100_200 : CredexPool :=
  mkCredexPool 2 1
    (<[4 := mkAgentAccount 50 50 1000 1000 1000 false true]> ∅)
    (<[3 := 100]> ∅) 100 150 50.

(** The world outside, for the examples: the agent signs as address 2,
    the amount "30" parses to 30 USDC and any other to 0.07 USDC, agent ids
    parse to 7, the registry holds the given feedback scores (or is
    unreachable), the token accepts every transfer. *)
Definition sample_externals (scores : option (list N)) : Externals :=
  mkExternals 2
    (fun amount => if String.eqb amount "30" then Some 30000000%Z else Some 70000%Z)
    (fun _ => Some 7%Z)
    (fun _ _ => scores) (fun _ _ => true) (fun _ => "error") (fun _ => "").

(** The sample pool with the agent's limit at the cap. *)
Definition capped_pool : CredexPool :=
  set_agent 4 (with_creditLimit (Z.to_N MAX_LIMIT) sample_account) sample_pool.


(** A freshly deployed pool at time 1000, nothing in the agent's memory. *)
Definition fresh_world : World := mkWorld (constructor 1 2) 1000 ∅.


(** * The rest of the agent and of the reputation module *)

(** The specification of the operations on doubles, for the comparisons
    of the reputation module. *)
From Stdlib Require Import FloatAxioms.

(** ** CredexClearing.getAgentStatus *)

Record StatusData : Type := mkStatusData {
  status_address : address;
  status_debt : Z;
  status_creditLimit : Z;
  status_available : Z;
  status_frozen : bool;
  status_lastRepayment : string
}.

Record StatusResponse : Type := mkStatusResponse {
  status_success : bool;
  status_message : option string;
  status_data : option StatusData
}.

Section Status.

Variable X : Externals.

(** [new Date(Number(t) * 1000).toISOString()]; [None] when the date is out
    of the range of [Date] and the call throws. *)
Variable toISOString : N -> option string.

Definition getAgentStatus (agentAddress : address) : Task StatusResponse :=
  fun w =>
    match ensureActiveAgent X agentAddress w with
    | (Return agent, w') =>
        match toISOString (lastRepayment agent) with
        | Some iso =>
            (Return (mkStatusResponse true None
                       (Some (mkStatusData agentAddress
                                (Z.of_N (debt agent))
                                (Z.of_N (creditLimit agent))
                                (Z.of_N (creditLimit agent) - Z.of_N (debt agent))%Z
                                (frozen agent) iso))),
             w')
        | None =>
            (Return (mkStatusResponse false (Some (describe X InvalidValue)) None), w')
        end
    | (Throw e, w') =>
        (Return (mkStatusResponse false (Some (describe X e)) None), w')
    end.

End Status.

(** ** reputation.ts: the reader by address and the structured factor *)

(** The [agentId] field of [ReputationInputs] is a string: the address when
    no identity is registered, the decimal agent id otherwise. *)
Inductive AgentRef : Type :=
| ByAddress (a : address)
| ById (agentId : Z).

Record ReputationInputs : Type := mkReputationInputs {
  rep_agentId : AgentRef;
  totalCompleted : float;
  totalFailed : float;
  accountAgeDays : float;
  slashCount : float
}.

Record ReputationBreakdown : Type := mkBreakdown {
  base : float;
  completionBonus : float;
  ageBonus : float;
  slashPenalty : float
}.

Record ReputationResult : Type := mkReputationResult {
  factor : float;
  breakdown : ReputationBreakdown
}.

Section Reputation.

Variable X : Externals.

(** [identityRegistry.getAgentId(address)] at the given time; [None] when
    the call fails. *)
Variable registryAgentId : address -> N -> option Z.

Definition getAgentId (a : address) : Task (option Z) :=
  fun w =>
    match registryAgentId a (clock w) with
    | Some agentId => (Return (if (0 <? agentId)%Z then Some agentId else None), w)
    | None => (Return None, w)
    end.

Definition getRepFactor (a : address) : Task float :=
  let* agentId := getAgentId a in
  match agentId with
  | None => ret PrimFloat.one
  | Some agentId =>
      let* score := calculateReputationScore X agentId in
      match score with
      | None => ret PrimFloat.one
      | Some score =>
          ret (Math_max 0x1.999999999999ap-4%float
                 (Math_min 3%float (PrimFloat.div score 100%float)))
      end
  end.

Definition readERC8004 (a : address) : Task ReputationInputs :=
  let* agentId := getAgentId a in
  match agentId with
  | None =>
      ret (mkReputationInputs (ByAddress a) PrimFloat.zero PrimFloat.zero
             PrimFloat.zero PrimFloat.zero)
  | Some agentId =>
      let* entries := getFeedbackEntries X agentId in
      let scores := map Number entries in
      let completed := List.filter (fun score => PrimFloat.leb 50%float score) scores in
      let failed := List.filter (fun score => PrimFloat.ltb score 50%float) scores in
      ret (mkReputationInputs (ById agentId)
             (Number (N.of_nat (length completed)))
             (Number (N.of_nat (length failed)))
             PrimFloat.zero PrimFloat.zero)
  end.

End Reputation.

(** The thresholds 0.99, 0.95 and 0.9 are the doubles
    0x1.fae147ae147aep-1, 0x1.e666666666666p-1 and 0x1.ccccccccccccdp-1. *)
Definition calculateRepFactor (inputs : ReputationInputs) : ReputationResult :=
  let totalJobs := PrimFloat.add (totalCompleted inputs) (totalFailed inputs) in
  let completionBonus :=
    if PrimFloat.ltb PrimFloat.zero totalJobs then
      let completionRate := PrimFloat.div (totalCompleted inputs) totalJobs in
      if PrimFloat.leb 0x1.fae147ae147aep-1%float completionRate then 1%float
      else if PrimFloat.leb 0x1.e666666666666p-1%float completionRate then 0.5%float
      else if PrimFloat.leb 0x1.ccccccccccccdp-1%float completionRate then 0.25%float
      else PrimFloat.zero
    else PrimFloat.zero in
  let ageBonus :=
    if PrimFloat.leb 180%float (accountAgeDays inputs) then 0.5%float
    else if PrimFloat.leb 90%float (accountAgeDays inputs) then 0.25%float
    else PrimFloat.zero in
  let slashPenalty :=
    Math_min (PrimFloat.mul (slashCount inputs) 0.25%float) 1%float in
  let factor :=
    PrimFloat.sub
      (PrimFloat.add (PrimFloat.add 1%float completionBonus) ageBonus)
      slashPenalty in
  mkReputationResult
    (Math_max 0x1.999999999999ap-4%float (Math_min 3%float factor))
    (mkBreakdown 1%float completionBonus ageBonus slashPenalty).

(** [calculateCreditLimit(stake, repFactor)]; [None] when [BigInt] throws. *)
Definition calculateCreditLimit (stake : Z) (repFactor : float) : option Z :=
  match BigInt_floor (PrimFloat.mul repFactor 1000%float) with
  | Some factorScaled => Some (Z.quot (stake * factorScaled) 1000)
  | None => None
  end.

(** ** What the further properties are stated with *)

(** The assets of the pool as a number: cash plus lent-out debt. *)
Definition poolAssets (s : CredexPool) : N :=
  totalLiquidity s + globalTotalDebt s.

(** The pool with the [frozen] flag of one account set. *)
Definition flagged (a : address) (b : bool) (s : CredexPool) : CredexPool :=
  set_agent a (with_frozen b (agentOf s a)) s.

(** The calls that carry the [onlyAgent] modifier. *)
Definition isAgentCall (c : Call) : bool :=
  match c with
  | OnboardAgent _ _ | SetCreditLimit _ _ | Borrow _ _ | Repay _ _
  | Freeze _ | Unfreeze _ => true
  | Deposit _ | Withdraw _ | SetAgent _ => false
  end.

(** Shares are backed: there are no shares against an empty pool. *)
Definition Backed (s : CredexPool) : Prop :=
  totalShares s <> 0 -> poolAssets s <> 0.

(** Externals that read the agent id "0" as 0, as [BigInt] does, and every
    other id as 7, an agent with the feedback scores 55 and 56; the amounts
    "30" and "0" are parsed as they read and any other amount as 0.07. *)
Definition plain_externals : Externals :=
  mkExternals 2
    (fun amount =>
       if String.eqb amount "30" then Some 30000000%Z
       else if String.eqb amount "0" then Some 0%Z
       else Some 70000%Z)
    (fun agentId => if String.eqb agentId "0" then Some 0%Z else Some 7%Z)
    (fun _ _ => Some [55; 56]) (fun _ _ => true) (fun _ => "error") (fun _ => "").

(** A pool with 100 USDC of cash and no agent yet, at time 1000. *)
Definition funded_world : World :=
  mkWorld (transact (constructor 1 2) (mkEnv 3 900 true, Deposit 100000000)) 1000 ∅.

(** A factor within the bounds 0.1 and 3.0 of the clamp. *)
Definition clamped (f : float) : bool :=
  PrimFloat.leb 0x1.999999999999ap-4%float f && PrimFloat.leb f 3%float.

(** The registry of the examples: address 4 has the agent id 7, no other
    address has an identity. *)
Definition sample_registry (a : address) (t : N) : option Z :=
  if a =? 4 then Some 7%Z else Some 0%Z.
(** ** Sums over a mapping *)

Section Sums.

Lemma sumN_empty : sumN ∅ = 0.
Proof. apply map_fold_empty. Qed.

Lemma sumN_insert_fresh (m : gmap address N) (k : address) (v : N) :
  m !! k = None -> sumN (<[k := v]> m) = v + sumN m.
Proof.
  intros Hk. unfold sumN.
  rewrite map_fold_insert_L; [reflexivity | | exact Hk].
  intros; lia.
Qed.

Lemma sumN_delete (m : gmap address N) (k : address) (x : N) :
  m !! k = Some x -> sumN m = x + sumN (delete k m).
Proof.
  intros Hk.
  rewrite <- (insert_delete_id m k x Hk) at 1.
  apply sumN_insert_fresh, lookup_delete_eq.
Qed.

(** Writing a slot replaces its old value in the sum. *)
Lemma sumN_insert (m : gmap address N) (k : address) (v : N) :
  sumN (<[k := v]> m) + default 0 (m !! k) = sumN m + v.
Proof.
  destruct (m !! k) as [x|] eqn:Hk; simpl.
  - rewrite (sumN_delete m k x Hk).
    rewrite <- (insert_delete_eq m k v).
    rewrite sumN_insert_fresh by apply lookup_delete_eq. lia.
  - rewrite sumN_insert_fresh by exact Hk. lia.
Qed.

Lemma sumN_lookup_le (m : gmap address N) (k : address) :
  default 0 (m !! k) <= sumN m.
Proof.
  destruct (m !! k) as [x|] eqn:Hk; simpl; [|lia].
  rewrite (sumN_delete m k x Hk). lia.
Qed.

End Sums.

(** ** Reasoning about the failure monad *)

Lemma bind_Ok {A B : Type} (m : result A) (k : A -> result B) (b : B) :
  bind m k = Ok b -> exists a, m = Ok a /\ k a = Ok b.
Proof. destruct m as [a|e]; simpl; [eauto | discriminate]. Qed.

Lemma require_Ok (c : bool) (msg : string) (u : unit) :
  require c msg = Ok u -> c = true.
Proof. destruct c; [reflexivity | discriminate]. Qed.

Lemma add_Ok (a b c : N) : add a b = Ok c -> c = a + b /\ a + b <= MAX_UINT256.
Proof.
  unfold add. destruct (N.leb_spec (a + b) MAX_UINT256); [|discriminate].
  intros [= <-]. split; [reflexivity | assumption].
Qed.

Lemma sub_Ok (a b c : N) : sub a b = Ok c -> c = a - b /\ b <= a.
Proof.
  unfold sub. destruct (N.leb_spec b a); [|discriminate].
  intros [= <-]. split; [reflexivity | assumption].
Qed.

Lemma mul_Ok (a b c : N) : mul a b = Ok c -> c = a * b /\ a * b <= MAX_UINT256.
Proof.
  unfold mul. destruct (N.leb_spec (a * b) MAX_UINT256); [|discriminate].
  intros [= <-]. split; [reflexivity | assumption].
Qed.

Lemma div_Ok (a b c : N) : div a b = Ok c -> c = a / b /\ b <> 0.
Proof.
  unfold div. destruct (N.eqb_spec b 0); [discriminate|].
  intros [= <-]. split; [reflexivity | assumption].
Qed.

Lemma usdc_call_Ok (env : Env) (u : unit) : usdc_call env = Ok u -> usdc_ok env = true.
Proof. unfold usdc_call. destruct (usdc_ok env); [reflexivity | discriminate]. Qed.

Lemma add_fits (a b : N) : a + b <= MAX_UINT256 -> add a b = Ok (a + b).
Proof. intros H. unfold add. apply N.leb_le in H. rewrite H. reflexivity. Qed.

Lemma sub_fits (a b : N) : b <= a -> sub a b = Ok (a - b).
Proof. intros H. unfold sub. apply N.leb_le in H. rewrite H. reflexivity. Qed.

Lemma mul_fits (a b : N) : a * b <= MAX_UINT256 -> mul a b = Ok (a * b).
Proof. intros H. unfold mul. apply N.leb_le in H. rewrite H. reflexivity. Qed.

Lemma div_fits (a b : N) : b <> 0 -> div a b = Ok (a / b).
Proof. intros H. unfold div. apply N.eqb_neq in H. rewrite H. reflexivity. Qed.

(** Take a successful run of a contract function apart, one statement at a
    time. *)
Ltac inv_ok :=
  repeat match goal with
  | H : bind _ _ = Ok _ |- _ =>
      let a := fresh "v" in let E := fresh "E" in
      apply bind_Ok in H; destruct H as (a & E & H)
  | H : require _ _ = Ok _ |- _ => apply require_Ok in H
  | H : onlyAgent _ _ = Ok _ |- _ => apply require_Ok in H
  | H : onlyOwner _ _ = Ok _ |- _ => apply require_Ok in H
  | H : usdc_call _ = Ok _ |- _ => apply usdc_call_Ok in H
  | H : add _ _ = Ok _ |- _ => apply add_Ok in H; destruct H as [-> H]
  | H : sub _ _ = Ok _ |- _ => apply sub_Ok in H; destruct H as [-> H]
  | H : mul _ _ = Ok _ |- _ => apply mul_Ok in H; destruct H as [-> H]
  | H : div _ _ = Ok _ |- _ => apply div_Ok in H; destruct H as [-> H]
  | H : Ok _ = Ok _ |- _ => injection H as H; try subst
  | H : Err _ = Ok _ |- _ => discriminate H
  | H : (if ?c then _ else _) = Ok _ |- _ => destruct c eqn:?
  end.

(** ** Reads after writes *)

Lemma agentOf_set_agent_eq (a : address) (acc : AgentAccount) (s : CredexPool) :
  agentOf (set_agent a acc s) a = acc.
Proof. unfold agentOf, set_agent; simpl. rewrite lookup_insert_eq. reflexivity. Qed.

Lemma agentOf_set_agent_ne (a b : address) (acc : AgentAccount) (s : CredexPool) :
  a <> b -> agentOf (set_agent a acc s) b = agentOf s b.
Proof.
  intros Hne. unfold agentOf, set_agent; simpl.
  rewrite lookup_insert_ne by exact Hne. reflexivity.
Qed.

Lemma sumDebt_set_agent (a : address) (acc : AgentAccount) (s : CredexPool) :
  sumDebt (set_agent a acc s) + debt (agentOf s a) = sumDebt s + debt acc.
Proof.
  unfold sumDebt, agentOf, set_agent; simpl.
  rewrite fmap_insert.
  pose proof (sumN_insert (debt <$> agents s) a (debt acc)) as H.
  rewrite lookup_fmap in H.
  destruct (agents s !! a); simpl in *; exact H.
Qed.

Lemma debt_le_sumDebt (s : CredexPool) (a : address) :
  debt (agentOf s a) <= sumDebt s.
Proof.
  unfold sumDebt, agentOf.
  pose proof (sumN_lookup_le (debt <$> agents s) a) as H.
  rewrite lookup_fmap in H.
  destruct (agents s !! a); simpl in *; [exact H | lia].
Qed.

Lemma sumShares_set_lpShares (a : address) (v : N) (s : CredexPool) :
  sumShares (set_lpShares a v s) + sharesOf s a = sumShares s + v.
Proof. unfold sumShares, sharesOf, set_lpShares; simpl. apply sumN_insert. Qed.

Lemma sharesOf_le_sumShares (s : CredexPool) (a : address) :
  sharesOf s a <= sumShares s.
Proof. apply sumN_lookup_le. Qed.

Lemma agentOf_active_stored (s : CredexPool) (a : address) :
  active (agentOf s a) = true -> agents s !! a = Some (agentOf s a).
Proof.
  unfold agentOf. destruct (agents s !! a); simpl; [reflexivity | discriminate].
Qed.

Lemma agentOf_debt_stored (s : CredexPool) (a : address) :
  debt (agentOf s a) <> 0 -> agents s !! a = Some (agentOf s a).
Proof.
  unfold agentOf. destruct (agents s !! a); simpl; [reflexivity | congruence].
Qed.

Lemma books_set_agent (s : CredexPool) (a : address) (acc : AgentAccount) (g : N) :
  Books s ->
  active acc = true ->
  g + debt (agentOf s a) = globalTotalDebt s + debt acc ->
  Books (set_globalTotalDebt g (set_agent a acc s)).
Proof.
  intros [Hs Hd Ha] Hact Hg. split; simpl.
  - exact Hs.
  - pose proof (sumDebt_set_agent a acc s) as H.
    change (sumDebt (set_agent a acc s) = g). lia.
  - intros b acc' Hb. destruct (decide (a = b)) as [->|Hne].
    + rewrite lookup_insert_eq in Hb. congruence.
    + rewrite lookup_insert_ne in Hb by exact Hne. eauto.
Qed.

Lemma books_set_totalLiquidity (s : CredexPool) (v : N) :
  Books s -> Books (set_totalLiquidity v s).
Proof. intros [Hs Hd Ha]. split; assumption. Qed.

Lemma books_same_debt (s : CredexPool) (a : address) (acc : AgentAccount) :
  Books s ->
  active acc = true ->
  debt acc = debt (agentOf s a) ->
  Books (set_agent a acc s).
Proof.
  intros HB Hact Hd.
  pose proof (books_set_agent s a acc (globalTotalDebt s) HB Hact) as H.
  destruct s; simpl in *. apply H. lia.
Qed.

(** What a successful accrual did: nothing, or it added the same interest to
    the account's debt and to the tracker and moved the watermark. *)
Lemma accrue_cases (env : Env) (agent : address) (s s1 : CredexPool) :
  _accrueInterest env agent s = Ok s1 ->
  s1 = s \/
  exists interest la,
    debt (agentOf s agent) <> 0 /\
    s1 = set_agent agent
           (with_lastAccrued la
              (with_debt (debt (agentOf s agent) + interest) (agentOf s agent)))
           (set_globalTotalDebt (globalTotalDebt s + interest) s).
Proof.
  unfold _accrueInterest. intros H.
  destruct (lastAccrued (agentOf s agent) =? 0) eqn:Hla; simpl in H.
  { inv_ok. now left. }
  destruct (N.eqb_spec (debt (agentOf s agent)) 0) as [Hz|Hnz]; simpl in H.
  { inv_ok. now left. }
  inv_ok; [right | now left].
  eexists _, _. split; [exact Hnz | reflexivity].
Qed.

Lemma accrue_books (env : Env) (agent : address) (s s1 : CredexPool) :
  _accrueInterest env agent s = Ok s1 -> Books s -> Books s1.
Proof.
  intros H HB. destruct (accrue_cases _ _ _ _ H) as [->|(i & la & Hnz & ->)];
    [exact HB|].
  pose proof (books_active s HB agent _ (agentOf_debt_stored s agent Hnz)) as Hact.
  pose proof (books_set_agent s agent
    (with_lastAccrued la (with_debt (debt (agentOf s agent) + i) (agentOf s agent)))
    (globalTotalDebt s + i) HB Hact) as HB'.
  simpl in HB'. destruct HB' as [Hs Hd Ha]; [lia|].
  split; assumption.
Qed.

Lemma accrue_covered (env : Env) (agent : address) (s s1 : CredexPool) :
  _accrueInterest env agent s = Ok s1 -> Covered s -> Covered s1.
Proof.
  intros H HC. destruct (accrue_cases _ _ _ _ H) as [->|(i & la & Hnz & ->)];
    [exact HC|].
  intros b. destruct (decide (agent = b)) as [<-|Hne].
  - rewrite agentOf_set_agent_eq. simpl. specialize (HC agent). lia.
  - rewrite agentOf_set_agent_ne by exact Hne. apply (HC b).
Qed.

Lemma accrue_active (env : Env) (agent : address) (s s1 : CredexPool) :
  _accrueInterest env agent s = Ok s1 ->
  active (agentOf s1 agent) = active (agentOf s agent).
Proof.
  intros H. destruct (accrue_cases _ _ _ _ H) as [->|(i & la & Hnz & ->)];
    [reflexivity|].
  rewrite agentOf_set_agent_eq. reflexivity.
Qed.

(** ** Every call keeps the books *)

Lemma deposit_books (env : Env) (assets : N) (s s' : CredexPool) :
  deposit env assets s = Ok s' -> Books s -> Books s'.
Proof.
  unfold deposit. intros H [Hs Hd Ha]. 
  apply bind_Ok in H as (_ & _ & H).
  apply bind_Ok in H as (ta & _ & H).
  apply bind_Ok in H as (shares & _ & H).
  inv_ok. split; simpl; try assumption.
  pose proof (sumShares_set_lpShares (msg_sender env)
                (sharesOf s (msg_sender env) + shares) s) as Hsum.
  change (sumShares (set_lpShares (msg_sender env)
            (sharesOf s (msg_sender env) + shares) s) = totalShares s + shares).
  lia.
Qed.

Lemma withdraw_books (env : Env) (shares : N) (s s' : CredexPool) :
  withdraw env shares s = Ok s' -> Books s -> Books s'.
Proof.
  unfold withdraw. intros H [Hs Hd Ha].
  inv_ok. split; simpl; try assumption.
  pose proof (sumShares_set_lpShares (msg_sender env)
                (sharesOf s (msg_sender env) - shares) s) as Hsum.
  change (sumShares (set_lpShares (msg_sender env)
            (sharesOf s (msg_sender env) - shares) s) = totalShares s - shares).
  lia.
Qed.

Lemma onboardAgent_books (env : Env) (agent : address) (limit : N) (s s' : CredexPool) :
  onboardAgent env agent limit s = Ok s' -> Books s -> Books s'.
Proof.
  unfold onboardAgent. intros H HB.
  apply bind_Ok in H as (_ & _ & H).
  apply bind_Ok in H as (? & Hnew & H). apply require_Ok in Hnew.
  inv_ok.
  apply books_same_debt; [exact HB | reflexivity |].
  simpl. destruct (agents s !! agent) as [acc|] eqn:Hl.
  - pose proof (books_active s HB agent acc Hl) as Hact.
    unfold agentOf in Hnew. rewrite Hl in Hnew. simpl in Hnew.
    rewrite Hact in Hnew. discriminate.
  - unfold agentOf. rewrite Hl. reflexivity.
Qed.

Lemma setCreditLimit_books (env : Env) (agent : address) (l : N) (s s' : CredexPool) :
  setCreditLimit env agent l s = Ok s' -> Books s -> Books s'.
Proof.
  unfold setCreditLimit. intros H HB. inv_ok.
  apply books_same_debt; [exact HB | assumption | reflexivity].
Qed.

Lemma freeze_books (env : Env) (agent : address) (s s' : CredexPool) :
  freeze env agent s = Ok s' -> Books s -> Books s'.
Proof.
  unfold freeze. intros H HB. inv_ok.
  apply books_same_debt; [exact HB | assumption | reflexivity].
Qed.

Lemma unfreeze_books (env : Env) (agent : address) (s s' : CredexPool) :
  unfreeze env agent s = Ok s' -> Books s -> Books s'.
Proof.
  unfold unfreeze. intros H HB. inv_ok.
  apply books_same_debt; [exact HB | assumption | reflexivity].
Qed.

Lemma setAgent_books (env : Env) (a : address) (s s' : CredexPool) :
  setAgent env a s = Ok s' -> Books s -> Books s'.
Proof.
  unfold setAgent. intros H [Hs Hd Ha]. inv_ok. split; assumption.
Qed.

Lemma borrow_books (env : Env) (agent : address) (amount : N) (s s' : CredexPool) :
  borrow env agent amount s = Ok s' -> Books s -> Books s'.
Proof.
  unfold borrow. intros H HB.
  apply bind_Ok in H as (_ & _ & H).
  apply bind_Ok in H as (? & Hact & H). apply require_Ok in Hact.
  apply bind_Ok in H as (_ & _ & H).
  apply bind_Ok in H as (s1 & Hacc & H).
  pose proof (accrue_books _ _ _ _ Hacc HB) as HB1.
  rewrite <- (accrue_active _ _ _ _ Hacc) in Hact.
  inv_ok.
  pose proof (books_set_agent (set_totalLiquidity (totalLiquidity s1 - amount) s1)
    agent
    (with_debt (debt (agentOf s1 agent) + amount)
       (with_principal (principal (agentOf s1 agent) + amount) (agentOf s1 agent)))
    (globalTotalDebt s1 + amount)) as HB'.
  apply HB'.
  - apply books_set_totalLiquidity, HB1.
  - exact Hact.
  - simpl. change (agentOf (set_totalLiquidity (totalLiquidity s1 - amount) s1) agent)
      with (agentOf s1 agent). lia.
Qed.

Lemma repay_books (env : Env) (agent : address) (amount : N) (s s' : CredexPool) :
  repay env agent amount s = Ok s' -> Books s -> Books s'.
Proof.
  unfold repay. intros H HB.
  apply bind_Ok in H as (_ & _ & H).
  apply bind_Ok in H as (? & Hact & H). apply require_Ok in Hact.
  apply bind_Ok in H as (s1 & Hacc & H).
  pose proof (accrue_books _ _ _ _ Hacc HB) as HB1.
  rewrite <- (accrue_active _ _ _ _ Hacc) in Hact.
  set (acc := agentOf s1 agent) in *.
  set (eff := if debt acc <? amount then debt acc else amount) in *.
  assert (Heff : eff <= debt acc).
  { subst eff. destruct (N.ltb_spec (debt acc) amount); lia. }
  apply bind_Ok in H as (_ & _ & H).
  apply bind_Ok in H as (io & Hio & H).
  apply bind_Ok in H as (acc1 & Hacc1 & H).
  assert (Hshape : active acc1 = true /\ debt acc1 = debt acc - eff).
  { destruct (eff <=? io); inv_ok; simpl; auto. }
  destruct Hshape as [Hact1 Hd1]. clear Hacc1 Hio.
  inv_ok.
  apply books_set_totalLiquidity.
  pose proof (books_set_agent s1 agent
    (with_lastRepayment (block_timestamp env) acc1)
    (globalTotalDebt s1 - eff) HB1 Hact1) as HB'.
  apply HB'. simpl. fold acc. lia.
Qed.

Lemma call_books (env : Env) (c : Call) (s s' : CredexPool) :
  call env c s = Ok s' -> Books s -> Books s'.
Proof.
  destruct c; simpl;
    eauto using deposit_books, withdraw_books, onboardAgent_books,
      setCreditLimit_books, borrow_books, repay_books, freeze_books,
      unfreeze_books, setAgent_books.
Qed.

Lemma transact_books (s : CredexPool) (tx : Env * Call) :
  Books s -> Books (transact s tx).
Proof.
  intros HB. unfold transact.
  destruct (call (fst tx) (snd tx) s) eqn:E; [|exact HB].
  eapply call_books; eassumption.
Qed.

Lemma constructor_books (deployer agent : address) :
  Books (constructor deployer agent).
Proof.
  split; simpl.
  - apply sumN_empty.
  - unfold sumDebt; simpl. rewrite fmap_empty. apply sumN_empty.
  - intros a acc H. rewrite lookup_empty in H. discriminate.
Qed.

Lemma run_books (txs : list (Env * Call)) (s : CredexPool) :
  Books s -> Books (run txs s).
Proof.
  revert s. induction txs as [|tx txs IH]; intros s HB; simpl.
  - exact HB.
  - apply IH, transact_books, HB.
Qed.

(** ** Every call keeps debt above principal *)

Lemma covered_set_agent (s : CredexPool) (a : address) (acc : AgentAccount) :
  Covered s -> principal acc <= debt acc -> Covered (set_agent a acc s).
Proof.
  intros HC Hacc b. destruct (decide (a = b)) as [<-|Hne].
  - rewrite agentOf_set_agent_eq. exact Hacc.
  - rewrite agentOf_set_agent_ne by exact Hne. apply HC.
Qed.

Lemma covered_agents_eq (s s' : CredexPool) :
  agents s' = agents s -> Covered s -> Covered s'.
Proof. intros Heq HC a. unfold agentOf. rewrite Heq. apply HC. Qed.

Lemma borrow_covered (env : Env) (agent : address) (amount : N) (s s' : CredexPool) :
  borrow env agent amount s = Ok s' -> Covered s -> Covered s'.
Proof.
  unfold borrow. intros H HC.
  apply bind_Ok in H as (? & _ & H).
  apply bind_Ok in H as (? & _ & H).
  apply bind_Ok in H as (? & _ & H).
  apply bind_Ok in H as (s1 & Hacc & H).
  pose proof (accrue_covered _ _ _ _ Hacc HC) as HC1.
  inv_ok.
  eapply covered_agents_eq; [reflexivity|].
  apply covered_set_agent; [exact HC1|].
  simpl. specialize (HC1 agent). lia.
Qed.

Lemma repay_covered (env : Env) (agent : address) (amount : N) (s s' : CredexPool) :
  repay env agent amount s = Ok s' -> Covered s -> Covered s'.
Proof.
  unfold repay. intros H HC.
  apply bind_Ok in H as (? & _ & H).
  apply bind_Ok in H as (? & _ & H).
  apply bind_Ok in H as (s1 & Hacc & H).
  pose proof (accrue_covered _ _ _ _ Hacc HC) as HC1.
  set (acc := agentOf s1 agent) in *.
  set (eff := if debt acc <? amount then debt acc else amount) in *.
  apply bind_Ok in H as (? & _ & H).
  apply bind_Ok in H as (io & Hio & H).
  apply bind_Ok in H as (acc1 & Hacc1 & H).
  assert (Hcov : principal acc1 <= debt acc1).
  { apply sub_Ok in Hio as [-> Hle].
    destruct (N.leb_spec eff (debt acc - principal acc)); inv_ok; simpl; lia. }
  clear Hacc1 Hio. inv_ok.
  eapply covered_agents_eq; [reflexivity|].
  apply covered_set_agent; [exact HC1 | exact Hcov].
Qed.

Lemma call_covered (env : Env) (c : Call) (s s' : CredexPool) :
  call env c s = Ok s' -> Covered s -> Covered s'.
Proof.
  destruct c; simpl; intros H HC.
  - unfold deposit in H. apply bind_Ok in H as (? & _ & H).
    apply bind_Ok in H as (? & _ & H). apply bind_Ok in H as (? & _ & H).
    inv_ok. eapply covered_agents_eq; [reflexivity | exact HC].
  - unfold withdraw in H. inv_ok.
    eapply covered_agents_eq; [reflexivity | exact HC].
  - unfold onboardAgent in H. inv_ok.
    apply covered_set_agent; [exact HC | simpl; lia].
  - unfold setCreditLimit in H. inv_ok.
    apply covered_set_agent; [exact HC | apply HC].
  - eapply borrow_covered; eassumption.
  - eapply repay_covered; eassumption.
  - unfold freeze in H. inv_ok.
    apply covered_set_agent; [exact HC | apply HC].
  - unfold unfreeze in H. inv_ok.
    apply covered_set_agent; [exact HC | apply HC].
  - unfold setAgent in H. inv_ok.
    eapply covered_agents_eq; [reflexivity | exact HC].
Qed.

Lemma transact_covered (s : CredexPool) (tx : Env * Call) :
  Covered s -> Covered (transact s tx).
Proof.
  intros HC. unfold transact.
  destruct (call (fst tx) (snd tx) s) eqn:E; [|exact HC].
  eapply call_covered; eassumption.
Qed.

Lemma constructor_covered (deployer agent : address) :
  Covered (constructor deployer agent).
Proof. intros a. unfold agentOf; simpl. rewrite lookup_empty. simpl. lia. Qed.

Lemma run_covered (txs : list (Env * Call)) (s : CredexPool) :
  Covered s -> Covered (run txs s).
Proof.
  revert s. induction txs as [|tx txs IH]; intros s HC; simpl.
  - exact HC.
  - apply IH, transact_covered, HC.
Qed.

(** Closed facts about concrete numbers and states. *)
Ltac crunch :=
  vm_compute; first [reflexivity | discriminate | congruence | intro; discriminate].

Lemma accrue_totalLiquidity (env : Env) (agent : address) (s s1 : CredexPool) :
  _accrueInterest env agent s = Ok s1 -> totalLiquidity s1 = totalLiquidity s.
Proof.
  intros H. destruct (accrue_cases _ _ _ _ H) as [->|(i & la & Hnz & ->)];
    reflexivity.
Qed.

Lemma accrue_frozen (env : Env) (agent : address) (s s1 : CredexPool) :
  _accrueInterest env agent s = Ok s1 ->
  frozen (agentOf s1 agent) = frozen (agentOf s agent).
Proof.
  intros H. destruct (accrue_cases _ _ _ _ H) as [->|(i & la & Hnz & ->)];
    [reflexivity|].
  rewrite agentOf_set_agent_eq. reflexivity.
Qed.

Lemma onlyAgent_fits (env : Env) (s : CredexPool) :
  msg_sender env = credexAgent s -> onlyAgent env s = Ok tt.
Proof.
  intros H. unfold onlyAgent, require. rewrite H, N.eqb_refl. reflexivity.
Qed.

Lemma require_fits (c : bool) (msg : string) : c = true -> require c msg = Ok tt.
Proof. intros ->. reflexivity. Qed.

Lemma usdc_call_fits (env : Env) : usdc_ok env = true -> usdc_call env = Ok tt.
Proof. intros H. unfold usdc_call. rewrite H. reflexivity. Qed.

Lemma agentOf_after_repay (s : CredexPool) (a : address) (acc : AgentAccount) (tl g : N) :
  agentOf (set_totalLiquidity tl (set_globalTotalDebt g (set_agent a acc s))) a = acc.
Proof. unfold agentOf; simpl. rewrite lookup_insert_eq. reflexivity. Qed.

(** A failed arithmetic check or token call is not a failed [require]. *)
Ltac not_a_revert E :=
  unfold add, sub, mul, div, usdc_call in E;
  match type of E with
  | (if ?c then _ else _) = _ => destruct c
  end;
  congruence.

(** ** Reasoning about the agent's tasks *)

Lemma await_Return {A B : Type} (m : Task A) (k : A -> Task B)
      (w w' : World) (b : B) :
  await m k w = (Return b, w') ->
  exists a w1, m w = (Return a, w1) /\ k a w1 = (Return b, w').
Proof.
  unfold await. destruct (m w) as [[a|e] w1]; [eauto | discriminate].
Qed.

Lemma getAgentState_shape (env : Env) (s : CredexPool) (a : address)
      (acc : AgentAccount) :
  getAgentState env s a = Ok acc -> exists d, acc = with_debt d (agentOf s a).
Proof.
  unfold getAgentState. intros H.
  apply bind_Ok in H as (p & _ & H).
  apply bind_Ok in H as (d & _ & H).
  injection H as <-. eauto.
Qed.

Section AgentLemmas.

Variable X : Externals.

Lemma getAgent_Return (a : address) (w w' : World) (acc : AgentAccount) :
  getAgent X a w = (Return acc, w') ->
  w' = w /\
  getAgentState (mkEnv (signer X) (clock w) true) (ledger w) a = Ok acc.
Proof.
  unfold getAgent.
  destruct (getAgentState _ (ledger w) a); [|discriminate].
  intros [= <- <-]. split; reflexivity.
Qed.

Lemma send_Return (env : Env) (f : Env -> CredexPool -> result CredexPool)
      (w w' : World) (u : unit) :
  send env f w = (Return u, w') ->
  f env (ledger w) = Ok (ledger w') /\ clock w' = clock w /\ memory w' = memory w.
Proof.
  unfold send. destruct (f env (ledger w)); [|discriminate].
  intros [= _ <-]. repeat split.
Qed.

Lemma failed_not_success (e : error) (w w' : World) (resp : CredexResponse) :
  failed X e w = (Return resp, w') -> success resp = false.
Proof. unfold failed, ret. intros [= <- _]. reflexivity. Qed.

(** A handler's successful answer comes from its body, not from its
    [catch]. *)
Lemma try_catch_success (m : Task CredexResponse) (w w' : World)
      (resp : CredexResponse) :
  try_catch m (failed X) w = (Return resp, w') ->
  success resp = true ->
  m w = (Return resp, w').
Proof.
  unfold try_catch. destruct (m w) as [[r|e] w1]; intros H Hs.
  - exact H.
  - apply failed_not_success in H. congruence.
Qed.

(** What [ensureActiveAgent] hands back is the ledger's report at the end
    of the call. *)
Lemma ensureActiveAgent_reads (a : address) (w w1 : World) (agent : AgentAccount) :
  ensureActiveAgent X a w = (Return agent, w1) ->
  getAgentState (mkEnv (signer X) (clock w1) true) (ledger w1) a = Ok agent.
Proof.
  unfold ensureActiveAgent. intros H.
  apply await_Return in H as (first & w0 & Hfirst & H).
  apply getAgent_Return in Hfirst as [-> Hfirst].
  destruct (negb (active first)).
  - apply await_Return in H as (resp & w2 & _ & H).
    destruct (negb (success resp)); [discriminate H|].
    apply await_Return in H as (u & w3 & _ & H).
    apply getAgent_Return in H as [-> H]. exact H.
  - unfold ret in H. injection H as <- <-. exact Hfirst.
Qed.

End AgentLemmas.

Lemma accrue_creditLimit (env : Env) (agent : address) (s s1 : CredexPool) :
  _accrueInterest env agent s = Ok s1 ->
  creditLimit (agentOf s1 agent) = creditLimit (agentOf s agent).
Proof.
  intros H. destruct (accrue_cases _ _ _ _ H) as [->|(i & la & Hnz & ->)];
    [reflexivity|].
  rewrite agentOf_set_agent_eq. reflexivity.
Qed.

Lemma repay_creditLimit (env : Env) (agent : address) (amount : N) (s s' : CredexPool) :
  repay env agent amount s = Ok s' ->
  creditLimit (agentOf s' agent) = creditLimit (agentOf s agent).
Proof.
  unfold repay. intros H.
  apply bind_Ok in H as (? & _ & H).
  apply bind_Ok in H as (? & _ & H).
  apply bind_Ok in H as (s1 & Hacc & H).
  rewrite <- (accrue_creditLimit _ _ _ _ Hacc).
  apply bind_Ok in H as (? & _ & H).
  apply bind_Ok in H as (io & _ & H).
  apply bind_Ok in H as (acc1 & Hacc1 & H).
  assert (Hsame : creditLimit acc1 = creditLimit (agentOf s1 agent)).
  { destruct (_ <=? io); inv_ok; reflexivity. }
  clear Hacc1. inv_ok.
  rewrite agentOf_after_repay. exact Hsame.
Qed.

Lemma setCreditLimit_creditLimit (env : Env) (agent : address) (l : N)
      (s s' : CredexPool) :
  setCreditLimit env agent l s = Ok s' -> creditLimit (agentOf s' agent) = l.
Proof.
  unfold setCreditLimit. intros H. inv_ok.
  rewrite agentOf_set_agent_eq. reflexivity.
Qed.

Lemma calculateGrowthLimit_le_MAX (l : Z) : (calculateGrowthLimit l <= MAX_LIMIT)%Z.
Proof.
  unfold calculateGrowthLimit.
  destruct (Z.ltb_spec MAX_LIMIT (Z.quot (l * GROWTH_FACTOR_BP) 100)); lia.
Qed.

Section ReputationLemmas.

Variable X : Externals.

(** Reading the reputation changes nothing. *)
Lemma getRepFactorByAgentId_reads (agentId : string) (w : World) :
  snd (getRepFactorByAgentId X agentId w) = w.
Proof.
  unfold getRepFactorByAgentId.
  destruct (BigInt X agentId) as [n|]; [|reflexivity].
  destruct (n =? 0)%Z; [reflexivity|].
  unfold await, calculateReputationScore, await, getFeedbackEntries.
  destruct (queryFilter X n (clock w)) as [[|x l]|]; reflexivity.
Qed.

Lemma obtainedFactor_run (agentId : string) (w : World) :
  try_catch (getRepFactorByAgentId X agentId) (fun _ => ret PrimFloat.one) w
  = (Return (obtainedFactor X agentId w), w).
Proof.
  unfold try_catch, obtainedFactor.
  pose proof (getRepFactorByAgentId_reads agentId w) as Hw.
  destruct (getRepFactorByAgentId X agentId w) as [[f|e] w1]; simpl in Hw;
    subst w1; reflexivity.
Qed.

End ReputationLemmas.


(** ** Reading an account back after a repayment *)

Lemma account_eta (acc : AgentAccount) : with_debt (debt acc + 0) acc = acc.
Proof. destruct acc. unfold with_debt; simpl. rewrite N.add_0_r. reflexivity. Qed.

Lemma getAgentState_settled (env : Env) (s : CredexPool) (a : address) :
  settled (block_timestamp env) (agentOf s a) ->
  getAgentState env s a = Ok (agentOf s a).
Proof.
  intros [Hmax Hset]. unfold getAgentState.
  set (acc := agentOf s a) in *.
  assert (Hpending :
    (if (0 <? lastAccrued acc) && (0 <? debt acc) then
       do elapsed <- sub (block_timestamp env) (lastAccrued acc);
       do intervals <- div elapsed ACCRUAL_INTERVAL;
       if 0 <? intervals then
         do m1 <- mul (debt acc) INTEREST_RATE_BP;
         do m2 <- mul m1 intervals;
         div m2 10000
       else Ok 0
     else Ok 0) = Ok 0).
  { destruct Hset as [Hla|[Hd|[Hle Hn]]].
    - rewrite Hla. reflexivity.
    - rewrite Hd, andb_false_r. reflexivity.
    - destruct ((0 <? lastAccrued acc) && (0 <? debt acc)); [|reflexivity].
      rewrite sub_fits by exact Hle; cbn [bind].
      rewrite div_fits by discriminate; cbn [bind].
      rewrite Hn. reflexivity. }
  rewrite Hpending; cbn [bind].
  rewrite add_fits by lia; cbn [bind].
  rewrite account_eta. reflexivity.
Qed.

Lemma getAgentState_debt_fits (env : Env) (s : CredexPool) (a : address)
      (acc : AgentAccount) :
  getAgentState env s a = Ok acc -> debt (agentOf s a) <= MAX_UINT256.
Proof.
  unfold getAgentState. intros H.
  apply bind_Ok in H as (p & _ & H).
  apply bind_Ok in H as (d & Hd & _).
  apply add_Ok in Hd as [_ Hd]. lia.
Qed.

Lemma accrue_settled (env : Env) (a : address) (s s1 : CredexPool) :
  _accrueInterest env a s = Ok s1 ->
  debt (agentOf s a) <= MAX_UINT256 ->
  settled (block_timestamp env) (agentOf s1 a).
Proof.
  unfold _accrueInterest, settled. intros H Hmax.
  set (acc := agentOf s a) in *.
  destruct (N.eqb_spec (lastAccrued acc) 0) as [Hla|Hla]; cbn [orb] in H.
  { injection H as <-. fold acc. auto. }
  destruct (N.eqb_spec (debt acc) 0) as [Hd|Hd].
  { injection H as <-. fold acc. auto. }
  apply bind_Ok in H as (elapsed & He & H). apply sub_Ok in He as [-> Hle].
  apply bind_Ok in H as (n & Hn & H). apply div_Ok in Hn as [-> _].
  destruct (N.ltb_spec 0 ((block_timestamp env - lastAccrued acc) / ACCRUAL_INTERVAL))
    as [Hpos|Hzero].
  - apply bind_Ok in H as (m1 & Hm1 & H). apply mul_Ok in Hm1 as [-> _].
    apply bind_Ok in H as (m2 & Hm2 & H). apply mul_Ok in Hm2 as [-> _].
    apply bind_Ok in H as (i & Hi & H). apply div_Ok in Hi as [-> _].
    apply bind_Ok in H as (d & Hdd & H). apply add_Ok in Hdd as [-> Hfit].
    apply bind_Ok in H as (g & _ & H).
    apply bind_Ok in H as (step & Hstep & H). apply mul_Ok in Hstep as [-> _].
    apply bind_Ok in H as (la & Hlaa & H). apply add_Ok in Hlaa as [-> _].
    injection H as <-. rewrite agentOf_set_agent_eq. cbn [debt lastAccrued with_lastAccrued with_debt].
    split; [exact Hfit|]. right. right.
    pose proof (N.Div0.div_mod (block_timestamp env - lastAccrued acc)
                  ACCRUAL_INTERVAL) as Hdm.
    pose proof (N.mod_lt (block_timestamp env - lastAccrued acc)
                  ACCRUAL_INTERVAL ltac:(discriminate)) as Hlt.
    set (q := (block_timestamp env - lastAccrued acc) / ACCRUAL_INTERVAL) in *.
    set (r := (block_timestamp env - lastAccrued acc) mod ACCRUAL_INTERVAL) in *.
    split; [lia|].
    apply N.div_small. lia.
  - injection H as <-. fold acc. split; [exact Hmax|]. right. right.
    split; [exact Hle | apply N.le_0_r, Hzero].
Qed.

Lemma repay_settled (env : Env) (a : address) (amount : N) (s s' : CredexPool) :
  repay env a amount s = Ok s' ->
  debt (agentOf s a) <= MAX_UINT256 ->
  settled (block_timestamp env) (agentOf s' a) /\
  msg_sender env = credexAgent s /\
  credexAgent s' = credexAgent s /\
  active (agentOf s' a) = true.
Proof.
  unfold repay. intros H Hmax.
  apply bind_Ok in H as (? & Hsender & H).
  apply require_Ok, N.eqb_eq in Hsender.
  apply bind_Ok in H as (? & Hact & H). apply require_Ok in Hact.
  apply bind_Ok in H as (s1 & Hacc & H).
  pose proof (accrue_settled _ _ _ _ Hacc Hmax) as [Hfit Hset].
  rewrite <- (accrue_active _ _ _ _ Hacc) in Hact.
  assert (Hagent : credexAgent s1 = credexAgent s).
  { destruct (accrue_cases _ _ _ _ Hacc) as [->|(i & la & _ & ->)]; reflexivity. }
  set (acc := agentOf s1 a) in *.
  set (paid := if debt acc <? amount then debt acc else amount) in *.
  apply bind_Ok in H as (? & _ & H).
  apply bind_Ok in H as (io & _ & H).
  apply bind_Ok in H as (acc1 & Hacc1 & H).
  assert (Hshape : active acc1 = true /\ lastAccrued acc1 = lastAccrued acc /\
                   debt acc1 = debt acc - paid).
  { destruct (paid <=? io); inv_ok; repeat split; assumption. }
  destruct Hshape as (Hact1 & Hla1 & Hd1). clear Hacc1.
  inv_ok. rewrite agentOf_after_repay.
  cbn [active with_lastRepayment]. unfold settled.
  cbn [debt lastAccrued with_lastRepayment]. rewrite Hla1, Hd1.
  split; [split; [lia|] | repeat split; assumption].
  destruct Hset as [Hz|[Hz|Hz]];
    [left; exact Hz | right; left; lia | right; right; exact Hz].
Qed.

Lemma await_run {A B : Type} (m : Task A) (k : A -> Task B)
      (w w1 : World) (a : A) :
  m w = (Return a, w1) -> await m k w = k a w1.
Proof. intros H. unfold await. rewrite H. reflexivity. Qed.

Lemma calculateGrowthLimit_nonneg (l : Z) :
  (0 <= l)%Z -> (0 <= calculateGrowthLimit l)%Z.
Proof.
  intros Hl. unfold calculateGrowthLimit, GROWTH_FACTOR_BP.
  rewrite Z.quot_div_nonneg by lia.
  destruct (Z.ltb_spec MAX_LIMIT (l * 110 / 100)).
  - unfold MAX_LIMIT. lia.
  - apply Z.div_pos; lia.
Qed.

Lemma grown_limit_is_uint256 (l : N) :
  is_uint256 (calculateGrowthLimit (Z.of_N l)) = true.
Proof.
  unfold is_uint256. apply andb_true_iff. split; apply Z.leb_le.
  - apply calculateGrowthLimit_nonneg. lia.
  - pose proof (calculateGrowthLimit_le_MAX (Z.of_N l)) as H.
    assert (MAX_LIMIT <= Z.of_N MAX_UINT256)%Z by (vm_compute; discriminate).
    lia.
Qed.

(** Once the ledger has taken the repayment, [handleRepay] runs to its
    successful end: the limit update and the final read cannot fail. *)
Lemma handleRepay_after_repay (X : Externals) (a : address) (amount : string)
      (amountWei : Z) (w w1 w2 : World) (agent : AgentAccount) (u : unit) :
  parseUnits X amount = Some amountWei ->
  ensureActiveAgent X a w = (Return agent, w1) ->
  client_repay X a amountWei w1 = (Return u, w2) ->
  exists resp w',
    handleRepay X a amount w = (Return resp, w') /\
    success resp = true /\
    creditLimit (agentOf (ledger w') a)
      = Z.to_N (Z.max (Z.of_N (creditLimit agent))
                  (calculateGrowthLimit (Z.of_N (creditLimit agent)))).
Proof.
  intros Hparse Hens Hrepay.
  pose proof (ensureActiveAgent_reads X a w w1 agent Hens) as Hread.
  pose proof (getAgentState_debt_fits _ _ _ _ Hread) as Hfits.
  apply getAgentState_shape in Hread as (d & Hagent).
  assert (Hcl : creditLimit agent = creditLimit (agentOf (ledger w1) a))
    by (rewrite Hagent; reflexivity).
  pose proof Hrepay as Hsent. unfold client_repay in Hsent.
  destruct (is_uint256 amountWei); [|discriminate Hsent].
  apply send_Return in Hsent as (Hsent & Hclock & _).
  pose proof (repay_creditLimit _ _ _ _ _ Hsent) as Hsame.
  apply repay_settled in Hsent as (Hset & Hsender & Hpool & Hact);
    [|exact Hfits].
  cbn [block_timestamp msg_sender] in Hset, Hsender.
  unfold handleRepay, try_catch. rewrite Hparse.
  rewrite (await_run _ _ _ _ _ Hens), (await_run _ _ _ _ _ Hrepay).
  set (cl := Z.of_N (creditLimit agent)).
  destruct (Z.ltb_spec cl (calculateGrowthLimit cl)) as [Hlt|Hge].
  - set (nl := calculateGrowthLimit cl) in *.
    set (s3 := set_agent a (with_creditLimit (Z.to_N nl) (agentOf (ledger w2) a))
                 (ledger w2)).
    assert (Hset3 : client_setCreditLimit X a nl w2
                    = (Return tt, mkWorld s3 (clock w2) (memory w2))).
    { unfold client_setCreditLimit, nl, cl.
      rewrite grown_limit_is_uint256. unfold send, setCreditLimit, onlyAgent.
      cbn [msg_sender]. rewrite Hpool, <- Hsender, N.eqb_refl. cbn [require bind].
      rewrite Hact. reflexivity. }
    rewrite (await_run _ _ _ _ _ Hset3).
    assert (Hget : getAgent X a (mkWorld s3 (clock w2) (memory w2))
                   = (Return (agentOf s3 a), mkWorld s3 (clock w2) (memory w2))).
    { unfold getAgent. cbn [ledger clock].
      rewrite getAgentState_settled; [reflexivity|].
      unfold s3. rewrite agentOf_set_agent_eq. cbn [block_timestamp].
      rewrite Hclock. exact Hset. }
    rewrite (await_run _ _ _ _ _ Hget).
    eexists _, _. split; [reflexivity|]. split; [reflexivity|].
    cbn [ledger]. unfold s3. rewrite agentOf_set_agent_eq. cbn [creditLimit with_creditLimit].
    rewrite Z.max_r by lia. reflexivity.
  - assert (Hskip : ret tt w2 = (Return tt, w2)) by reflexivity.
    rewrite (await_run _ _ _ _ _ Hskip).
    assert (Hget : getAgent X a w2 = (Return (agentOf (ledger w2) a), w2)).
    { unfold getAgent.
      rewrite getAgentState_settled; [reflexivity|].
      cbn [block_timestamp]. rewrite Hclock. exact Hset. }
    rewrite (await_run _ _ _ _ _ Hget).
    eexists _, _. split; [reflexivity|]. split; [reflexivity|].
    rewrite Z.max_l by exact Hge. unfold cl. rewrite N2Z.id.
    rewrite Hsame. symmetry. exact Hcl.
Qed.

(** ** Facts about the sample pool *)

Lemma sample_pool_covered : Covered sample_pool.
Proof.
  intros a. unfold agentOf, sample_pool; simpl.
  destruct (decide (4 = a)) as [<-|Hne].
  - rewrite lookup_insert_eq. simpl. lia.
  - rewrite lookup_insert_ne by exact Hne. rewrite lookup_empty. simpl. lia.
Qed.

Lemma sample_pool_books : Books sample_pool.
Proof.
  split.
  - reflexivity.
  - reflexivity.
  - intros a acc. unfold sample_pool; simpl.
    destruct (decide (4 = a)) as [<-|Hne].
    + rewrite lookup_insert_eq. intros [= <-]. reflexivity.
    + rewrite lookup_insert_ne by exact Hne. rewrite lookup_empty. discriminate.
Qed.


(** ** Which calls touch what *)

Lemma onlyAgent_rejects (env : Env) (s : CredexPool) :
  msg_sender env <> credexAgent s ->
  onlyAgent env s = Err (Revert "Not Credex agent").
Proof.
  intros H. unfold onlyAgent, require. apply N.eqb_neq in H. rewrite H.
  reflexivity.
Qed.

Lemma call_owner (env : Env) (c : Call) (s s' : CredexPool) :
  call env c s = Ok s' -> owner s' = owner s.
Proof.
  destruct c; simpl; intros H.
  - unfold deposit in H. apply bind_Ok in H as (? & _ & H).
    apply bind_Ok in H as (? & _ & H). apply bind_Ok in H as (? & _ & H).
    inv_ok. reflexivity.
  - unfold withdraw in H. inv_ok. reflexivity.
  - unfold onboardAgent in H. inv_ok. reflexivity.
  - unfold setCreditLimit in H. inv_ok. reflexivity.
  - unfold borrow in H.
    apply bind_Ok in H as (? & _ & H). apply bind_Ok in H as (? & _ & H).
    apply bind_Ok in H as (? & _ & H). apply bind_Ok in H as (s1 & Hacc & H).
    inv_ok. simpl.
    destruct (accrue_cases _ _ _ _ Hacc) as [->|(i & la & _ & ->)]; reflexivity.
  - unfold repay in H.
    apply bind_Ok in H as (? & _ & H). apply bind_Ok in H as (? & _ & H).
    apply bind_Ok in H as (s1 & Hacc & H).
    apply bind_Ok in H as (? & _ & H). apply bind_Ok in H as (? & _ & H).
    apply bind_Ok in H as (acc1 & _ & H).
    inv_ok. simpl.
    destruct (accrue_cases _ _ _ _ Hacc) as [->|(i & la & _ & ->)]; reflexivity.
  - unfold freeze in H. inv_ok. reflexivity.
  - unfold unfreeze in H. inv_ok. reflexivity.
  - unfold setAgent in H. inv_ok. reflexivity.
Qed.

Lemma call_credexAgent (env : Env) (c : Call) (s s' : CredexPool) :
  call env c s = Ok s' ->
  credexAgent s' = credexAgent s \/
  (msg_sender env = owner s /\ c = SetAgent (credexAgent s')).
Proof.
  destruct c; simpl; intros H;
    [left | left | left | left | left | left | left | left | right].
  - unfold deposit in H. apply bind_Ok in H as (? & _ & H).
    apply bind_Ok in H as (? & _ & H). apply bind_Ok in H as (? & _ & H).
    inv_ok. reflexivity.
  - unfold withdraw in H. inv_ok. reflexivity.
  - unfold onboardAgent in H. inv_ok. reflexivity.
  - unfold setCreditLimit in H. inv_ok. reflexivity.
  - unfold borrow in H.
    apply bind_Ok in H as (? & _ & H). apply bind_Ok in H as (? & _ & H).
    apply bind_Ok in H as (? & _ & H). apply bind_Ok in H as (s1 & Hacc & H).
    inv_ok. simpl.
    destruct (accrue_cases _ _ _ _ Hacc) as [->|(i & la & _ & ->)]; reflexivity.
  - unfold repay in H.
    apply bind_Ok in H as (? & _ & H). apply bind_Ok in H as (? & _ & H).
    apply bind_Ok in H as (s1 & Hacc & H).
    apply bind_Ok in H as (? & _ & H). apply bind_Ok in H as (? & _ & H).
    apply bind_Ok in H as (acc1 & _ & H).
    inv_ok. simpl.
    destruct (accrue_cases _ _ _ _ Hacc) as [->|(i & la & _ & ->)]; reflexivity.
  - unfold freeze in H. inv_ok. reflexivity.
  - unfold unfreeze in H. inv_ok. reflexivity.
  - unfold setAgent in H.
    apply bind_Ok in H as (? & Hown & H). apply require_Ok, N.eqb_eq in Hown.
    injection H as <-. split; [exact Hown | reflexivity].
Qed.

Lemma call_active (env : Env) (c : Call) (s s' : CredexPool) (a : address) :
  call env c s = Ok s' ->
  active (agentOf s a) = true -> active (agentOf s' a) = true.
Proof.
  assert (Hset : forall b acc t,
             active acc = true ->
             active (agentOf t a) = true ->
             active (agentOf (set_agent b acc t) a) = true).
  { intros b acc t Hacc Ht. destruct (decide (b = a)) as [->|Hne].
    - rewrite agentOf_set_agent_eq. exact Hacc.
    - rewrite agentOf_set_agent_ne by exact Hne. exact Ht. }
  assert (Haccrue : forall env b t t1,
             _accrueInterest env b t = Ok t1 ->
             active (agentOf t a) = true -> active (agentOf t1 a) = true).
  { intros env0 b t t1 Hacc Ht.
    destruct (decide (b = a)) as [->|Hne].
    - rewrite (accrue_active _ _ _ _ Hacc). exact Ht.
    - destruct (accrue_cases _ _ _ _ Hacc) as [->|(i & la & _ & ->)];
        [exact Ht|].
      rewrite agentOf_set_agent_ne by exact Hne. exact Ht. }
  destruct c; simpl; intros H Hact.
  - unfold deposit in H. apply bind_Ok in H as (? & _ & H).
    apply bind_Ok in H as (? & _ & H). apply bind_Ok in H as (? & _ & H).
    inv_ok. exact Hact.
  - unfold withdraw in H. inv_ok. exact Hact.
  - unfold onboardAgent in H. inv_ok. apply Hset; [reflexivity | exact Hact].
  - unfold setCreditLimit in H. inv_ok. apply Hset; assumption.
  - unfold borrow in H.
    apply bind_Ok in H as (? & _ & H).
    apply bind_Ok in H as (? & Hagent & H). apply require_Ok in Hagent.
    apply bind_Ok in H as (? & _ & H). apply bind_Ok in H as (s1 & Hacc & H).
    rewrite <- (accrue_active _ _ _ _ Hacc) in Hagent.
    pose proof (Haccrue _ _ _ _ Hacc Hact) as Hact1.
    inv_ok.
    change (active (agentOf (set_agent agent
              (with_debt (debt (agentOf s1 agent) + amount)
                 (with_principal (principal (agentOf s1 agent) + amount)
                    (agentOf s1 agent))) s1) a) = true).
    apply Hset; assumption.
  - unfold repay in H.
    apply bind_Ok in H as (? & _ & H).
    apply bind_Ok in H as (? & Hagent & H). apply require_Ok in Hagent.
    apply bind_Ok in H as (s1 & Hacc & H).
    rewrite <- (accrue_active _ _ _ _ Hacc) in Hagent.
    pose proof (Haccrue _ _ _ _ Hacc Hact) as Hact1.
    apply bind_Ok in H as (? & _ & H). apply bind_Ok in H as (io & _ & H).
    apply bind_Ok in H as (acc1 & Hacc1 & H).
    assert (Hact2 : active acc1 = true).
    { destruct (_ <=? io); inv_ok; assumption. }
    clear Hacc1. inv_ok.
    change (active (agentOf (set_agent agent
              (with_lastRepayment (block_timestamp env) acc1) s1) a) = true).
    apply Hset; assumption.
  - unfold freeze in H. inv_ok. apply Hset; assumption.
  - unfold unfreeze in H. inv_ok. apply Hset; assumption.
  - unfold setAgent in H. inv_ok. exact Hact.
Qed.

(** ** The frozen flag *)

Lemma agentOf_flagged_eq (a : address) (b : bool) (s : CredexPool) :
  agentOf (flagged a b s) a = with_frozen b (agentOf s a).
Proof. apply agentOf_set_agent_eq. Qed.

Lemma set_agent_twice (a : address) (acc acc' : AgentAccount) (s : CredexPool) :
  set_agent a acc (set_agent a acc' s) = set_agent a acc s.
Proof. unfold set_agent; simpl. rewrite insert_insert_eq. reflexivity. Qed.

Lemma flagged_set_agent (a : address) (b : bool) (acc : AgentAccount) (s : CredexPool) :
  flagged a b (set_agent a acc s) = set_agent a (with_frozen b acc) s.
Proof.
  unfold flagged. rewrite agentOf_set_agent_eq. apply set_agent_twice.
Qed.

Lemma flagged_id (a : address) (s : CredexPool) :
  active (agentOf s a) = true -> flagged a (frozen (agentOf s a)) s = s.
Proof.
  intros Hact. apply agentOf_active_stored in Hact.
  unfold flagged, set_agent. destruct s as [ca ow ag lp ts tl g]; simpl in *.
  f_equal. apply insert_id. rewrite Hact. f_equal.
  destruct (agentOf _ a); reflexivity.
Qed.

Lemma accrue_flagged (env : Env) (a : address) (b : bool) (s : CredexPool) :
  _accrueInterest env a (flagged a b s) =
  match _accrueInterest env a s with
  | Ok s1 => Ok (flagged a b s1)
  | Err e => Err e
  end.
Proof.
  unfold _accrueInterest. rewrite agentOf_flagged_eq.
  cbn [lastAccrued debt with_frozen].
  set (acc := agentOf s a).
  destruct ((lastAccrued acc =? 0) || (debt acc =? 0)); [reflexivity|].
  destruct (sub (block_timestamp env) (lastAccrued acc)) as [elapsed|e];
    cbn [bind]; [|reflexivity].
  destruct (div elapsed ACCRUAL_INTERVAL) as [n|e]; cbn [bind]; [|reflexivity].
  destruct (0 <? n); [|reflexivity].
  destruct (mul (debt acc) INTEREST_RATE_BP) as [m1|e]; cbn [bind]; [|reflexivity].
  destruct (mul m1 n) as [m2|e]; cbn [bind]; [|reflexivity].
  destruct (div m2 10000) as [i|e]; cbn [bind]; [|reflexivity].
  destruct (add (debt acc) i) as [d|e]; cbn [bind]; [|reflexivity].
  change (globalTotalDebt (flagged a b s)) with (globalTotalDebt s).
  destruct (add (globalTotalDebt s) i) as [g|e]; cbn [bind]; [|reflexivity].
  destruct (mul n ACCRUAL_INTERVAL) as [st|e]; cbn [bind]; [|reflexivity].
  destruct (add (lastAccrued acc) st) as [la|e]; cbn [bind]; [|reflexivity].
  f_equal.
  change (set_globalTotalDebt g (flagged a b s))
    with (set_agent a (with_frozen b acc) (set_globalTotalDebt g s)).
  rewrite set_agent_twice, flagged_set_agent. reflexivity.
Qed.

Lemma repay_flagged (env : Env) (a : address) (amount : N) (b : bool) (s : CredexPool) :
  repay env a amount (flagged a b s) =
  match repay env a amount s with
  | Ok s' => Ok (flagged a b s')
  | Err e => Err e
  end.
Proof.
  unfold repay.
  change (onlyAgent env (flagged a b s)) with (onlyAgent env s).
  destruct (onlyAgent env s) as [u|e]; cbn [bind]; [|reflexivity].
  rewrite agentOf_flagged_eq. cbn [active with_frozen].
  destruct (require (active (agentOf s a)) "Not active") as [u'|e];
    cbn [bind]; [|reflexivity].
  rewrite accrue_flagged.
  destruct (_accrueInterest env a s) as [s1|e]; cbn [bind]; [|reflexivity].
  rewrite agentOf_flagged_eq. cbn [debt principal with_frozen].
  set (acc := agentOf s1 a).
  set (paid := if debt acc <? amount then debt acc else amount).
  destruct (usdc_call env) as [u''|e]; cbn [bind]; [|reflexivity].
  destruct (sub (debt acc) (principal acc)) as [io|e]; cbn [bind]; [|reflexivity].
  change (totalLiquidity (flagged a b s1)) with (totalLiquidity s1).
  change (globalTotalDebt (flagged a b s1)) with (globalTotalDebt s1).
  destruct (paid <=? io).
  - cbn [debt with_frozen].
    destruct (sub (debt acc) paid) as [d|e]; cbn [bind]; [|reflexivity].
    destruct (sub (globalTotalDebt s1) paid) as [g|e]; cbn [bind]; [|reflexivity].
    destruct (add (totalLiquidity s1) paid) as [tl|e]; cbn [bind]; [|reflexivity].
    f_equal. unfold flagged at 1. rewrite set_agent_twice.
    unfold flagged, set_totalLiquidity, set_globalTotalDebt, set_agent, agentOf;
      simpl.
    rewrite lookup_insert_eq, insert_insert_eq. reflexivity.
  - cbn [debt principal with_frozen].
    destruct (sub paid io) as [pr|e]; cbn [bind]; [|reflexivity].
    destruct (sub (debt acc) paid) as [d|e]; cbn [bind]; [|reflexivity].
    destruct (sub (principal acc) pr) as [p|e]; cbn [bind]; [|reflexivity].
    destruct (sub (globalTotalDebt s1) paid) as [g|e]; cbn [bind]; [|reflexivity].
    destruct (add (totalLiquidity s1) paid) as [tl|e]; cbn [bind]; [|reflexivity].
    f_equal. unfold flagged at 1. rewrite set_agent_twice.
    unfold flagged, set_totalLiquidity, set_globalTotalDebt, set_agent, agentOf;
      simpl.
    rewrite lookup_insert_eq, insert_insert_eq. reflexivity.
Qed.

(** ** The status view and the accrual *)

Lemma accrue_then_view (env : Env) (a : address) (s s1 : CredexPool) :
  debt (agentOf s a) <= MAX_UINT256 ->
  _accrueInterest env a s = Ok s1 ->
  getAgentState env s a = Ok (with_debt (debt (agentOf s1 a)) (agentOf s a)).
Proof.
  intros Hmax H. unfold _accrueInterest in H. unfold getAgentState.
  set (acc := agentOf s a) in *.
  destruct (N.eqb_spec (lastAccrued acc) 0) as [Hla|Hla]; cbn [orb] in H.
  { injection H as <-. fold acc. rewrite Hla.
    change (0 <? 0) with false. cbn [andb bind].
    rewrite add_fits by lia; cbn [bind]. rewrite N.add_0_r. reflexivity. }
  destruct (N.eqb_spec (debt acc) 0) as [Hd|Hd].
  { injection H as <-. fold acc. rewrite Hd.
    change (0 <? 0) with false. rewrite andb_false_r. cbn [bind].
    rewrite add_fits by lia; cbn [bind]. reflexivity. }
  assert (Hpos : (0 <? lastAccrued acc) && (0 <? debt acc) = true).
  { apply andb_true_iff. split; apply N.ltb_lt; lia. }
  rewrite Hpos.
  destruct (sub (block_timestamp env) (lastAccrued acc)) as [elapsed|e];
    cbn [bind] in *; [|discriminate H].
  destruct (div elapsed ACCRUAL_INTERVAL) as [n|e]; cbn [bind] in *;
    [|discriminate H].
  destruct (0 <? n).
  - destruct (mul (debt acc) INTEREST_RATE_BP) as [m1|e]; cbn [bind] in *;
      [|discriminate H].
    destruct (mul m1 n) as [m2|e]; cbn [bind] in *; [|discriminate H].
    destruct (div m2 10000) as [i|e]; cbn [bind] in *; [|discriminate H].
    destruct (add (debt acc) i) as [d|e]; cbn [bind] in *; [|discriminate H].
    apply bind_Ok in H as (g & _ & H).
    apply bind_Ok in H as (st & _ & H).
    apply bind_Ok in H as (la & _ & H).
    injection H as <-. rewrite agentOf_set_agent_eq. reflexivity.
  - injection H as <-. fold acc. cbn [bind].
    rewrite add_fits by lia; cbn [bind]. rewrite N.add_0_r. reflexivity.
Qed.

(** ** How each call moves cash, debt and shares *)

Lemma accrue_value (env : Env) (a : address) (s s1 : CredexPool) :
  _accrueInterest env a s = Ok s1 ->
  totalShares s1 = totalShares s /\
  totalLiquidity s1 = totalLiquidity s /\
  globalTotalDebt s <= globalTotalDebt s1 /\
  debt (agentOf s a) <= debt (agentOf s1 a) /\
  globalTotalDebt s1 - globalTotalDebt s
    = debt (agentOf s1 a) - debt (agentOf s a).
Proof.
  intros H. destruct (accrue_cases _ _ _ _ H) as [->|(i & la & _ & ->)].
  - repeat split; lia.
  - rewrite agentOf_set_agent_eq. simpl. repeat split; lia.
Qed.

Lemma deposit_value (env : Env) (assets : N) (s s' : CredexPool) :
  deposit env assets s = Ok s' ->
  0 < assets /\
  globalTotalDebt s' = globalTotalDebt s /\
  totalLiquidity s' = totalLiquidity s + assets /\
  totalShares s' = totalShares s + sharesMinted s (poolAssets s) assets /\
  (totalShares s <> 0 -> poolAssets s <> 0).
Proof.
  unfold deposit. intros H.
  apply bind_Ok in H as (? & Hpos & H). apply require_Ok, N.ltb_lt in Hpos.
  apply bind_Ok in H as (ta & Hta & H).
  unfold totalAssets in Hta. apply add_Ok in Hta as [-> _].
  fold (poolAssets s) in H.
  apply bind_Ok in H as (shares & Hsh & H).
  assert (Hm : shares = sharesMinted s (poolAssets s) assets /\
               (totalShares s <> 0 -> poolAssets s <> 0)).
  { unfold sharesMinted. destruct (N.eqb_spec (totalShares s) 0).
    - inv_ok. split; [reflexivity | congruence].
    - apply bind_Ok in Hsh as (m & Hmul & Hdiv).
      apply mul_Ok in Hmul as [-> _]. apply div_Ok in Hdiv as [-> Hnz].
      split; [reflexivity | intros _; exact Hnz]. }
  destruct Hm as [-> Hnz]. clear Hsh. inv_ok.
  repeat split; try assumption.
Qed.

Lemma withdraw_value (env : Env) (shares : N) (s s' : CredexPool) :
  withdraw env shares s = Ok s' ->
  0 < shares /\
  shares <= totalShares s /\
  assetsReleased s (poolAssets s) shares <= totalLiquidity s /\
  globalTotalDebt s' = globalTotalDebt s /\
  totalLiquidity s' = totalLiquidity s - assetsReleased s (poolAssets s) shares /\
  totalShares s' = totalShares s - shares.
Proof.
  unfold withdraw. intros H.
  apply bind_Ok in H as (? & Hpos & H). apply require_Ok, N.ltb_lt in Hpos.
  apply bind_Ok in H as (? & _ & H).
  apply bind_Ok in H as (ta & Hta & H).
  unfold totalAssets in Hta. apply add_Ok in Hta as [-> _].
  fold (poolAssets s) in H.
  apply bind_Ok in H as (m & Hm & H). apply mul_Ok in Hm as [-> _].
  apply bind_Ok in H as (assets & Ha & H). apply div_Ok in Ha as [-> _].
  fold (assetsReleased s (poolAssets s) shares) in H.
  apply bind_Ok in H as (? & Hcash & H). apply require_Ok, N.leb_le in Hcash.
  apply bind_Ok in H as (mine & _ & H).
  apply bind_Ok in H as (ts & Hts & H). apply sub_Ok in Hts as [-> Hts].
  apply bind_Ok in H as (tl & Htl & H). apply sub_Ok in Htl as [-> _].
  apply bind_Ok in H as (? & _ & H). injection H as <-.
  repeat split; assumption.
Qed.

Lemma borrow_value (env : Env) (a : address) (amount : N) (s s' : CredexPool) :
  borrow env a amount s = Ok s' ->
  exists s1,
    _accrueInterest env a s = Ok s1 /\
    amount <= totalLiquidity s1 /\
    totalShares s' = totalShares s1 /\
    totalLiquidity s' = totalLiquidity s1 - amount /\
    globalTotalDebt s' = globalTotalDebt s1 + amount.
Proof.
  unfold borrow. intros H.
  apply bind_Ok in H as (? & _ & H). apply bind_Ok in H as (? & _ & H).
  apply bind_Ok in H as (? & _ & H). apply bind_Ok in H as (s1 & Hacc & H).
  exists s1. split; [exact Hacc|].
  apply bind_Ok in H as (? & _ & H). apply bind_Ok in H as (? & _ & H).
  apply bind_Ok in H as (? & Hliq & H). apply require_Ok, N.leb_le in Hliq.
  inv_ok. repeat split; assumption.
Qed.

Lemma repay_value (env : Env) (a : address) (amount : N) (s s' : CredexPool) :
  repay env a amount s = Ok s' ->
  exists s1 paid,
    _accrueInterest env a s = Ok s1 /\
    paid = N.min amount (debt (agentOf s1 a)) /\
    paid <= globalTotalDebt s1 /\
    totalShares s' = totalShares s1 /\
    totalLiquidity s' = totalLiquidity s1 + paid /\
    globalTotalDebt s' = globalTotalDebt s1 - paid.
Proof.
  unfold repay. intros H.
  apply bind_Ok in H as (? & _ & H). apply bind_Ok in H as (? & _ & H).
  apply bind_Ok in H as (s1 & Hacc & H).
  set (acc := agentOf s1 a) in *.
  exists s1, (N.min amount (debt acc)). split; [exact Hacc|].
  split; [reflexivity|].
  assert (Hpaid : (if debt acc <? amount then debt acc else amount)
                  = N.min amount (debt acc)).
  { destruct (N.ltb_spec (debt acc) amount); lia. }
  rewrite Hpaid in H.
  apply bind_Ok in H as (? & _ & H). apply bind_Ok in H as (? & _ & H).
  apply bind_Ok in H as (acc1 & _ & H).
  inv_ok. repeat split; assumption.
Qed.

Lemma share_price_arith (A ts a m : N) :
  m * A <= a * ts -> A * (ts + m) <= (A + a) * ts.
Proof. nia. Qed.

Lemma share_price_arith_out (A ts sh out : N) :
  sh <= ts -> out <= A -> out * ts <= sh * A ->
  A * (ts - sh) <= (A - out) * ts.
Proof. nia. Qed.

Lemma other_calls_frame (env : Env) (c : Call) (s s' : CredexPool) :
  call env c s = Ok s' ->
  match c with
  | Deposit _ | Withdraw _ | Borrow _ _ | Repay _ _ => True
  | _ =>
      totalShares s' = totalShares s /\
      totalLiquidity s' = totalLiquidity s /\
      globalTotalDebt s' = globalTotalDebt s
  end.
Proof.
  destruct c; simpl; intros H; try exact I.
  - unfold onboardAgent in H. inv_ok. repeat split.
  - unfold setCreditLimit in H. inv_ok. repeat split.
  - unfold freeze in H. inv_ok. repeat split.
  - unfold unfreeze in H. inv_ok. repeat split.
  - unfold setAgent in H. inv_ok. repeat split.
Qed.

(** What a call does to the share counter and to the assets. *)
Lemma call_price (env : Env) (c : Call) (s s' : CredexPool) :
  call env c s = Ok s' ->
  totalShares s <> 0 ->
  poolAssets s * totalShares s' <= poolAssets s' * totalShares s.
Proof.
  intros H Hts. unfold poolAssets.
  destruct c; try (apply other_calls_frame in H as (-> & -> & ->); lia);
    simpl in H.
  - apply deposit_value in H as (_ & -> & -> & -> & Hnz).
    unfold sharesMinted. apply N.eqb_neq in Hts. rewrite Hts.
    apply N.eqb_neq in Hts. unfold poolAssets in *.
    pose proof (N.Div0.mul_div_le (assets * totalShares s)
                  (totalLiquidity s + globalTotalDebt s)) as Hfloor.
    set (m := assets * totalShares s / (totalLiquidity s + globalTotalDebt s)) in *.
    set (A := totalLiquidity s + globalTotalDebt s) in *.
    replace (totalLiquidity s + assets + globalTotalDebt s) with (A + assets)
      by (unfold A; lia).
    apply share_price_arith. lia.
  - apply withdraw_value in H as (_ & Hsh & Hcash & -> & -> & ->).
    unfold assetsReleased, poolAssets in *.
    pose proof (N.Div0.mul_div_le (shares * (totalLiquidity s + globalTotalDebt s))
                  (totalShares s)) as Hfloor.
    set (out := shares * (totalLiquidity s + globalTotalDebt s) / totalShares s) in *.
    set (A := totalLiquidity s + globalTotalDebt s) in *.
    replace (totalLiquidity s - out + globalTotalDebt s) with (A - out)
      by (unfold A; lia).
    apply share_price_arith_out; [exact Hsh | unfold A; lia | lia].
  - apply borrow_value in H as (s1 & Hacc & Hliq & -> & -> & ->).
    apply accrue_value in Hacc as (-> & Htl & Hg & _).
    apply N.mul_le_mono_r. lia.
  - apply repay_value in H as (s1 & paid & Hacc & _ & Hpaid & -> & -> & ->).
    apply accrue_value in Hacc as (-> & Htl & Hg & _).
    apply N.mul_le_mono_r. lia.
Qed.

Lemma call_backed (env : Env) (c : Call) (s s' : CredexPool) :
  call env c s = Ok s' -> Backed s -> Backed s'.
Proof.
  intros H HB. unfold Backed, poolAssets in *.
  destruct c; try (apply other_calls_frame in H as (-> & -> & ->); exact HB);
    simpl in H.
  - apply deposit_value in H as (Hpos & -> & -> & _ & _). lia.
  - apply withdraw_value in H as (Hpos & Hsh & Hcash & -> & -> & ->).
    intros Hleft. unfold assetsReleased, poolAssets in *.
    assert (Hts : totalShares s <> 0) by lia.
    specialize (HB Hts).
    set (A := totalLiquidity s + globalTotalDebt s) in *.
    assert (Hlt : shares * A / totalShares s < A).
    { apply N.Div0.div_lt_upper_bound. nia. }
    unfold A in *. lia.
  - apply borrow_value in H as (s1 & Hacc & Hliq & -> & -> & ->).
    apply accrue_value in Hacc as (-> & Htl & Hg & _). lia.
  - apply repay_value in H as (s1 & paid & Hacc & _ & Hpaid & -> & -> & ->).
    apply accrue_value in Hacc as (-> & Htl & Hg & _). lia.
Qed.

Lemma run_backed (txs : list (Env * Call)) (s : CredexPool) :
  Backed s -> Backed (run txs s).
Proof.
  revert s. induction txs as [|tx txs IH]; intros s HB; simpl; [exact HB|].
  apply IH. unfold transact.
  destruct (call (fst tx) (snd tx) s) eqn:Hcall; [|exact HB].
  eapply call_backed; eassumption.
Qed.

(** A failed addition, subtraction, multiplication or token call is not a
    division by zero. *)
Ltac not_a_div E H :=
  unfold add, sub, mul, usdc_call in E;
  match type of E with
  | (if ?c then _ else _) = _ => destruct c
  end;
  first [discriminate E | injection E as <-; discriminate H].

(** ** Borrow and repay, run to their result *)

Lemma borrow_run (env : Env) (a : address) (amount : N) (s s1 : CredexPool) :
  msg_sender env = credexAgent s ->
  active (agentOf s a) = true ->
  frozen (agentOf s a) = false ->
  _accrueInterest env a s = Ok s1 ->
  principal (agentOf s1 a) + amount <= creditLimit (agentOf s1 a) ->
  creditLimit (agentOf s1 a) <= MAX_UINT256 ->
  amount <= totalLiquidity s1 ->
  debt (agentOf s1 a) + amount <= MAX_UINT256 ->
  globalTotalDebt s1 + amount <= MAX_UINT256 ->
  usdc_ok env = true ->
  borrow env a amount s =
    Ok (set_globalTotalDebt (globalTotalDebt s1 + amount)
          (set_totalLiquidity (totalLiquidity s1 - amount)
             (set_agent a
                (with_debt (debt (agentOf s1 a) + amount)
                   (with_principal (principal (agentOf s1 a) + amount)
                      (agentOf s1 a)))
                s1))).
Proof.
  intros Hsender Hact Hfr Hacc Hlimit Hmax Hliq Hd Hg Husdc.
  unfold borrow.
  rewrite (onlyAgent_fits _ _ Hsender); cbn [bind].
  rewrite (require_fits _ _ Hact); cbn [bind].
  rewrite require_fits by (rewrite Hfr; reflexivity); cbn [bind].
  rewrite Hacc; cbn [bind].
  rewrite add_fits by lia; cbn [bind].
  rewrite require_fits by (apply N.leb_le; exact Hlimit); cbn [bind].
  rewrite require_fits by (apply N.leb_le; exact Hliq); cbn [bind].
  rewrite add_fits by exact Hd; cbn [bind].
  rewrite sub_fits by exact Hliq; cbn [bind].
  rewrite add_fits by exact Hg; cbn [bind].
  rewrite (usdc_call_fits _ Husdc); cbn [bind].
  reflexivity.
Qed.

Lemma repay_run (env : Env) (a : address) (amount : N) (s s1 : CredexPool) :
  msg_sender env = credexAgent s ->
  active (agentOf s a) = true ->
  _accrueInterest env a s = Ok s1 ->
  usdc_ok env = true ->
  principal (agentOf s1 a) <= debt (agentOf s1 a) ->
  debt (agentOf s1 a) <= globalTotalDebt s1 ->
  totalLiquidity s1 + N.min amount (debt (agentOf s1 a)) <= MAX_UINT256 ->
  let acc := agentOf s1 a in
  let paid := N.min amount (debt acc) in
  repay env a amount s =
    Ok (set_totalLiquidity (totalLiquidity s1 + paid)
          (set_globalTotalDebt (globalTotalDebt s1 - paid)
             (set_agent a
                (with_lastRepayment (block_timestamp env)
                   (with_principal
                      (principal acc - (paid - (debt acc - principal acc)))
                      (with_debt (debt acc - paid) acc)))
                s1))).
Proof.
  intros Hsender Hact Hacc Husdc Hcov Hle Hfit acc paid.
  fold acc in Hcov, Hle. fold acc paid in Hfit.
  assert (Hpaid : (if debt acc <? amount then debt acc else amount) = paid).
  { unfold paid. destruct (N.ltb_spec (debt acc) amount); lia. }
  assert (Hpd : paid <= debt acc) by (unfold paid; lia).
  unfold repay.
  rewrite (onlyAgent_fits _ _ Hsender); cbn [bind].
  rewrite (require_fits _ _ Hact); cbn [bind].
  rewrite Hacc; cbn [bind]. fold acc. rewrite Hpaid.
  rewrite (usdc_call_fits _ Husdc); cbn [bind].
  rewrite sub_fits by exact Hcov; cbn [bind].
  destruct (N.leb_spec paid (debt acc - principal acc)) as [Hint|Hint].
  - rewrite sub_fits by exact Hpd; cbn [bind].
    rewrite sub_fits by lia; cbn [bind].
    rewrite add_fits by exact Hfit; cbn [bind].
    replace (paid - (debt acc - principal acc)) with 0 by lia.
    rewrite N.sub_0_r. reflexivity.
  - rewrite sub_fits by lia; cbn [bind].
    rewrite sub_fits by exact Hpd; cbn [bind].
    rewrite sub_fits by lia; cbn [bind].
    rewrite sub_fits by lia; cbn [bind].
    rewrite add_fits by exact Hfit; cbn [bind].
    reflexivity.
Qed.

(** An account without pending interest: the accrual does nothing. *)
Lemma accrue_nothing_pending (env : Env) (a : address) (s : CredexPool) :
  (lastAccrued (agentOf s a) = 0 \/ debt (agentOf s a) = 0 \/
   (lastAccrued (agentOf s a) <= block_timestamp env /\
    (block_timestamp env - lastAccrued (agentOf s a)) / ACCRUAL_INTERVAL = 0)) ->
  _accrueInterest env a s = Ok s.
Proof.
  intros Hset. unfold _accrueInterest. set (acc := agentOf s a) in *.
  destruct Hset as [Hla|[Hd|[Hle Hn]]].
  - rewrite Hla. reflexivity.
  - rewrite Hd, orb_true_r. reflexivity.
  - destruct ((lastAccrued acc =? 0) || (debt acc =? 0)); [reflexivity|].
    rewrite sub_fits by exact Hle; cbn [bind].
    rewrite div_fits by discriminate; cbn [bind].
    rewrite Hn. reflexivity.
Qed.

Lemma accrue_leaves_nothing_pending (env : Env) (a : address) (s s1 : CredexPool) :
  _accrueInterest env a s = Ok s1 ->
  lastAccrued (agentOf s1 a) = 0 \/ debt (agentOf s1 a) = 0 \/
  (lastAccrued (agentOf s1 a) <= block_timestamp env /\
   (block_timestamp env - lastAccrued (agentOf s1 a)) / ACCRUAL_INTERVAL = 0).
Proof.
  unfold _accrueInterest. intros H.
  set (acc := agentOf s a) in *.
  destruct (N.eqb_spec (lastAccrued acc) 0) as [Hla|Hla]; cbn [orb] in H.
  { injection H as <-. fold acc. auto. }
  destruct (N.eqb_spec (debt acc) 0) as [Hd|Hd].
  { injection H as <-. fold acc. auto. }
  apply bind_Ok in H as (elapsed & He & H). apply sub_Ok in He as [-> Hle].
  apply bind_Ok in H as (n & Hn & H). apply div_Ok in Hn as [-> _].
  destruct (N.ltb_spec 0 ((block_timestamp env - lastAccrued acc) / ACCRUAL_INTERVAL))
    as [Hpos|Hzero].
  - apply bind_Ok in H as (m1 & _ & H).
    apply bind_Ok in H as (m2 & _ & H).
    apply bind_Ok in H as (i & _ & H).
    apply bind_Ok in H as (d & _ & H).
    apply bind_Ok in H as (g & _ & H).
    apply bind_Ok in H as (step & Hstep & H). apply mul_Ok in Hstep as [-> _].
    apply bind_Ok in H as (la & Hlaa & H). apply add_Ok in Hlaa as [-> _].
    injection H as <-. rewrite agentOf_set_agent_eq.
    cbn [debt lastAccrued with_lastAccrued with_debt].
    right. right.
    pose proof (N.Div0.div_mod (block_timestamp env - lastAccrued acc)
                  ACCRUAL_INTERVAL) as Hdm.
    pose proof (N.mod_lt (block_timestamp env - lastAccrued acc)
                  ACCRUAL_INTERVAL ltac:(discriminate)) as Hlt.
    set (q := (block_timestamp env - lastAccrued acc) / ACCRUAL_INTERVAL) in *.
    set (r := (block_timestamp env - lastAccrued acc) mod ACCRUAL_INTERVAL) in *.
    split; [lia|].
    apply N.div_small. lia.
  - injection H as <-. fold acc. right. right.
    split; [exact Hle | apply N.le_0_r, Hzero].
Qed.

Lemma agentOf_after_borrow (s : CredexPool) (a : address) (acc : AgentAccount) (tl g : N) :
  agentOf (set_globalTotalDebt g (set_totalLiquidity tl (set_agent a acc s))) a = acc.
Proof. unfold agentOf; simpl. rewrite lookup_insert_eq. reflexivity. Qed.

Lemma borrow_account (env : Env) (a : address) (amount : N) (s s' : CredexPool) :
  borrow env a amount s = Ok s' ->
  exists s1,
    _accrueInterest env a s = Ok s1 /\
    agentOf s' a =
      with_debt (debt (agentOf s1 a) + amount)
        (with_principal (principal (agentOf s1 a) + amount) (agentOf s1 a)) /\
    totalLiquidity s' = totalLiquidity s1 - amount /\
    amount <= totalLiquidity s1.
Proof.
  unfold borrow. intros H.
  apply bind_Ok in H as (? & _ & H). apply bind_Ok in H as (? & _ & H).
  apply bind_Ok in H as (? & _ & H). apply bind_Ok in H as (s1 & Hacc & H).
  exists s1. split; [exact Hacc|].
  apply bind_Ok in H as (? & _ & H). apply bind_Ok in H as (? & _ & H).
  apply bind_Ok in H as (? & Hliq & H). apply require_Ok, N.leb_le in Hliq.
  inv_ok. split; [|split; [reflexivity | exact Hliq]].
  apply agentOf_after_borrow.
Qed.

Lemma repay_account (env : Env) (a : address) (amount : N) (s s' : CredexPool) :
  repay env a amount s = Ok s' ->
  exists s1,
    _accrueInterest env a s = Ok s1 /\
    let acc := agentOf s1 a in
    let paid := N.min amount (debt acc) in
    principal acc <= debt acc /\
    agentOf s' a =
      with_lastRepayment (block_timestamp env)
        (with_principal (principal acc - (paid - (debt acc - principal acc)))
           (with_debt (debt acc - paid) acc)) /\
    totalLiquidity s' = totalLiquidity s1 + paid.
Proof.
  unfold repay. intros H.
  apply bind_Ok in H as (? & _ & H). apply bind_Ok in H as (? & _ & H).
  apply bind_Ok in H as (s1 & Hacc & H).
  exists s1. split; [exact Hacc|].
  set (acc := agentOf s1 a) in *. cbn zeta.
  assert (Hpaid : (if debt acc <? amount then debt acc else amount)
                  = N.min amount (debt acc)).
  { destruct (N.ltb_spec (debt acc) amount); lia. }
  rewrite Hpaid in H. set (paid := N.min amount (debt acc)) in *.
  apply bind_Ok in H as (? & _ & H).
  apply bind_Ok in H as (io & Hio & H). apply sub_Ok in Hio as [-> Hcov].
  apply bind_Ok in H as (acc1 & Hacc1 & H).
  assert (Hshape : acc1 = with_principal
                            (principal acc - (paid - (debt acc - principal acc)))
                            (with_debt (debt acc - paid) acc)).
  { destruct (N.leb_spec paid (debt acc - principal acc)) as [Hint|Hint].
    - apply bind_Ok in Hacc1 as (d & Hd & Hacc1). apply sub_Ok in Hd as [-> _].
      injection Hacc1 as <-.
      replace (paid - (debt acc - principal acc)) with 0 by lia.
      rewrite N.sub_0_r. reflexivity.
    - apply bind_Ok in Hacc1 as (pr & Hpr & Hacc1). apply sub_Ok in Hpr as [-> _].
      apply bind_Ok in Hacc1 as (d & Hd & Hacc1). apply sub_Ok in Hd as [-> _].
      apply bind_Ok in Hacc1 as (p & Hp & Hacc1). apply sub_Ok in Hp as [-> _].
      injection Hacc1 as <-. reflexivity. }
  subst acc1. clear Hacc1.
  apply bind_Ok in H as (g & _ & H).
  apply bind_Ok in H as (tl & Htl & H). apply add_Ok in Htl as [-> _].
  injection H as <-.
  split; [exact Hcov|]. split; [|reflexivity].
  rewrite agentOf_after_repay. reflexivity.
Qed.

Lemma accrue_watermark (env : Env) (a : address) (s s1 : CredexPool) :
  _accrueInterest env a s = Ok s1 ->
  lastAccrued (agentOf s a) <= lastAccrued (agentOf s1 a) /\
  (lastAccrued (agentOf s1 a) = lastAccrued (agentOf s a) \/
   lastAccrued (agentOf s1 a) <= block_timestamp env) /\
  principal (agentOf s1 a) = principal (agentOf s a).
Proof.
  unfold _accrueInterest. intros H.
  set (acc := agentOf s a) in *.
  destruct ((lastAccrued acc =? 0) || (debt acc =? 0)).
  { injection H as <-. fold acc. repeat split; auto; lia. }
  apply bind_Ok in H as (elapsed & He & H). apply sub_Ok in He as [-> Hle].
  apply bind_Ok in H as (n & Hn & H). apply div_Ok in Hn as [-> _].
  destruct (0 <? (block_timestamp env - lastAccrued acc) / ACCRUAL_INTERVAL).
  - apply bind_Ok in H as (m1 & _ & H).
    apply bind_Ok in H as (m2 & _ & H).
    apply bind_Ok in H as (i & _ & H).
    apply bind_Ok in H as (d & _ & H).
    apply bind_Ok in H as (g & _ & H).
    apply bind_Ok in H as (step & Hstep & H). apply mul_Ok in Hstep as [-> _].
    apply bind_Ok in H as (la & Hlaa & H). apply add_Ok in Hlaa as [-> _].
    injection H as <-. rewrite agentOf_set_agent_eq.
    cbn [principal lastAccrued with_lastAccrued with_debt].
    pose proof (N.Div0.mul_div_le (block_timestamp env - lastAccrued acc)
                  ACCRUAL_INTERVAL) as Hfloor.
    set (q := (block_timestamp env - lastAccrued acc) / ACCRUAL_INTERVAL) in *.
    repeat split; [lia | right; lia].
  - injection H as <-. fold acc. repeat split; auto; lia.
Qed.

(** ** The clearing agent's handlers, case by case *)

Section AgentCases.

Variable X : Externals.

(** [handleOnboard] always answers; it either fails and changes nothing, or
    onboards the address at the computed limit and records it. *)
Lemma handleOnboard_cases (a : address) (agentId : string) (w : World) :
  exists resp w',
    handleOnboard X a agentId w = (Return resp, w') /\
    ((success resp = false /\ w' = w) \/
     (exists limit,
         active (agentOf (ledger w) a) = false /\
         signer X = credexAgent (ledger w) /\
         calculateInitialLimit (obtainedFactor X agentId w) = Some limit /\
         is_uint256 limit = true /\
         resp = mkResponse true (Some "Agent onboarded successfully")
                  (Some (mkData (Some a) (Some agentId) None (Some limit) None
                           (Some (obtainedFactor X agentId w)))) /\
         w' = mkWorld
                (set_agent a
                   (mkAgentAccount 0 0 (Z.to_N limit) (clock w) (clock w) false true)
                   (ledger w))
                (clock w)
                (<[a := mkAgentRecord a agentId 0 limit false true]> (memory w)))).
Proof.
  unfold handleOnboard, try_catch, await at 1, getAgent.
  destruct (getAgentState (mkEnv (signer X) (clock w) true) (ledger w) a)
    as [existing|e] eqn:Hview.
  2:{ eexists _, _. split; [reflexivity|]. left. split; reflexivity. }
  apply getAgentState_shape in Hview as (d & ->).
  change (active (with_debt d (agentOf (ledger w) a)))
    with (active (agentOf (ledger w) a)).
  destruct (active (agentOf (ledger w) a)) eqn:Hact.
  { eexists _, _. split; [reflexivity|]. left. split; reflexivity. }
  rewrite (await_run _ _ _ _ _ (obtainedFactor_run X agentId w)).
  destruct (calculateInitialLimit (obtainedFactor X agentId w)) as [limit|] eqn:Hlimit.
  2:{ eexists _, _. split; [reflexivity|]. left. split; reflexivity. }
  unfold await at 1, client_onboardAgent.
  destruct (is_uint256 limit) eqn:Hfits.
  2:{ eexists _, _. split; [reflexivity|]. left. split; reflexivity. }
  unfold send, onboardAgent, onlyAgent. cbn [msg_sender block_timestamp].
  destruct (N.eqb_spec (signer X) (credexAgent (ledger w))) as [Hsigner|Hsigner].
  2:{ eexists _, _. split; [reflexivity|]. left. split; reflexivity. }
  cbn [require bind]. rewrite Hact. cbn [negb require bind].
  eexists _, _. split; [reflexivity|]. right. exists limit.
  repeat split; assumption.
Qed.

(** The ledger's report on an account that was just onboarded. *)
Lemma view_of_fresh_account (env : Env) (a : address) (limit t : N) (s : CredexPool) :
  getAgentState env (set_agent a (mkAgentAccount 0 0 limit t t false true) s) a
  = Ok (mkAgentAccount 0 0 limit t t false true).
Proof.
  unfold getAgentState. rewrite agentOf_set_agent_eq.
  cbn [lastAccrued debt]. change (0 <? 0) with false. rewrite andb_false_r.
  reflexivity.
Qed.

(** [ensureActiveAgent] reads an active account and leaves the world alone;
    it onboards an inactive one under the id "0", waits and reads again. *)
Lemma ensureActiveAgent_cases (a : address) (w w' : World) (agent : AgentAccount) :
  ensureActiveAgent X a w = (Return agent, w') ->
  (active (agentOf (ledger w) a) = true /\
   w' = w /\
   getAgentState (mkEnv (signer X) (clock w) true) (ledger w) a = Ok agent) \/
  (exists limit,
      active (agentOf (ledger w) a) = false /\
      signer X = credexAgent (ledger w) /\
      calculateInitialLimit (obtainedFactor X "0" w) = Some limit /\
      is_uint256 limit = true /\
      agent = mkAgentAccount 0 0 (Z.to_N limit) (clock w) (clock w) false true /\
      w' = mkWorld
             (set_agent a agent (ledger w))
             (clock w + 2)
             (<[a := mkAgentRecord a "0" 0 limit false true]> (memory w))).
Proof.
  unfold ensureActiveAgent. intros H.
  apply await_Return in H as (first & w0 & Hfirst & H).
  apply getAgent_Return in Hfirst as [-> Hfirst].
  pose proof Hfirst as Hshape.
  apply getAgentState_shape in Hshape as (d & Hshape).
  assert (Hact : active first = active (agentOf (ledger w) a))
    by (rewrite Hshape; reflexivity).
  destruct (active first) eqn:Hfirst_active; cbn [negb] in H.
  - unfold ret in H. injection H as <- <-. left. auto.
  - right.
    destruct (handleOnboard_cases a "0" w)
      as (resp & w1 & Hrun & [[Hfail ->]|(limit & _ & Hsigner & Hlimit & Hfits & -> & ->)]);
      rewrite (await_run _ _ _ _ _ Hrun) in H.
    + rewrite Hfail in H. discriminate H.
    + cbn [success negb] in H. unfold await, sleep, getAgent in H.
      cbn [ledger clock memory] in H.
      rewrite view_of_fresh_account in H. injection H as <- <-.
      exists limit. repeat split; auto.
Qed.

(** Onboarding goes through when the signer is the ledger's agent, the
    account reads as inactive and the limit is a uint256. *)
Lemma handleOnboard_run (a : address) (agentId : string) (w : World) (limit : Z) :
  agents (ledger w) !! a = None ->
  signer X = credexAgent (ledger w) ->
  calculateInitialLimit (obtainedFactor X agentId w) = Some limit ->
  is_uint256 limit = true ->
  handleOnboard X a agentId w
  = (Return (mkResponse true (Some "Agent onboarded successfully")
               (Some (mkData (Some a) (Some agentId) None (Some limit) None
                        (Some (obtainedFactor X agentId w))))),
     mkWorld
       (set_agent a
          (mkAgentAccount 0 0 (Z.to_N limit) (clock w) (clock w) false true)
          (ledger w))
       (clock w)
       (<[a := mkAgentRecord a agentId 0 limit false true]> (memory w))).
Proof.
  intros Hblank Hsigner Hlimit Hfits.
  assert (Hread : getAgent X a w = (Return zeroAccount, w)).
  { unfold getAgent, getAgentState, agentOf. rewrite Hblank. reflexivity. }
  assert (Hsend : client_onboardAgent X a limit w
                  = (Return tt,
                     mkWorld
                       (set_agent a
                          (mkAgentAccount 0 0 (Z.to_N limit) (clock w) (clock w)
                             false true)
                          (ledger w))
                       (clock w) (memory w))).
  { unfold client_onboardAgent. rewrite Hfits.
    unfold send, onboardAgent, onlyAgent, agentOf.
    cbn [msg_sender block_timestamp].
    rewrite Hblank, Hsigner, N.eqb_refl. reflexivity. }
  unfold handleOnboard, try_catch.
  rewrite (await_run _ _ _ _ _ Hread). cbn [active zeroAccount].
  rewrite (await_run _ _ _ _ _ (obtainedFactor_run X agentId w)).
  rewrite Hlimit, (await_run _ _ _ _ _ Hsend). reflexivity.
Qed.

(** The reputation reader on the id "0" of an automatic onboarding. *)
Lemma obtainedFactor_of_zero (agentId : string) (w : World) :
  BigInt X agentId = Some 0%Z ->
  obtainedFactor X agentId w = PrimFloat.one.
Proof.
  intros H. unfold obtainedFactor, getRepFactorByAgentId. rewrite H. reflexivity.
Qed.

End AgentCases.

(** The ledger never reports less debt than it stores. *)
Lemma getAgentState_debt_ge (env : Env) (s : CredexPool) (a : address)
      (acc : AgentAccount) :
  getAgentState env s a = Ok acc ->
  acc = with_debt (debt acc) (agentOf s a) /\ debt (agentOf s a) <= debt acc.
Proof.
  unfold getAgentState. intros H.
  apply bind_Ok in H as (p & _ & H).
  apply bind_Ok in H as (d & Hd & H). apply add_Ok in Hd as [-> _].
  injection H as <-. cbn [debt with_debt]. split; [reflexivity | lia].
Qed.

(** ** Comparisons of doubles *)

Lemma SFcompare_antisym (a b : spec_float) :
  SFcompare b a = option_map CompOpp (SFcompare a b).
Proof.
  destruct a as [sa|sa| |sa ma ea], b as [sb|sb| |sb mb eb]; simpl;
    try reflexivity; try (destruct sa; reflexivity); try (destruct sb; reflexivity);
    try (destruct sa, sb; reflexivity).
  destruct sa, sb; simpl; try reflexivity;
    rewrite (Z.compare_antisym ea eb);
    destruct (ea ?= eb)%Z eqn:E; simpl; try reflexivity;
    rewrite (Pos.compare_cont_antisym ma mb Eq); simpl;
    try rewrite CompOpp_involutive; reflexivity.
Qed.

Lemma SFcompare_not_nan (a b : spec_float) :
  a <> S754_nan -> b <> S754_nan -> exists c, SFcompare a b = Some c.
Proof.
  intros Ha Hb.
  destruct a as [sa|sa| |sa ma ea], b as [sb|sb| |sb mb eb]; simpl;
    try congruence; eauto.
Qed.

Lemma not_nan_spec (x : float) : is_nan x = false -> Prim2SF x <> S754_nan.
Proof.
  unfold is_nan. rewrite FloatAxioms.eqb_spec. intros H Hnan. rewrite Hnan in H.
  discriminate H.
Qed.

Lemma ltb_leb (a b : float) : PrimFloat.ltb a b = true -> PrimFloat.leb a b = true.
Proof.
  rewrite FloatAxioms.ltb_spec, FloatAxioms.leb_spec. unfold SFltb, SFleb.
  destruct (SFcompare (Prim2SF a) (Prim2SF b)) as [[]|]; congruence.
Qed.

Lemma not_ltb_leb (a b : float) :
  is_nan a = false -> is_nan b = false ->
  PrimFloat.ltb b a = false -> PrimFloat.leb a b = true.
Proof.
  intros Ha Hb. rewrite FloatAxioms.ltb_spec, FloatAxioms.leb_spec. unfold SFltb, SFleb.
  rewrite (SFcompare_antisym (Prim2SF a) (Prim2SF b)).
  destruct (SFcompare_not_nan _ _ (not_nan_spec a Ha) (not_nan_spec b Hb))
    as (c & ->).
  destruct c; simpl; congruence.
Qed.

Lemma leb_not_ltb (a b : float) :
  is_nan a = false -> is_nan b = false ->
  PrimFloat.leb a b = negb (PrimFloat.ltb b a).
Proof.
  intros Ha Hb. rewrite FloatAxioms.ltb_spec, FloatAxioms.leb_spec. unfold SFltb, SFleb.
  rewrite (SFcompare_antisym (Prim2SF a) (Prim2SF b)).
  destruct (SFcompare_not_nan _ _ (not_nan_spec a Ha) (not_nan_spec b Hb))
    as (c & ->).
  destruct c; reflexivity.
Qed.

(** [Math.max(0.1, Math.min(3.0, x))]: NaN for NaN, and otherwise [x]
    itself or one of the two bounds, and within the bounds. *)
Lemma clamp_cases (x : float) :
  let r := Math_max 0x1.999999999999ap-4%float (Math_min 3%float x) in
  (is_nan x = true /\ is_nan r = true) \/
  (is_nan x = false /\
   (r = x \/ r = 0x1.999999999999ap-4%float \/ r = 3%float) /\
   PrimFloat.leb 0x1.999999999999ap-4%float r = true /\
   PrimFloat.leb r 3%float = true).
Proof.
  cbv zeta. unfold Math_min.
  change (is_nan 3%float) with false. cbn [orb].
  destruct (is_nan x) eqn:Hx.
  { left. split; reflexivity. }
  right. split; [reflexivity|].
  destruct (PrimFloat.ltb 3%float x) eqn:H1.
  { split; [right; right; reflexivity|]. split; reflexivity. }
  assert (Hle : PrimFloat.leb x 3%float = true)
    by (apply not_ltb_leb; [exact Hx | reflexivity | exact H1]).
  assert (Hm : (if PrimFloat.ltb x 3%float then x
                else if get_sign 3%float then 3%float else x) = x)
    by (destruct (PrimFloat.ltb x 3%float); reflexivity).
  rewrite Hm. unfold Math_max.
  change (is_nan 0x1.999999999999ap-4%float) with false. rewrite Hx. cbn [orb].
  destruct (PrimFloat.ltb 0x1.999999999999ap-4%float x) eqn:H3.
  { split; [left; reflexivity|]. split; [apply ltb_leb; exact H3 | exact Hle]. }
  assert (Hr : (if PrimFloat.ltb x 0x1.999999999999ap-4%float
                then 0x1.999999999999ap-4%float
                else if get_sign 0x1.999999999999ap-4%float then x
                     else 0x1.999999999999ap-4%float)
               = 0x1.999999999999ap-4%float)
    by (destruct (PrimFloat.ltb x 0x1.999999999999ap-4%float); reflexivity).
  rewrite Hr. split; [right; left; reflexivity|]. split; reflexivity.
Qed.

(** ** reputation.ts *)

Lemma clamp_clamped (x : float) :
  let r := Math_max 0x1.999999999999ap-4%float (Math_min 3%float x) in
  is_nan r = true \/ clamped r = true.
Proof.
  destruct (clamp_cases x) as [[_ Hnan]|(_ & _ & Hlo & Hhi)]; cbv zeta in *.
  - left. exact Hnan.
  - right. unfold clamped. rewrite Hlo, Hhi. reflexivity.
Qed.

(** The scores of the feed are [uint8]: on them the comparisons of doubles
    with 50 are the comparisons of integers. *)
Lemma score_thresholds (n : N) :
  n < 256 ->
  PrimFloat.leb 50%float (Number n) = (50 <=? n) /\
  PrimFloat.ltb (Number n) 50%float = (n <? 50).
Proof.
  intros Hn.
  assert (Hall : forallb
                   (fun n => Bool.eqb (PrimFloat.leb 50%float (Number n)) (50 <=? n)
                             && Bool.eqb (PrimFloat.ltb (Number n) 50%float) (n <? 50))
                   (map N.of_nat (seq 0 256)) = true)
    by (vm_compute; reflexivity).
  rewrite forallb_forall in Hall.
  specialize (Hall n).
  assert (Hin : In n (map N.of_nat (seq 0 256))).
  { apply in_map_iff. exists (N.to_nat n). split; [apply N2Nat.id|].
    apply in_seq. lia. }
  apply Hall in Hin. apply andb_true_iff in Hin as [H1 H2].
  apply Bool.eqb_prop in H1, H2. split; assumption.
Qed.

Lemma count_scores (entries : list N) :
  Forall (fun n : N => n < 256) entries ->
  length (List.filter (fun score => PrimFloat.leb 50%float score) (map Number entries))
    = length (List.filter (fun n : N => 50 <=? n) entries) /\
  length (List.filter (fun score => PrimFloat.ltb score 50%float) (map Number entries))
    = length (List.filter (fun n : N => n <? 50) entries).
Proof.
  induction 1 as [|n l Hn _ [IH1 IH2]]; [split; reflexivity|].
  destruct (score_thresholds n Hn) as [H1 H2].
  cbn [map List.filter]. rewrite H1, H2.
  split; [destruct (50 <=? n) | destruct (n <? 50)]; cbn [length]; congruence.
Qed.

Lemma partition_scores (entries : list N) :
  (length (List.filter (fun n : N => (50 <=? n)%N) entries)
   + length (List.filter (fun n : N => (n <? 50)%N) entries))%nat = length entries.
Proof.
  induction entries as [|n l IH]; [reflexivity|].
  cbn [List.filter].
  destruct (N.leb_spec 50 n), (N.ltb_spec n 50); cbn [length]; lia.
Qed.

(** [ensureActiveAgent] on an account that is active already. *)
Lemma ensureActiveAgent_active_run (X : Externals) (a : address) (w : World)
      (agent : AgentAccount) :
  getAgentState (mkEnv (signer X) (clock w) true) (ledger w) a = Ok agent ->
  active (agentOf (ledger w) a) = true ->
  ensureActiveAgent X a w = (Return agent, w).
Proof.
  intros Hview Hact. unfold ensureActiveAgent, await, getAgent. rewrite Hview.
  apply getAgentState_shape in Hview as (d & ->).
  change (active (with_debt d (agentOf (ledger w) a)))
    with (active (agentOf (ledger w) a)).
  rewrite Hact. reflexivity.
Qed.

Lemma calculateGrowthLimit_grows (l : Z) :
  (10 <= l < MAX_LIMIT)%Z -> (l < calculateGrowthLimit l)%Z.
Proof.
  intros Hl. unfold calculateGrowthLimit, GROWTH_FACTOR_BP.
  rewrite Z.quot_div_nonneg by lia.
  assert (l < l * 110 / 100)%Z.
  { apply Z.lt_le_trans with ((l * 100 + 100) / 100)%Z.
    - replace (l * 100 + 100)%Z with ((l + 1) * 100)%Z by lia.
      rewrite Z.div_mul by lia. lia.
    - apply Z.div_le_mono; lia. }
  destruct (Z.ltb_spec MAX_LIMIT (l * 110 / 100)); lia.
Qed.

(** ** Accruals in sequence *)

(** The account after an accrual that the guard lets through. *)
Lemma accrue_fields (env : Env) (a : address) (s s1 : CredexPool) :
  lastAccrued (agentOf s a) <> 0 ->
  debt (agentOf s a) <> 0 ->
  _accrueInterest env a s = Ok s1 ->
  lastAccrued (agentOf s a) <= block_timestamp env /\
  debt (agentOf s1 a) = debt (agentOf s a) + interestDue env (agentOf s a) /\
  lastAccrued (agentOf s1 a)
    = lastAccrued (agentOf s a) + intervalsDue env (agentOf s a) * ACCRUAL_INTERVAL.
Proof.
  intros Hla Hd H. unfold _accrueInterest in H.
  unfold interestDue, intervalsDue.
  set (acc := agentOf s a) in *.
  apply N.eqb_neq in Hla, Hd. rewrite Hla, Hd in H. cbn [orb] in H.
  apply bind_Ok in H as (elapsed & He & H). apply sub_Ok in He as [-> Hle].
  apply bind_Ok in H as (n & Hn & H). apply div_Ok in Hn as [-> _].
  destruct (N.ltb_spec 0 ((block_timestamp env - lastAccrued acc) / ACCRUAL_INTERVAL))
    as [Hpos|Hzero].
  - apply bind_Ok in H as (m1 & Hm1 & H). apply mul_Ok in Hm1 as [-> _].
    apply bind_Ok in H as (m2 & Hm2 & H). apply mul_Ok in Hm2 as [-> _].
    apply bind_Ok in H as (i & Hi & H). apply div_Ok in Hi as [-> _].
    apply bind_Ok in H as (d & Hdd & H). apply add_Ok in Hdd as [-> _].
    apply bind_Ok in H as (g & _ & H).
    apply bind_Ok in H as (step & Hstep & H). apply mul_Ok in Hstep as [-> _].
    apply bind_Ok in H as (la & Hlaa & H). apply add_Ok in Hlaa as [-> _].
    injection H as <-. rewrite agentOf_set_agent_eq.
    cbn [debt lastAccrued with_lastAccrued with_debt].
    split; [exact Hle|]. split; reflexivity.
  - injection H as <-. fold acc.
    apply N.le_0_r in Hzero. rewrite Hzero.
    rewrite N.mul_0_r, N.mul_0_l, N.add_0_r.
    change (0 / 10000) with 0. rewrite N.add_0_r.
    split; [exact Hle|]. split; reflexivity.
Qed.

Lemma floor_of_sum (x y k : N) : (x + y) / k <= x / k + y / k + 1.
Proof.
  destruct (N.eq_dec k 0) as [->|Hk].
  { rewrite !N.div_0_r. lia. }
  pose proof (N.div_mod x k Hk) as Hx. pose proof (N.div_mod y k Hk) as Hy.
  pose proof (N.mod_lt x k Hk) as Hrx. pose proof (N.mod_lt y k Hk) as Hry.
  set (qx := x / k) in *. set (qy := y / k) in *.
  set (rx := x mod k) in *. set (ry := y mod k) in *.
  assert (Hlt : (x + y) / k < qx + qy + 2).
  { apply N.Div0.div_lt_upper_bound. nia. }
  lia.
Qed.

(** * The properties of the credit clearing engine *)

(** ** Conservation *)

(** C1.  From the freshly deployed (empty) pool, after any finite sequence of
    transactions (deposit, withdraw, onboardAgent, borrow and repay with the
    interest accrual they run, and the remaining external functions as well,
    failed calls included) the providers' shares sum to [totalShares], the
    debt tracker [totalDebt] is the sum of the agents' debts, and
    [totalAssets] is [totalLiquidity + totalDebt]: the view returns that sum
    whenever it fits a uint256, and never returns anything else.  An
    interest accrual run on such a state keeps the two sums. *)
Theorem C1_books_balance :
  forall (deployer agent : address) (txs : list (Env * Call)),
    let s := run txs (constructor deployer agent) in
    sumShares s = totalShares s /\
    totalDebt s = sumDebt s /\
    (forall v, totalAssets s = Ok v -> v = totalLiquidity s + totalDebt s) /\
    (totalLiquidity s + totalDebt s <= MAX_UINT256 ->
     totalAssets s = Ok (totalLiquidity s + totalDebt s)) /\
    (forall env a s1,
        _accrueInterest env a s = Ok s1 ->
        sumShares s1 = totalShares s1 /\ totalDebt s1 = sumDebt s1).
Proof.
  intros deployer agent txs s.
  pose proof (run_books txs _ (constructor_books deployer agent)) as HB.
  fold s in HB. destruct HB as [Hs Hd Ha].
  split; [exact Hs|]. split; [unfold totalDebt; symmetry; exact Hd|].
  split; [|split].
  - intros v Hv. unfold totalAssets in Hv. apply add_Ok in Hv as [-> _].
    reflexivity.
  - intros Hfit. unfold totalAssets. apply add_fits, Hfit.
  - intros env a s1 Hacc.
    destruct (accrue_books _ _ _ _ Hacc (mkBooks s Hs Hd Ha)) as [Hs1 Hd1 _].
    split; [exact Hs1 | unfold totalDebt; symmetry; exact Hd1].
Qed.

(** After a deposit of 1000 USDC, an onboarding and a borrow of 50 USDC the
    shares sum to the share counter, the debts to the tracker, and the
    assets are the 1000 USDC. *)
Lemma C1_witness :
  sumShares loan_pool = totalShares loan_pool /\
  totalDebt loan_pool = sumDebt loan_pool /\
  totalLiquidity loan_pool = 950000000 /\
  totalDebt loan_pool = 50000000 /\
  totalAssets loan_pool = Ok 1000000000.
Proof.
  destruct (C1_books_balance 1 2
              [(mkEnv 3 1000 true, Deposit 1000000000);
               (mkEnv 2 1000 true, OnboardAgent 4 100000000);
               (mkEnv 2 1000 true, Borrow 4 50000000)])
    as (Hs & Hd & _ & Hta & _).
  split; [exact Hs|]. split; [exact Hd|].
  split; [reflexivity|]. split; [reflexivity|].
  apply Hta. crunch.
Defined.

(** ** Interest accrual *)

(** The accrual on an account that has debt and a watermark, at a time not
    before the watermark: when no whole interval has elapsed it changes
    nothing; otherwise, provided the uint256 arithmetic does not overflow,
    the debt and the debt tracker grow by exactly
    [floor(debt * INTEREST_RATE_BP * intervals / 10000)], the watermark
    advances by exactly [intervals * ACCRUAL_INTERVAL] (so the remainder of
    the running interval is kept: the time left after the new watermark is
    the old elapsed time modulo the interval), and nothing else in the
    account changes.  Borrow and repay run this accrual before anything
    else they do to the account.  The account without debt is not covered:
    there the accrual returns at once and leaves the watermark behind. *)
Lemma accrual_with_debt_is_quantized :
  forall (env : Env) (agent : address) (s : CredexPool),
    let acc := agentOf s agent in
    let n := intervalsDue env acc in
    let i := interestDue env acc in
    lastAccrued acc <> 0 ->
    debt acc <> 0 ->
    lastAccrued acc <= block_timestamp env <= MAX_UINT256 ->
    (n = 0 -> _accrueInterest env agent s = Ok s) /\
    (n <> 0 ->
     debt acc * INTEREST_RATE_BP * n <= MAX_UINT256 ->
     debt acc + i <= MAX_UINT256 ->
     globalTotalDebt s + i <= MAX_UINT256 ->
     exists s1,
       _accrueInterest env agent s = Ok s1 /\
       agentOf s1 agent =
         with_lastAccrued (lastAccrued acc + n * ACCRUAL_INTERVAL)
           (with_debt (debt acc + i) acc) /\
       globalTotalDebt s1 = globalTotalDebt s + i /\
       block_timestamp env - lastAccrued (agentOf s1 agent)
         = (block_timestamp env - lastAccrued acc) mod ACCRUAL_INTERVAL) /\
    (forall amount s',
        borrow env agent amount s = Ok s' ->
        exists s1, _accrueInterest env agent s = Ok s1 /\
                   lastAccrued (agentOf s' agent) = lastAccrued (agentOf s1 agent)) /\
    (forall amount s',
        repay env agent amount s = Ok s' ->
        exists s1, _accrueInterest env agent s = Ok s1 /\
                   lastAccrued (agentOf s' agent) = lastAccrued (agentOf s1 agent)).
Proof.
  intros env agent s acc n i Hla Hd [Hnow Hmax].
  assert (Hguard : (lastAccrued acc =? 0) || (debt acc =? 0) = false).
  { apply N.eqb_neq in Hla, Hd. fold acc in Hla, Hd. now rewrite Hla, Hd. }
  split; [|split; [|split]].
  - intros Hn. unfold _accrueInterest. fold acc. rewrite Hguard.
    rewrite sub_fits by exact Hnow. cbn [bind].
    rewrite div_fits by discriminate. cbn [bind].
    fold (intervalsDue env acc). fold n. rewrite Hn. reflexivity.
  - intros Hn Hmul Hadd Hglob.
    assert (Hdiv : n * ACCRUAL_INTERVAL <= block_timestamp env - lastAccrued acc).
    { unfold n, intervalsDue. rewrite N.mul_comm.
      apply N.Div0.mul_div_le. }
    assert (Hpos : (0 <? n) = true) by (apply N.ltb_lt; lia).
    assert (Hmul1 : debt acc * INTEREST_RATE_BP <= MAX_UINT256) by nia.
    eexists. split; [|split; [|split]].
    + unfold _accrueInterest. fold acc. rewrite Hguard.
      rewrite sub_fits by exact Hnow. cbn [bind].
      rewrite div_fits by discriminate. cbn [bind].
      fold (intervalsDue env acc). fold n. rewrite Hpos.
      rewrite mul_fits by exact Hmul1. cbn [bind].
      rewrite mul_fits by exact Hmul. cbn [bind].
      rewrite div_fits by discriminate. cbn [bind].
      change (debt acc * INTEREST_RATE_BP * n / 10000) with i.
      rewrite add_fits by exact Hadd. cbn [bind].
      rewrite add_fits by exact Hglob. cbn [bind].
      rewrite mul_fits by lia. cbn [bind].
      rewrite add_fits by lia. cbn [bind].
      reflexivity.
    + rewrite agentOf_set_agent_eq. reflexivity.
    + reflexivity.
    + rewrite agentOf_set_agent_eq. simpl.
      unfold n, intervalsDue in *.
      pose proof (N.Div0.div_mod (block_timestamp env - lastAccrued acc)
                    ACCRUAL_INTERVAL) as Hdm.
      lia.
  - intros amount s' H. unfold borrow in H.
    apply bind_Ok in H as (? & _ & H).
    apply bind_Ok in H as (? & _ & H).
    apply bind_Ok in H as (? & _ & H).
    apply bind_Ok in H as (s1 & Hacc & H).
    exists s1. split; [exact Hacc|]. inv_ok.
    unfold agentOf at 1. simpl. rewrite lookup_insert_eq. reflexivity.
  - intros amount s' H. unfold repay in H.
    apply bind_Ok in H as (? & _ & H).
    apply bind_Ok in H as (? & _ & H).
    apply bind_Ok in H as (s1 & Hacc & H).
    exists s1. split; [exact Hacc|].
    apply bind_Ok in H as (? & _ & H).
    apply bind_Ok in H as (io & _ & H).
    apply bind_Ok in H as (acc1 & Hacc1 & H).
    assert (Hsame : lastAccrued acc1 = lastAccrued (agentOf s1 agent)).
    { destruct (_ <=? io); inv_ok; reflexivity. }
    clear Hacc1. inv_ok.
    unfold agentOf at 1. simpl. rewrite lookup_insert_eq. simpl. exact Hsame.
Qed.

(** One interval and 17 seconds later: a debt of 50000000 accrues exactly
    50000, the watermark moves by exactly one interval, and the 17 seconds
    stay uncounted. *)
Lemma accrual_with_debt_example :
  let env := mkEnv 2 1077 true in
  debt (agentOf loan_pool 4) = 50000000 /\
  lastAccrued (agentOf loan_pool 4) = 1000 /\
  intervalsDue env (agentOf loan_pool 4) = 1 /\
  exists s1,
    _accrueInterest env 4 loan_pool = Ok s1 /\
    debt (agentOf s1 4) = 50000000 + 50000 /\
    lastAccrued (agentOf s1 4) = 1000 + ACCRUAL_INTERVAL /\
    block_timestamp env - lastAccrued (agentOf s1 4) = 17.
Proof.
  intros env.
  split; [reflexivity|]. split; [reflexivity|]. split; [reflexivity|].
  destruct (accrual_with_debt_is_quantized env 4 loan_pool) as (_ & Hacc & _).
  - crunch.
  - crunch.
  - split; crunch.
  - destruct Hacc as (s1 & Hrun & Hshape & _ & Hrem).
    + crunch.
    + crunch.
    + crunch.
    + crunch.
    + exists s1. split; [exact Hrun|].
      rewrite Hrem, Hshape. repeat split.
Defined.

(** C2.  The accrual misses the account without debt.  [_accrueInterest]
    starts with [if (acc.lastAccrued == 0 || acc.debt == 0) return;], so on
    an account that owes nothing the watermark is not advanced, however many
    whole intervals have elapsed, and the time the account stood idle is
    charged as interest at the next accrual after a loan.

    The agent of [idle_pool] is onboarded at time 1000 and borrows 20 USDC
    at time 87400, when 1440 whole intervals have elapsed: the watermark
    stays at 1000 instead of advancing by [1440 * ACCRUAL_INTERVAL] to
    87400.  One interval later, at 87460, a repayment of nothing runs the
    accrual: it counts 1441 intervals and adds 28.82 USDC to a debt of 20
    USDC that is one interval old.  With the watermark at 87400, as the
    quantization rule puts it, the same call charges the one interval that
    has elapsed since the loan: 0.02 USDC.  The same happens to an account
    that has repaid in full: its debt is 0 again, its watermark is left
    behind, and the next loan pays for the time in between. *)
Theorem C2_idle_time_is_charged :
  let at_loan := mkEnv 2 87400 true in
  let later := mkEnv 2 87460 true in
  let borrowed := transact idle_pool (at_loan, Borrow 4 20000000) in
  let charged := transact borrowed (later, Repay 4 0) in
  let advanced :=
    set_agent 4
      (with_lastAccrued (1000 + 1440 * ACCRUAL_INTERVAL) (agentOf borrowed 4))
      borrowed in
  let cleared :=
    run [(mkEnv 2 1000 true, Borrow 4 20000000);
         (mkEnv 2 1030 true, Repay 4 20000000)] idle_pool in
  let charged_again :=
    run [(at_loan, Borrow 4 20000000); (later, Repay 4 0)] cleared in
  (debt (agentOf idle_pool 4) = 0 /\
   lastAccrued (agentOf idle_pool 4) = 1000 /\
   intervalsDue at_loan (agentOf idle_pool 4) = 1440) /\
  (borrow at_loan 4 20000000 idle_pool = Ok borrowed /\
   debt (agentOf borrowed 4) = 20000000 /\
   lastAccrued (agentOf borrowed 4) = 1000 /\
   lastAccrued (agentOf borrowed 4)
     <> lastAccrued (agentOf idle_pool 4) + 1440 * ACCRUAL_INTERVAL) /\
  (repay later 4 0 borrowed = Ok charged /\
   intervalsDue later (agentOf borrowed 4) = 1441 /\
   debt (agentOf charged 4)
     = 20000000 + 20000000 * INTEREST_RATE_BP * 1441 / 10000 /\
   debt (agentOf charged 4) = 48820000 /\
   principal (agentOf charged 4) = 20000000) /\
  (intervalsDue later (agentOf advanced 4) = 1 /\
   debt (agentOf (transact advanced (later, Repay 4 0)) 4) = 20020000) /\
  (debt (agentOf cleared 4) = 0 /\
   lastAccrued (agentOf cleared 4) = 1000 /\
   debt (agentOf charged_again 4) = 48820000 /\
   principal (agentOf charged_again 4) = 20000000).
Proof.
  cbv zeta. repeat split; crunch.
Qed.

(** ** Repayment *)

(** C3.  In a pool whose books balance, for an active account and any
    [amount]: once the accrual has run, repay takes
    [min(amount, debt)] (an amount above the debt is capped, the call is not
    rejected for it); with [interestOwed = debt - principal], a payment of at
    most [interestOwed] lowers the debt by the payment and leaves the
    principal alone, a larger one lowers the debt by the payment and the
    principal by [payment - interestOwed]; [totalLiquidity] grows by the
    payment, the debt tracker shrinks by it, and [lastRepayment] becomes the
    time of the call.  (The call goes through when the token accepts the
    transfer and the liquidity counter stays within uint256.) *)
Theorem C3_repay_interest_first :
  forall (env : Env) (agent : address) (amount : N) (s s1 : CredexPool),
    Books s ->
    Covered s ->
    msg_sender env = credexAgent s ->
    active (agentOf s agent) = true ->
    _accrueInterest env agent s = Ok s1 ->
    let acc := agentOf s1 agent in
    let paid := N.min amount (debt acc) in
    let interestOwed := debt acc - principal acc in
    usdc_ok env = true ->
    totalLiquidity s + paid <= MAX_UINT256 ->
    exists s',
      repay env agent amount s = Ok s' /\
      debt (agentOf s' agent) = debt acc - paid /\
      (paid <= interestOwed ->
       principal (agentOf s' agent) = principal acc) /\
      (interestOwed < paid ->
       principal (agentOf s' agent) = principal acc - (paid - interestOwed)) /\
      totalLiquidity s' = totalLiquidity s + paid /\
      globalTotalDebt s' = globalTotalDebt s1 - paid /\
      lastRepayment (agentOf s' agent) = block_timestamp env.
Proof.
  intros env agent amount s s1 HB HC Hsender Hact Hacc acc paid io Husdc Hfit.
  pose proof (accrue_books _ _ _ _ Hacc HB) as HB1.
  pose proof (accrue_covered _ _ _ _ Hacc HC agent) as Hcov. fold acc in Hcov.
  pose proof (debt_le_sumDebt s1 agent) as Hle.
  rewrite (books_debt s1 HB1) in Hle. fold acc in Hle.
  pose proof (accrue_totalLiquidity _ _ _ _ Hacc) as Hliq.
  assert (Hpaid : (if debt acc <? amount then debt acc else amount) = paid).
  { unfold paid. destruct (N.ltb_spec (debt acc) amount); lia. }
  assert (Hpd : paid <= debt acc) by (unfold paid; lia).
  unfold repay.
  rewrite (onlyAgent_fits _ _ Hsender); cbn [bind].
  rewrite (require_fits _ _ Hact); cbn [bind].
  rewrite Hacc; cbn [bind]. fold acc. rewrite Hpaid.
  rewrite (usdc_call_fits _ Husdc); cbn [bind].
  rewrite sub_fits by exact Hcov; cbn [bind]. fold io.
  destruct (N.leb_spec paid io) as [Hint|Hint].
  - rewrite sub_fits by exact Hpd; cbn [bind].
    rewrite sub_fits by lia; cbn [bind].
    rewrite add_fits by lia; cbn [bind].
    eexists. split; [reflexivity|].
    rewrite !agentOf_after_repay. simpl.
    repeat split; lia.
  - rewrite sub_fits by lia; cbn [bind].
    rewrite sub_fits by exact Hpd; cbn [bind].
    rewrite sub_fits by (unfold io in *; lia); cbn [bind].
    rewrite sub_fits by lia; cbn [bind].
    rewrite add_fits by lia; cbn [bind].
    eexists. split; [reflexivity|].
    rewrite !agentOf_after_repay. simpl.
    repeat split; lia.
Qed.

(** The account owes 20000000 of principal and 50000 of interest.  Repaying
    70000 takes the debt and the principal down to 19980000 (the principal
    by 70000 - 50000); a repayment of a million USDC is capped at the debt
    and clears the account. *)
Lemma C3_witness :
  (exists s',
      repay (mkEnv 2 1030 true) 4 70000 sample_pool = Ok s' /\
      debt (agentOf s' 4) = 20050000 - 70000 /\
      principal (agentOf s' 4) = 20000000 - 20000 /\
      totalLiquidity s' = 80000000 + 70000 /\
      lastRepayment (agentOf s' 4) = 1030) /\
  (exists s',
      repay (mkEnv 2 1030 true) 4 1000000000000 sample_pool = Ok s' /\
      debt (agentOf s' 4) = 0 /\
      principal (agentOf s' 4) = 0 /\
      totalLiquidity s' = 80000000 + 20050000).
Proof.
  split.
  - destruct (C3_repay_interest_first (mkEnv 2 1030 true) 4 70000
                sample_pool sample_pool sample_pool_books sample_pool_covered)
      as (s' & Hrun & Hd & _ & Hp & Hl & _ & Ht); try crunch.
    exists s'. split; [exact Hrun|].
    rewrite Hd, Hl, Ht, Hp by crunch. repeat split.
  - destruct (C3_repay_interest_first (mkEnv 2 1030 true) 4 1000000000000
                sample_pool sample_pool sample_pool_books sample_pool_covered)
      as (s' & Hrun & Hd & _ & Hp & Hl & _ & Ht); try crunch.
    exists s'. split; [exact Hrun|].
    rewrite Hd, Hl, Hp by crunch. repeat split.
Defined.

(** ** Debt covers principal *)

(** C4.  An account starts at [debt = principal = 0] when it is onboarded;
    interest accrual and every transaction (onboardAgent, borrow, repay,
    freeze, unfreeze, setCreditLimit and the rest) keep [principal <= debt]
    for every account, so the invariant holds in every state the pool can
    reach; after a repayment in particular the principal is not above the
    debt. *)
Theorem C4_debt_covers_principal :
  (forall env agent limit s s',
      onboardAgent env agent limit s = Ok s' ->
      debt (agentOf s' agent) = 0 /\ principal (agentOf s' agent) = 0) /\
  (forall env agent s s1,
      Covered s -> _accrueInterest env agent s = Ok s1 -> Covered s1) /\
  (forall s tx, Covered s -> Covered (transact s tx)) /\
  (forall env agent amount s s',
      Covered s -> repay env agent amount s = Ok s' ->
      principal (agentOf s' agent) <= debt (agentOf s' agent)) /\
  (forall deployer agent txs, Covered (run txs (constructor deployer agent))).
Proof.
  repeat split.
  - unfold onboardAgent in H. inv_ok. rewrite agentOf_set_agent_eq. reflexivity.
  - unfold onboardAgent in H. inv_ok. rewrite agentOf_set_agent_eq. reflexivity.
  - intros env agent s s1 HC H. eapply accrue_covered; eassumption.
  - intros s tx HC. apply transact_covered, HC.
  - intros env agent amount s s' HC H.
    apply (repay_covered _ _ _ _ _ H HC).
  - intros deployer agent txs. apply run_covered, constructor_covered.
Qed.

(** On the sample pool, whose account owes 50000 of interest, a repayment of
    70000 leaves principal and debt equal at 19980000. *)
Lemma C4_witness :
  Covered sample_pool /\
  Covered (transact sample_pool (mkEnv 2 1030 true, Repay 4 70000)) /\
  principal (agentOf (transact sample_pool (mkEnv 2 1030 true, Repay 4 70000)) 4)
    = 19980000 /\
  debt (agentOf (transact sample_pool (mkEnv 2 1030 true, Repay 4 70000)) 4)
    = 19980000.
Proof.
  split; [exact sample_pool_covered|]. split.
  - apply (proj1 (proj2 (proj2 C4_debt_covers_principal))).
    exact sample_pool_covered.
  - split; reflexivity.
Defined.

(** ** Borrowing headroom *)

(** C5.  [availableCredit] is 0 for an account that is inactive, or frozen,
    or whose limit is at most its principal, and [creditLimit - principal]
    otherwise.  A borrow that reaches the limit check (authorised caller,
    active and unfrozen account, accrual done, [principal + amount] within
    uint256) fails with "Exceeds limit" exactly when
    [principal + amount > creditLimit] on the accrued account: the check reads
    the principal, not the debt. *)
Theorem C5_headroom_is_on_principal :
  (forall (s : CredexPool) (agent : address),
      let acc := agentOf s agent in
      (active acc = false \/ frozen acc = true \/ creditLimit acc <= principal acc ->
       availableCredit s agent = 0) /\
      (active acc = true -> frozen acc = false -> principal acc < creditLimit acc ->
       availableCredit s agent = creditLimit acc - principal acc)) /\
  (forall (env : Env) (agent : address) (amount : N) (s s1 : CredexPool),
      msg_sender env = credexAgent s ->
      active (agentOf s agent) = true ->
      frozen (agentOf s agent) = false ->
      _accrueInterest env agent s = Ok s1 ->
      let acc := agentOf s1 agent in
      principal acc + amount <= MAX_UINT256 ->
      (borrow env agent amount s = Err (Revert "Exceeds limit") <->
       creditLimit acc < principal acc + amount)).
Proof.
  split.
  - intros s agent acc. unfold availableCredit. fold acc. split.
    + intros [Hin|[Hfr|Hle]].
      * rewrite Hin. reflexivity.
      * rewrite Hfr, orb_true_r. reflexivity.
      * destruct (negb (active acc) || frozen acc); [reflexivity|].
        apply N.leb_le in Hle. rewrite Hle. reflexivity.
    + intros Hact Hfr Hlt. rewrite Hact, Hfr. simpl.
      apply N.leb_gt in Hlt. rewrite Hlt. reflexivity.
  - intros env agent amount s s1 Hsender Hact Hfr Hacc acc Hfit.
    unfold borrow.
    rewrite (onlyAgent_fits _ _ Hsender); cbn [bind].
    rewrite (require_fits _ _ Hact); cbn [bind].
    rewrite require_fits by (rewrite Hfr; reflexivity); cbn [bind].
    rewrite Hacc; cbn [bind]. fold acc.
    rewrite add_fits by exact Hfit; cbn [bind].
    destruct (N.leb_spec (principal acc + amount) (creditLimit acc)) as [Hle|Hgt];
      cbn [require bind].
    + split; [|lia]. intros H. exfalso.
      destruct (amount <=? totalLiquidity s1); cbn [require bind] in H;
        [|discriminate H].
      destruct (add (debt acc) amount) eqn:E1; cbn [bind] in H;
        [|not_a_revert E1].
      destruct (sub (totalLiquidity s1) amount) eqn:E2; cbn [bind] in H;
        [|not_a_revert E2].
      destruct (add (globalTotalDebt s1) amount) eqn:E3; cbn [bind] in H;
        [|not_a_revert E3].
      destruct (usdc_call env) eqn:E4; cbn [bind] in H;
        [discriminate H | not_a_revert E4].
    + split; [intros _; exact Hgt | reflexivity].
Qed.

(** On the sample account (limit 50 USDC, principal 20 USDC, debt 20.05
    USDC): the available credit is 30 USDC; a borrow of 30 USDC passes
    although debt + amount is above the limit; one unit more fails with
    "Exceeds limit". *)
Lemma C5_witness :
  availableCredit sample_pool 4 = 50000000 - 20000000 /\
  (exists s', borrow (mkEnv 2 1030 true) 4 30000000 sample_pool = Ok s') /\
  creditLimit (agentOf sample_pool 4) < debt (agentOf sample_pool 4) + 30000000 /\
  borrow (mkEnv 2 1030 true) 4 30000001 sample_pool = Err (Revert "Exceeds limit").
Proof.
  split.
  - apply (proj1 C5_headroom_is_on_principal sample_pool 4); crunch.
  - split; [eexists; vm_compute; reflexivity|]. split; [crunch|].
    apply (proj2 C5_headroom_is_on_principal (mkEnv 2 1030 true) 4 30000001
             sample_pool sample_pool); crunch.
Defined.

(** The clearing agent sits in front of the ledger with a check of its own,
    on the reported debt: for the same account and the same 30 USDC,
    [handleBorrow] answers "Insufficient credit" and sends nothing to the
    ledger. *)
Example handleBorrow_checks_debt :
  let w := mkWorld sample_pool 1030 ∅ in
  (Z.of_N (creditLimit sample_account) - Z.of_N (debt sample_account))%Z
    = 29950000%Z /\
  exists resp,
    handleBorrow (sample_externals None) 4 "30" w = (Return resp, w) /\
    success resp = false.
Proof.
  split; [reflexivity|].
  eexists. split; [vm_compute; reflexivity | reflexivity].
Qed.

(** ** The vault *)

(** C6.  A deposit of 0 fails ("Zero amount").  A deposit that goes through
    mints exactly [amount] shares when [totalShares = 0] and exactly
    [floor(amount * totalShares / totalAssets)] shares otherwise, adds them
    to the caller's shares and to [totalShares], and adds [amount] to
    [totalLiquidity].  And it does go through for a positive amount when the
    token accepts the transfer, [totalAssets] is not 0 unless [totalShares]
    is, and the numbers involved stay within uint256. *)
Theorem C6_deposit_mints_pro_rata :
  (forall (env : Env) (s : CredexPool),
      deposit env 0 s = Err (Revert "Zero amount")) /\
  (forall (env : Env) (amount : N) (s s' : CredexPool),
      deposit env amount s = Ok s' ->
      exists ta minted,
        totalAssets s = Ok ta /\
        (totalShares s = 0 -> minted = amount) /\
        (totalShares s <> 0 -> minted = amount * totalShares s / ta) /\
        sharesOf s' (msg_sender env) = sharesOf s (msg_sender env) + minted /\
        (forall other, other <> msg_sender env ->
                       sharesOf s' other = sharesOf s other) /\
        totalShares s' = totalShares s + minted /\
        totalLiquidity s' = totalLiquidity s + amount) /\
  (forall (env : Env) (amount ta : N) (s : CredexPool),
      0 < amount ->
      usdc_ok env = true ->
      totalAssets s = Ok ta ->
      (totalShares s <> 0 -> ta <> 0 /\ amount * totalShares s <= MAX_UINT256) ->
      sharesOf s (msg_sender env) + sharesMinted s ta amount <= MAX_UINT256 ->
      totalShares s + sharesMinted s ta amount <= MAX_UINT256 ->
      totalLiquidity s + amount <= MAX_UINT256 ->
      exists s', deposit env amount s = Ok s').
Proof.
  split; [|split].
  - intros env s. reflexivity.
  - intros env amount s s' H. unfold deposit in H.
    apply bind_Ok in H as (? & _ & H).
    apply bind_Ok in H as (ta & Hta & H).
    apply bind_Ok in H as (shares & Hsh & H).
    exists ta, shares. split; [exact Hta|].
    assert (Hm : shares = sharesMinted s ta amount).
    { unfold sharesMinted. destruct (totalShares s =? 0); inv_ok; reflexivity. }
    clear Hsh Hta. inv_ok.
    split; [|split; [|split; [|split; [|split]]]].
    + intros Hz. unfold sharesMinted. rewrite Hz. reflexivity.
    + intros Hnz. unfold sharesMinted.
      apply N.eqb_neq in Hnz. rewrite Hnz. reflexivity.
    + unfold sharesOf at 1. simpl. rewrite lookup_insert_eq. reflexivity.
    + intros other Hne. unfold sharesOf at 1. simpl.
      rewrite lookup_insert_ne by congruence. reflexivity.
    + reflexivity.
    + reflexivity.
  - intros env amount ta s Hpos Husdc Hta Hdiv Hmine Hts Htl.
    unfold deposit.
    rewrite require_fits by (apply N.ltb_lt; exact Hpos); cbn [bind].
    rewrite Hta; cbn [bind].
    assert (Hsh : (if totalShares s =? 0 then Ok amount
                   else do m <- mul amount (totalShares s); div m ta)
                  = Ok (sharesMinted s ta amount)).
    { unfold sharesMinted. destruct (N.eqb_spec (totalShares s) 0) as [Hz|Hnz];
        [reflexivity|].
      destruct (Hdiv Hnz) as [Hta0 Hmul].
      rewrite mul_fits by exact Hmul; cbn [bind].
      rewrite div_fits by exact Hta0. reflexivity. }
    rewrite Hsh; cbn [bind].
    rewrite (usdc_call_fits _ Husdc); cbn [bind].
    rewrite add_fits by exact Hmine; cbn [bind].
    rewrite add_fits by exact Hts; cbn [bind].
    rewrite add_fits by exact Htl; cbn [bind].
    eexists. reflexivity.
Qed.

(** Depositing 50 mints [floor(50 * 100 / 200) = 25] shares; a first
    deposit of 7 into an empty pool mints 7. *)
Lemma C6_witness :
  (exists s',
      deposit (mkEnv 5 2000 true) 50 pool_100_200 = Ok s' /\
      sharesOf s' 5 = 25 /\ totalShares s' = 125 /\ totalLiquidity s' = 200) /\
  (exists s',
      deposit (mkEnv 5 2000 true) 7 (constructor 1 2) = Ok s' /\
      sharesOf s' 5 = 7 /\ totalShares s' = 7 /\ totalLiquidity s' = 7).
Proof.
  split.
  - destruct (proj2 (proj2 C6_deposit_mints_pro_rata)
                (mkEnv 5 2000 true) 50 200 pool_100_200) as (s' & Hrun);
      try crunch.
    { intros _. split; crunch. }
    exists s'. split; [exact Hrun|].
    destruct (proj1 (proj2 C6_deposit_mints_pro_rata) _ _ _ _ Hrun)
      as (ta & minted & Hta & _ & Hm & Hmine & _ & Hts & Htl).
    injection Hta as <-. cbn [msg_sender] in Hmine.
    rewrite Hmine, Hts, Htl, Hm by crunch. repeat split.
  - destruct (proj2 (proj2 C6_deposit_mints_pro_rata)
                (mkEnv 5 2000 true) 7 0 (constructor 1 2)) as (s' & Hrun);
      try crunch.
    exists s'. split; [exact Hrun|].
    destruct (proj1 (proj2 C6_deposit_mints_pro_rata) _ _ _ _ Hrun)
      as (ta & minted & Hta & Hm & _ & Hmine & _ & Hts & Htl).
    injection Hta as <-. cbn [msg_sender] in Hmine.
    rewrite Hmine, Hts, Htl, Hm by crunch. repeat split.
Defined.

(** C7.  A withdrawal of 0 shares fails ("Zero shares"); one of more shares
    than the caller holds fails with "Insufficient shares"; otherwise, with
    [assets = floor(shares * totalAssets / totalShares)], it fails with
    "Insufficient pool liquidity" whenever [assets > totalLiquidity], the
    caller's sufficient share balance notwithstanding; and a withdrawal that
    goes through lowers the caller's shares and [totalShares] by exactly
    [shares] and [totalLiquidity] by exactly [assets].  It goes through when,
    besides, the books balance and the token accepts the transfer. *)
Theorem C7_withdraw_is_capped_by_cash :
  (forall (env : Env) (s : CredexPool),
      withdraw env 0 s = Err (Revert "Zero shares")) /\
  (forall (env : Env) (shares : N) (s : CredexPool),
      0 < shares ->
      sharesOf s (msg_sender env) < shares ->
      withdraw env shares s = Err (Revert "Insufficient shares")) /\
  (forall (env : Env) (shares ta : N) (s : CredexPool),
      0 < shares ->
      shares <= sharesOf s (msg_sender env) ->
      totalAssets s = Ok ta ->
      shares * ta <= MAX_UINT256 ->
      totalShares s <> 0 ->
      totalLiquidity s < assetsReleased s ta shares ->
      withdraw env shares s = Err (Revert "Insufficient pool liquidity")) /\
  (forall (env : Env) (shares : N) (s s' : CredexPool),
      withdraw env shares s = Ok s' ->
      exists ta,
        totalAssets s = Ok ta /\
        shares <= sharesOf s (msg_sender env) /\
        shares <= totalShares s /\
        assetsReleased s ta shares <= totalLiquidity s /\
        sharesOf s' (msg_sender env) = sharesOf s (msg_sender env) - shares /\
        totalShares s' = totalShares s - shares /\
        totalLiquidity s' = totalLiquidity s - assetsReleased s ta shares) /\
  (forall (env : Env) (shares ta : N) (s : CredexPool),
      Books s ->
      0 < shares ->
      shares <= sharesOf s (msg_sender env) ->
      totalAssets s = Ok ta ->
      shares * ta <= MAX_UINT256 ->
      assetsReleased s ta shares <= totalLiquidity s ->
      usdc_ok env = true ->
      exists s', withdraw env shares s = Ok s').
Proof.
  split; [|split; [|split; [|split]]].
  - intros env s. reflexivity.
  - intros env shares s Hpos Hlt. unfold withdraw.
    rewrite require_fits by (apply N.ltb_lt; exact Hpos); cbn [bind].
    apply N.leb_gt in Hlt. rewrite Hlt. reflexivity.
  - intros env shares ta s Hpos Hle Hta Hmul Hts Hliq. unfold withdraw.
    rewrite require_fits by (apply N.ltb_lt; exact Hpos); cbn [bind].
    rewrite require_fits by (apply N.leb_le; exact Hle); cbn [bind].
    rewrite Hta; cbn [bind].
    rewrite mul_fits by exact Hmul; cbn [bind].
    rewrite div_fits by exact Hts; cbn [bind].
    unfold assetsReleased in Hliq. apply N.leb_gt in Hliq. rewrite Hliq.
    reflexivity.
  - intros env shares s s' H. unfold withdraw in H.
    apply bind_Ok in H as (? & _ & H).
    apply bind_Ok in H as (? & Hle & H). apply require_Ok, N.leb_le in Hle.
    apply bind_Ok in H as (ta & Hta & H).
    exists ta. split; [exact Hta|]. clear Hta.
    apply bind_Ok in H as (m & Hm & H). apply mul_Ok in Hm as [-> _].
    apply bind_Ok in H as (assets & Ha & H). apply div_Ok in Ha as [-> _].
    apply bind_Ok in H as (? & Hcash & H). apply require_Ok, N.leb_le in Hcash.
    apply bind_Ok in H as (mine & Hmine & H). apply sub_Ok in Hmine as [-> _].
    apply bind_Ok in H as (ts & Hts & H). apply sub_Ok in Hts as [-> Hts].
    apply bind_Ok in H as (tl & Htl & H). apply sub_Ok in Htl as [-> _].
    apply bind_Ok in H as (? & _ & H). injection H as <-.
    unfold assetsReleased. repeat split; try assumption.
    unfold sharesOf at 1. simpl. rewrite lookup_insert_eq. reflexivity.
  - intros env shares ta s HB Hpos Hle Hta Hmul Hcash Husdc.
    pose proof (sharesOf_le_sumShares s (msg_sender env)) as Hsum.
    rewrite (books_shares s HB) in Hsum.
    unfold withdraw.
    rewrite require_fits by (apply N.ltb_lt; exact Hpos); cbn [bind].
    rewrite require_fits by (apply N.leb_le; exact Hle); cbn [bind].
    rewrite Hta; cbn [bind].
    rewrite mul_fits by exact Hmul; cbn [bind].
    rewrite div_fits by lia; cbn [bind].
    rewrite require_fits by (apply N.leb_le; exact Hcash); cbn [bind].
    rewrite sub_fits by exact Hle; cbn [bind].
    rewrite sub_fits by lia; cbn [bind].
    rewrite sub_fits by exact Hcash; cbn [bind].
    rewrite (usdc_call_fits _ Husdc); cbn [bind].
    eexists. reflexivity.
Qed.

(** The sample pool holds 100 USDC of shares against 80 USDC in cash and
    20.05 USDC lent out.  The provider's 90 USDC of shares are worth more
    than the cash at hand, so withdrawing them fails although the provider
    holds them; withdrawing 101 USDC of shares fails for want of shares;
    withdrawing 50 USDC of shares releases
    [floor(50000000 * 100050000 / 100000000) = 50025000]. *)
Lemma C7_witness :
  withdraw (mkEnv 3 1030 true) 101000000 sample_pool
    = Err (Revert "Insufficient shares") /\
  90000000 <= sharesOf sample_pool 3 /\
  withdraw (mkEnv 3 1030 true) 90000000 sample_pool
    = Err (Revert "Insufficient pool liquidity") /\
  (exists s',
      withdraw (mkEnv 3 1030 true) 50000000 sample_pool = Ok s' /\
      sharesOf s' 3 = 50000000 /\
      totalShares s' = 50000000 /\
      totalLiquidity s' = 80000000 - 50025000).
Proof.
  split.
  { apply (proj1 (proj2 C7_withdraw_is_capped_by_cash)); crunch. }
  split; [crunch|]. split.
  { apply (proj1 (proj2 (proj2 C7_withdraw_is_capped_by_cash))
             (mkEnv 3 1030 true) 90000000 100050000 sample_pool); crunch. }
  destruct (proj2 (proj2 (proj2 (proj2 C7_withdraw_is_capped_by_cash)))
              (mkEnv 3 1030 true) 50000000 100050000 sample_pool
              sample_pool_books) as (s' & Hrun); try crunch.
  exists s'. split; [exact Hrun|].
  destruct (proj1 (proj2 (proj2 (proj2 C7_withdraw_is_capped_by_cash)))
              _ _ _ _ Hrun) as (ta & Hta & _ & _ & _ & Hmine & Hts & Htl).
  injection Hta as <-. cbn [msg_sender] in Hmine.
  rewrite Hmine, Hts, Htl. repeat split.
Defined.

(** ** Limit growth *)

(** C8.  The grown limit is [min(floor(currentLimit * 110 / 100), MAX_LIMIT)];
    it is never above [MAX_LIMIT], growing from [MAX_LIMIT] gives
    [MAX_LIMIT] again, and so does any number of repeated growth steps from a
    limit within the cap.  Once the ledger has taken a repayment, whatever
    its amount, [handleRepay] runs to a successful answer, and whenever it
    answers with success the ledger's credit limit afterwards is the grown
    limit if that is strictly greater than the limit read before the
    repayment, and is the limit read before the repayment otherwise. *)
Theorem C8_limit_growth :
  (forall l : Z,
      (0 <= l)%Z ->
      calculateGrowthLimit l = Z.min (l * 110 / 100) MAX_LIMIT) /\
  (forall l : Z,
      (l <= MAX_LIMIT)%Z -> (calculateGrowthLimit l <= MAX_LIMIT)%Z) /\
  calculateGrowthLimit MAX_LIMIT = MAX_LIMIT /\
  (forall (n : nat) (l : Z),
      (l <= MAX_LIMIT)%Z -> (Nat.iter n calculateGrowthLimit l <= MAX_LIMIT)%Z) /\
  (forall (X : Externals) (a : address) (amount : string) (w w' : World)
          (resp : CredexResponse),
      handleRepay X a amount w = (Return resp, w') ->
      success resp = true ->
      exists agent w1,
        ensureActiveAgent X a w = (Return agent, w1) /\
        let currentLimit := Z.of_N (creditLimit agent) in
        let newLimit := calculateGrowthLimit currentLimit in
        ((currentLimit < newLimit)%Z ->
         creditLimit (agentOf (ledger w') a) = Z.to_N newLimit) /\
        ((newLimit <= currentLimit)%Z ->
         creditLimit (agentOf (ledger w') a) = creditLimit agent)) /\
  (forall (X : Externals) (a : address) (amount : string) (amountWei : Z)
          (w w1 w2 : World) (agent : AgentAccount) (u : unit),
      parseUnits X amount = Some amountWei ->
      ensureActiveAgent X a w = (Return agent, w1) ->
      client_repay X a amountWei w1 = (Return u, w2) ->
      exists resp w',
        handleRepay X a amount w = (Return resp, w') /\
        success resp = true /\
        creditLimit (agentOf (ledger w') a)
          = Z.to_N (Z.max (Z.of_N (creditLimit agent))
                      (calculateGrowthLimit (Z.of_N (creditLimit agent))))).
Proof.
  split; [|split; [|split; [|split; [|split]]]];
    [| | | | | exact handleRepay_after_repay].
  - intros l Hl. unfold calculateGrowthLimit, GROWTH_FACTOR_BP.
    rewrite Z.quot_div_nonneg by lia.
    destruct (Z.ltb_spec MAX_LIMIT (l * 110 / 100)); lia.
  - intros l _. apply calculateGrowthLimit_le_MAX.
  - reflexivity.
  - intros n l Hl. destruct n as [|n]; simpl.
    + exact Hl.
    + apply calculateGrowthLimit_le_MAX.
  - intros X a amount w w' resp H Hs. unfold handleRepay in H.
    apply try_catch_success in H; [|exact Hs].
    destruct (parseUnits X amount) as [amountWei|]; [|discriminate H].
    apply await_Return in H as (agent & w1 & Hens & H).
    exists agent, w1. split; [exact Hens|].
    apply ensureActiveAgent_reads, getAgentState_shape in Hens as (d & ->).
    cbn [creditLimit with_debt] in *.
    apply await_Return in H as (u & w2 & Hrepay & H).
    unfold client_repay in Hrepay.
    destruct (is_uint256 amountWei); [|discriminate Hrepay].
    apply send_Return in Hrepay as (Hrepay & _ & _).
    apply repay_creditLimit in Hrepay.
    apply await_Return in H as (u' & w3 & Hset & H).
    apply await_Return in H as (updated & w4 & Hget & H).
    apply getAgent_Return in Hget as [-> _].
    unfold ret in H. injection H as _ <-.
    split.
    + intros Hlt. apply Z.ltb_lt in Hlt. rewrite Hlt in Hset.
      unfold client_setCreditLimit in Hset.
      destruct (is_uint256 _); [|discriminate Hset].
      apply send_Return in Hset as (Hset & _ & _).
      apply (setCreditLimit_creditLimit _ _ _ _ _ Hset).
    + intros Hge. apply Z.ltb_ge in Hge. rewrite Hge in Hset.
      unfold ret in Hset. injection Hset as _ <-. exact Hrepay.
Qed.

(** Repaying 0.07 USDC on the sample account (limit 50 USDC) takes the limit
    to 55 USDC; on an account already at the cap the limit stays. *)
Lemma C8_witness :
  (exists resp w',
      handleRepay (sample_externals None) 4 "0.07" (mkWorld sample_pool 1030 ∅)
        = (Return resp, w') /\
      success resp = true /\
      creditLimit (agentOf (ledger w') 4) = 55000000) /\
  (exists resp w',
      handleRepay (sample_externals None) 4 "0.07" (mkWorld capped_pool 1030 ∅)
        = (Return resp, w') /\
      success resp = true /\
      creditLimit (agentOf (ledger w') 4) = Z.to_N MAX_LIMIT).
Proof.
  split.
  - destruct (handleRepay (sample_externals None) 4 "0.07"
                (mkWorld sample_pool 1030 ∅)) as [[resp|e] w'] eqn:Hrun;
      [|vm_compute in Hrun; discriminate Hrun].
    assert (Hs : success resp = true).
    { vm_compute in Hrun. injection Hrun as <- _. reflexivity. }
    exists resp, w'. split; [reflexivity|]. split; [exact Hs|].
    destruct (proj1 (proj2 (proj2 (proj2 (proj2 C8_limit_growth))))
                _ _ _ _ _ _ Hrun Hs)
      as (agent & w1 & Hens & Hgrow & _).
    vm_compute in Hens. injection Hens as <- _.
    apply Hgrow. reflexivity.
  - destruct (handleRepay (sample_externals None) 4 "0.07"
                (mkWorld capped_pool 1030 ∅)) as [[resp|e] w'] eqn:Hrun;
      [|vm_compute in Hrun; discriminate Hrun].
    assert (Hs : success resp = true).
    { vm_compute in Hrun. injection Hrun as <- _. reflexivity. }
    exists resp, w'. split; [reflexivity|]. split; [exact Hs|].
    destruct (proj1 (proj2 (proj2 (proj2 (proj2 C8_limit_growth))))
                _ _ _ _ _ _ Hrun Hs)
      as (agent & w1 & Hens & _ & Hsame).
    vm_compute in Hens. injection Hens as <- _.
    apply Hsame. vm_compute. discriminate.
Defined.

(** ** Onboarding *)

(** C9, as stated, fails: asked to onboard the sample agent, which the
    ledger reports as active, [handleOnboard] answers with
    [success = false], the flag by which a caller such as
    [ensureActiveAgent] tells a failed onboarding. *)
Lemma C9_counterexample :
  let X := sample_externals None in
  let w := mkWorld sample_pool 1030 ∅ in
  (exists st, fst (getAgent X 4 w) = Return st /\ active st = true) /\
  exists resp,
    fst (handleOnboard X 4 "7" w) = Return resp /\
    success resp = false /\
    success resp <> true.
Proof.
  split.
  - eexists. split; [vm_compute; reflexivity | reflexivity].
  - eexists. split; [vm_compute; reflexivity|].
    split; [reflexivity | discriminate].
Qed.

(** C9 (amended).  For an identity that the ledger reports as active,
    [handleOnboard] does not throw and changes nothing, neither on the ledger
    nor in the agent's memory; it answers with [success = false], the
    message "Agent already onboarded", and the reported debt and credit
    limit as data. *)
Theorem C9_already_onboarded :
  forall (X : Externals) (a : address) (agentId : string) (w : World)
         (existing : AgentAccount),
    getAgentState (mkEnv (signer X) (clock w) true) (ledger w) a = Ok existing ->
    active existing = true ->
    handleOnboard X a agentId w =
      (Return (mkResponse false (Some "Agent already onboarded")
                 (Some (mkData None None (Some (Z.of_N (debt existing)))
                          (Some (Z.of_N (creditLimit existing))) None None))),
       w).
Proof.
  intros X a agentId w existing Hget Hact.
  unfold handleOnboard, try_catch, await, getAgent.
  rewrite Hget, Hact. reflexivity.
Qed.

Lemma C9_witness :
  handleOnboard (sample_externals None) 4 "7" (mkWorld sample_pool 1030 ∅) =
    (Return (mkResponse false (Some "Agent already onboarded")
               (Some (mkData None None (Some 20050000%Z) (Some 50000000%Z)
                        None None))),
     mkWorld sample_pool 1030 ∅).
Proof.
  apply (C9_already_onboarded (sample_externals None) 4 "7"
           (mkWorld sample_pool 1030 ∅) sample_account); reflexivity.
Defined.




(** * Further properties of the pool, the agent and the reputation module *)

(** ** Who may do what *)

(** X1.  A caller other than the clearing agent is turned away from every
    [onlyAgent] function with "Not Credex agent", and no transaction of such
    a caller changes an agent account or the debt tracker. *)
Theorem X1_only_the_agent_writes_the_ledger :
  forall (s : CredexPool) (env : Env) (c : Call),
    msg_sender env <> credexAgent s ->
    (isAgentCall c = true -> call env c s = Err (Revert "Not Credex agent")) /\
    agents (transact s (env, c)) = agents s /\
    globalTotalDebt (transact s (env, c)) = globalTotalDebt s.
Proof.
  intros s env c Hne.
  pose proof (onlyAgent_rejects env s Hne) as Hrej.
  assert (Hcall : isAgentCall c = true ->
                  call env c s = Err (Revert "Not Credex agent")).
  { destruct c; simpl; try discriminate; intros _;
      unfold onboardAgent, setCreditLimit, borrow, repay, freeze, unfreeze;
      rewrite Hrej; reflexivity. }
  split; [exact Hcall|].
  unfold transact; cbn [fst snd].
  destruct (isAgentCall c) eqn:Hkind.
  - rewrite (Hcall eq_refl). split; reflexivity.
  - destruct (call env c s) as [s'|e] eqn:Hrun; [|split; reflexivity].
    destruct c; try discriminate Hkind; simpl in Hrun.
    + unfold deposit in Hrun. apply bind_Ok in Hrun as (? & _ & H).
      apply bind_Ok in H as (? & _ & H). apply bind_Ok in H as (? & _ & H).
      inv_ok. split; reflexivity.
    + unfold withdraw in Hrun. inv_ok. split; reflexivity.
    + unfold setAgent in Hrun. inv_ok. split; reflexivity.
Qed.

(** A provider (address 3) calling [freeze] on the sample agent is turned
    away and leaves the accounts as they were. *)
Lemma X1_witness :
  call (mkEnv 3 1030 true) (Freeze 4) sample_pool
    = Err (Revert "Not Credex agent") /\
  agents (transact sample_pool (mkEnv 3 1030 true, Freeze 4)) = agents sample_pool.
Proof.
  destruct (X1_only_the_agent_writes_the_ledger sample_pool
              (mkEnv 3 1030 true) (Freeze 4)) as (Hcall & Hagents & _).
  - crunch.
  - split; [apply Hcall; reflexivity | exact Hagents].
Defined.

(** X2.  The owner never changes, whatever is sent to the pool.  [setAgent]
    from anyone else fails with "Not owner"; from the owner it replaces the
    clearing agent and nothing else; and the clearing agent changes in no
    other way: a transaction after which it is different was the owner's
    [setAgent] with the new address. *)
Theorem X2_the_owner_appoints_the_agent :
  (forall (txs : list (Env * Call)) (s : CredexPool),
      owner (run txs s) = owner s) /\
  (forall (env : Env) (newAgent : address) (s : CredexPool),
      msg_sender env <> owner s ->
      setAgent env newAgent s = Err (Revert "Not owner")) /\
  (forall (env : Env) (newAgent : address) (s : CredexPool),
      msg_sender env = owner s ->
      setAgent env newAgent s = Ok (set_credexAgent newAgent s)) /\
  (forall (s : CredexPool) (env : Env) (c : Call),
      credexAgent (transact s (env, c)) <> credexAgent s ->
      msg_sender env = owner s /\
      c = SetAgent (credexAgent (transact s (env, c)))).
Proof.
  split; [|split; [|split]].
  - intros txs. induction txs as [|tx txs IH]; intros s; simpl; [reflexivity|].
    rewrite IH. unfold transact.
    destruct (call (fst tx) (snd tx) s) eqn:Hrun; [|reflexivity].
    eapply call_owner; eassumption.
  - intros env newAgent s Hne. unfold setAgent, onlyOwner, require.
    apply N.eqb_neq in Hne. rewrite Hne. reflexivity.
  - intros env newAgent s Heq. unfold setAgent, onlyOwner, require.
    rewrite Heq, N.eqb_refl. reflexivity.
  - intros s env c Hchanged. unfold transact in *; cbn [fst snd] in *.
    destruct (call env c s) as [s'|e] eqn:Hrun; [|congruence].
    destruct (call_credexAgent _ _ _ _ Hrun) as [Hsame|Hset];
      [congruence | exact Hset].
Qed.

(** On the sample pool (owner 1, agent 2): the agent cannot appoint its
    successor; once the owner appoints address 9, address 2 is turned away
    and address 9 is served. *)
Lemma X2_witness :
  setAgent (mkEnv 2 1030 true) 9 sample_pool = Err (Revert "Not owner") /\
  (let s' := transact sample_pool (mkEnv 1 1030 true, SetAgent 9) in
   credexAgent s' = 9 /\
   call (mkEnv 2 1030 true) (Freeze 4) s' = Err (Revert "Not Credex agent") /\
   exists s'', call (mkEnv 9 1030 true) (Freeze 4) s' = Ok s'').
Proof.
  split.
  - apply (proj1 (proj2 X2_the_owner_appoints_the_agent)). crunch.
  - split; [reflexivity|]. split; [reflexivity|].
    eexists. vm_compute. reflexivity.
Defined.

(** X3.  Onboarding is once and for all: an account that is active stays
    active through every sequence of transactions, and [onboardAgent] never
    succeeds on it again, so nothing can reset its debt or principal. *)
Theorem X3_active_is_forever :
  forall (txs : list (Env * Call)) (s : CredexPool) (a : address),
    active (agentOf s a) = true ->
    active (agentOf (run txs s) a) = true /\
    (forall env limit,
        msg_sender env = credexAgent (run txs s) ->
        onboardAgent env a limit (run txs s) = Err (Revert "Already onboarded")) /\
    (forall env limit s', onboardAgent env a limit (run txs s) <> Ok s').
Proof.
  intros txs s a Hact.
  assert (Hrun : active (agentOf (run txs s) a) = true).
  { revert s Hact. induction txs as [|tx txs IH]; intros s Hact; simpl;
      [exact Hact|].
    apply IH. unfold transact.
    destruct (call (fst tx) (snd tx) s) eqn:Hcall; [|exact Hact].
    eapply call_active; eassumption. }
  split; [exact Hrun|]. split.
  - intros env limit Hsender. unfold onboardAgent.
    rewrite (onlyAgent_fits _ _ Hsender); cbn [bind].
    rewrite Hrun. reflexivity.
  - intros env limit s' H. unfold onboardAgent in H.
    apply bind_Ok in H as (? & _ & H).
    apply bind_Ok in H as (? & Hnew & _). apply require_Ok in Hnew.
    rewrite Hrun in Hnew. discriminate Hnew.
Qed.

(** The sample agent after a repayment and a freeze: still active, and a
    second onboarding is refused. *)
Lemma X3_witness :
  let txs := [(mkEnv 2 1030 true, Repay 4 70000); (mkEnv 2 1040 true, Freeze 4)] in
  active (agentOf (run txs sample_pool) 4) = true /\
  onboardAgent (mkEnv 2 1050 true) 4 1 (run txs sample_pool)
    = Err (Revert "Already onboarded").
Proof.
  intros txs.
  destruct (X3_active_is_forever txs sample_pool 4) as (Hact & Hre & _).
  - reflexivity.
  - split; [exact Hact | apply Hre; reflexivity].
Defined.

(** ** Freezing *)

(** X4.  A successful [freeze] sets the flag and nothing else; from then on
    the available credit is 0 and no borrow on the account succeeds (the
    clearing agent's own is answered "Account frozen"), whatever the amount
    and the time.  Repayment does not look at the flag: on the frozen
    account [repay] fails or succeeds exactly as on the unfrozen one, with
    the same result up to the flag.  And [unfreeze] undoes the [freeze] of
    an unfrozen account exactly. *)
Theorem X4_freeze_blocks_borrow_not_repay :
  (forall (env : Env) (a : address) (s s' : CredexPool),
      freeze env a s = Ok s' ->
      s' = flagged a true s /\
      availableCredit s' a = 0 /\
      (forall env' amount s'', borrow env' a amount s' <> Ok s'') /\
      (forall env' amount,
          msg_sender env' = credexAgent s' ->
          borrow env' a amount s' = Err (Revert "Account frozen"))) /\
  (forall (env : Env) (a : address) (amount : N) (b : bool) (s : CredexPool),
      repay env a amount (flagged a b s) =
      match repay env a amount s with
      | Ok s' => Ok (flagged a b s')
      | Err e => Err e
      end) /\
  (forall (env env' : Env) (a : address) (s s1 : CredexPool),
      frozen (agentOf s a) = false ->
      freeze env a s = Ok s1 ->
      msg_sender env' = credexAgent s ->
      unfreeze env' a s1 = Ok s).
Proof.
  split; [|split].
  - intros env a s s' H. unfold freeze in H.
    apply bind_Ok in H as (? & _ & H).
    apply bind_Ok in H as (? & Hact & H). apply require_Ok in Hact.
    injection H as <-. fold (flagged a true s).
    split; [reflexivity|].
    assert (Hfrozen : frozen (agentOf (flagged a true s) a) = true)
      by (rewrite agentOf_flagged_eq; reflexivity).
    assert (Hactive : active (agentOf (flagged a true s) a) = true)
      by (rewrite agentOf_flagged_eq; exact Hact).
    split; [|split].
    + unfold availableCredit. rewrite Hfrozen, orb_true_r. reflexivity.
    + intros env' amount s'' H. unfold borrow in H.
      apply bind_Ok in H as (? & _ & H).
      apply bind_Ok in H as (? & _ & H).
      apply bind_Ok in H as (? & Hfr & _). apply require_Ok in Hfr.
      rewrite Hfrozen in Hfr. discriminate Hfr.
    + intros env' amount Hsender. unfold borrow.
      rewrite (onlyAgent_fits _ _ Hsender); cbn [bind].
      rewrite Hactive, Hfrozen. reflexivity.
  - intros env a amount b s. apply repay_flagged.
  - intros env env' a s s1 Hfr H Hsender. unfold freeze in H.
    apply bind_Ok in H as (? & _ & H).
    apply bind_Ok in H as (? & Hact & H). apply require_Ok in Hact.
    injection H as <-. fold (flagged a true s).
    unfold unfreeze.
    rewrite onlyAgent_fits by exact Hsender; cbn [bind].
    rewrite agentOf_flagged_eq. cbn [active with_frozen].
    rewrite Hact; cbn [require bind].
    change (set_agent a (with_frozen false (with_frozen true (agentOf s a)))
              (flagged a true s))
      with (set_agent a (with_frozen false (agentOf s a)) (flagged a true s)).
    unfold flagged at 1. rewrite set_agent_twice.
    fold (flagged a false s). rewrite <- Hfr. f_equal. apply flagged_id, Hact.
Qed.

(** The sample agent is frozen at time 1040: a borrow of one unit is
    refused, a repayment of 70000 goes through as before, and unfreezing
    gives the sample pool back. *)
Lemma X4_witness :
  let frozen_pool := transact sample_pool (mkEnv 2 1040 true, Freeze 4) in
  borrow (mkEnv 2 1050 true) 4 1 frozen_pool = Err (Revert "Account frozen") /\
  (exists s', repay (mkEnv 2 1050 true) 4 70000 frozen_pool = Ok s' /\
              debt (agentOf s' 4) = 19980000) /\
  unfreeze (mkEnv 2 1050 true) 4 frozen_pool = Ok sample_pool.
Proof.
  intros frozen_pool.
  assert (Hfreeze : freeze (mkEnv 2 1040 true) 4 sample_pool = Ok frozen_pool)
    by reflexivity.
  destruct (proj1 X4_freeze_blocks_borrow_not_repay _ _ _ _ Hfreeze)
    as (_ & _ & _ & Hborrow).
  split; [apply Hborrow; reflexivity|]. split.
  - eexists. split; [vm_compute; reflexivity | reflexivity].
  - apply (proj2 (proj2 X4_freeze_blocks_borrow_not_repay)
             (mkEnv 2 1040 true) (mkEnv 2 1050 true) 4 sample_pool frozen_pool);
      reflexivity.
Defined.

(** ** The status view *)

(** X5.  The debt that [getAgentState] reports at a time is exactly the debt
    that the accrual run by a borrow or a repay at that time books: whenever
    the accrual goes through on an account whose stored debt is a uint256,
    the view goes through and returns the stored account with that debt,
    its watermark and all other fields as stored. *)
Theorem X5_view_reports_the_accrued_debt :
  forall (env : Env) (a : address) (s s1 : CredexPool),
    debt (agentOf s a) <= MAX_UINT256 ->
    _accrueInterest env a s = Ok s1 ->
    getAgentState env s a = Ok (with_debt (debt (agentOf s1 a)) (agentOf s a)).
Proof. exact accrue_then_view. Qed.

(** One interval and 17 seconds after the loan of 50 USDC the view reports
    50.05 USDC of debt, with the watermark still at 1000. *)
Lemma X5_witness :
  exists st,
    getAgentState (mkEnv 2 1077 true) loan_pool 4 = Ok st /\
    debt st = 50050000 /\ lastAccrued st = 1000.
Proof.
  destruct (_accrueInterest (mkEnv 2 1077 true) 4 loan_pool) as [s1|e] eqn:Hacc;
    [|vm_compute in Hacc; discriminate Hacc].
  pose proof (X5_view_reports_the_accrued_debt (mkEnv 2 1077 true) 4 loan_pool s1
                ltac:(crunch) Hacc) as Hview.
  eexists. split; [exact Hview|].
  vm_compute in Hacc. injection Hacc as <-. split; reflexivity.
Defined.

(** ** The value in the pool *)

(** X6.  What each successful call does to the assets of the pool (cash
    plus lent-out debt): a deposit adds the amount, a withdrawal takes out
    exactly the assets it releases, a borrow and a repay change it only by
    the interest that their accrual books on the account (cash and debt are
    exchanged one for one), and every other call leaves it alone. *)
Theorem X6_assets_move_only_by_cash_and_interest :
  forall (env : Env) (c : Call) (s s' : CredexPool),
    call env c s = Ok s' ->
    match c with
    | Deposit assets => poolAssets s' = poolAssets s + assets
    | Withdraw shares =>
        poolAssets s' + assetsReleased s (poolAssets s) shares = poolAssets s
    | Borrow a _ | Repay a _ =>
        exists s1,
          _accrueInterest env a s = Ok s1 /\
          poolAssets s' = poolAssets s1 /\
          poolAssets s1
            = poolAssets s + (debt (agentOf s1 a) - debt (agentOf s a))
    | _ => poolAssets s' = poolAssets s
    end.
Proof.
  intros env c s s' H. unfold poolAssets.
  destruct c;
    try (apply other_calls_frame in H as (_ & -> & ->); reflexivity);
    simpl in H.
  - apply deposit_value in H as (_ & -> & -> & _). lia.
  - apply withdraw_value in H as (_ & _ & Hcash & -> & -> & _).
    unfold poolAssets in *. lia.
  - apply borrow_value in H as (s1 & Hacc & Hliq & _ & -> & ->).
    exists s1. split; [exact Hacc|].
    apply accrue_value in Hacc as (_ & Htl & Hg & _ & Heq).
    rewrite <- Heq. lia.
  - apply repay_value in H as (s1 & paid & Hacc & _ & Hpaid & _ & -> & ->).
    exists s1. split; [exact Hacc|].
    apply accrue_value in Hacc as (_ & Htl & Hg & _ & Heq).
    rewrite <- Heq. lia.
Qed.

(** A borrow of 30 USDC from the sample pool at time 1030: the assets stay
    at 100.05 USDC. *)
Lemma X6_witness :
  exists s',
    call (mkEnv 2 1030 true) (Borrow 4 30000000) sample_pool = Ok s' /\
    poolAssets sample_pool = 100050000 /\
    poolAssets s' = 100050000.
Proof.
  destruct (call (mkEnv 2 1030 true) (Borrow 4 30000000) sample_pool)
    as [s'|e] eqn:Hrun; [|vm_compute in Hrun; discriminate Hrun].
  exists s'. split; [reflexivity|]. split; [reflexivity|].
  destruct (X6_assets_move_only_by_cash_and_interest _ _ _ _ Hrun)
    as (s1 & Hacc & -> & ->).
  vm_compute in Hacc. injection Hacc as <-. reflexivity.
Defined.

(** X7.  No transaction dilutes the shares: while shares exist, the assets
    per share after any transaction, failed or not, are at least what they
    were before (compared by cross-multiplication).  The floor in the
    minting and in the release always falls on the side of the pool. *)
Theorem X7_share_price_never_falls :
  forall (s : CredexPool) (tx : Env * Call),
    totalShares s <> 0 ->
    poolAssets s * totalShares (transact s tx)
      <= poolAssets (transact s tx) * totalShares s.
Proof.
  intros s tx Hts. unfold transact.
  destruct (call (fst tx) (snd tx) s) as [s'|e] eqn:Hrun.
  - eapply call_price; eassumption.
  - lia.
Qed.

(** 100 shares against 200 of assets: a deposit of 51 mints 25 shares, and
    [200 * 125 <= 251 * 100]. *)
Lemma X7_witness :
  let s' := transact pool_100_200 (mkEnv 5 2000 true, Deposit 51) in
  totalShares s' = 125 /\ poolAssets s' = 251 /\
  poolAssets pool_100_200 * totalShares s'
    <= poolAssets s' * totalShares pool_100_200.
Proof.
  intros s'. split; [reflexivity|]. split; [reflexivity|].
  apply (X7_share_price_never_falls pool_100_200 (mkEnv 5 2000 true, Deposit 51)).
  crunch.
Defined.

(** X8.  Depositing and at once withdrawing the shares just minted never
    takes cash out of the pool: when shares exist already, the withdrawal
    releases at most what was deposited. *)
Theorem X8_deposit_then_withdraw_gains_nothing :
  forall (env env' : Env) (amount : N) (s s1 s2 : CredexPool),
    totalShares s <> 0 ->
    deposit env amount s = Ok s1 ->
    withdraw env' (totalShares s1 - totalShares s) s1 = Ok s2 ->
    assetsReleased s1 (poolAssets s1) (totalShares s1 - totalShares s) <= amount /\
    totalLiquidity s <= totalLiquidity s2 /\
    totalShares s2 = totalShares s.
Proof.
  intros env env' amount s s1 s2 Hts Hdep Hwd.
  apply deposit_value in Hdep as (Hpos & Hg & Htl & Hshares & Hnz).
  apply withdraw_value in Hwd as (_ & _ & Hcash & _ & Htl2 & Hts2).
  assert (Hminted : totalShares s1 - totalShares s
                    = amount * totalShares s / poolAssets s).
  { rewrite Hshares. unfold sharesMinted.
    apply N.eqb_neq in Hts. rewrite Hts.
    generalize (amount * totalShares s / poolAssets s). intros q. lia. }
  rewrite Hminted in *.
  set (m := amount * totalShares s / poolAssets s) in *.
  assert (Hfloor : m * poolAssets s <= amount * totalShares s).
  { unfold m. rewrite N.mul_comm. apply N.Div0.mul_div_le. }
  assert (HA1 : poolAssets s1 = poolAssets s + amount)
    by (unfold poolAssets; lia).
  assert (Hts1 : totalShares s1 = totalShares s + m).
  { rewrite Hshares. unfold sharesMinted.
    apply N.eqb_neq in Hts. rewrite Hts. reflexivity. }
  assert (Hout : assetsReleased s1 (poolAssets s1) m <= amount).
  { unfold assetsReleased. rewrite HA1, Hts1.
    apply N.Div0.div_le_upper_bound. nia. }
  split; [exact Hout|]. split; lia.
Qed.

(** Depositing 51 against 100 shares and 200 of assets mints 25 shares;
    withdrawing them releases [floor(25 * 251 / 125) = 50]. *)
Lemma X8_witness :
  exists s1 s2,
    deposit (mkEnv 5 2000 true) 51 pool_100_200 = Ok s1 /\
    withdraw (mkEnv 5 2000 true) (totalShares s1 - totalShares pool_100_200) s1
      = Ok s2 /\
    assetsReleased s1 (poolAssets s1) (totalShares s1 - totalShares pool_100_200)
      = 50 /\
    totalLiquidity pool_100_200 <= totalLiquidity s2.
Proof.
  destruct (deposit (mkEnv 5 2000 true) 51 pool_100_200) as [s1|e] eqn:Hdep;
    [|vm_compute in Hdep; discriminate Hdep].
  destruct (withdraw (mkEnv 5 2000 true)
              (totalShares s1 - totalShares pool_100_200) s1) as [s2|e] eqn:Hwd.
  - exists s1, s2. split; [reflexivity|]. split; [exact Hwd|].
    assert (Hne : totalShares pool_100_200 <> 0) by crunch.
    destruct (X8_deposit_then_withdraw_gains_nothing _ _ _ _ _ _
                Hne Hdep Hwd) as (_ & Hcash & _).
    split; [|exact Hcash].
    vm_compute in Hdep. injection Hdep as <-. reflexivity.
  - exfalso. vm_compute in Hdep. injection Hdep as <-.
    vm_compute in Hwd. discriminate Hwd.
Defined.

(** X9.  In every state reached from the constructor, shares are backed:
    [totalShares > 0] implies [totalLiquidity + totalDebt > 0].  So the two
    divisions of the vault are safe there: neither [deposit] nor [withdraw]
    ever fails with a division by zero. *)
Theorem X9_no_division_by_zero :
  forall (deployer agent : address) (txs : list (Env * Call)),
    let s := run txs (constructor deployer agent) in
    Backed s /\
    (forall env assets, deposit env assets s <> Err (Panic DIV_BY_ZERO)) /\
    (forall env shares, withdraw env shares s <> Err (Panic DIV_BY_ZERO)).
Proof.
  intros deployer agent txs s.
  assert (HB : Backed s).
  { apply run_backed. intros H. exfalso. apply H. reflexivity. }
  pose proof (run_books txs _ (constructor_books deployer agent)) as HBooks.
  fold s in HBooks.
  split; [exact HB|]. split.
  - intros env assets H. unfold deposit in H.
    destruct (require (0 <? assets) "Zero amount") as [u|e] eqn:E0;
      cbn [bind] in H; [|unfold require in E0; destruct (0 <? assets); congruence].
    destruct (totalAssets s) as [ta|e] eqn:Hta; cbn [bind] in H;
      [|unfold totalAssets in Hta; not_a_div Hta H].
    assert (Hta' : ta = poolAssets s).
    { unfold totalAssets in Hta. apply add_Ok in Hta as [-> _]. reflexivity. }
    destruct (N.eqb_spec (totalShares s) 0) as [Hz|Hnz]; cbn [bind] in H.
    + destruct (usdc_call env) eqn:E1; cbn [bind] in H; [|not_a_div E1 H].
      destruct (add (sharesOf s (msg_sender env)) assets) eqn:E2;
        cbn [bind] in H; [|not_a_div E2 H].
      destruct (add (totalShares s) assets) eqn:E3; cbn [bind] in H;
        [|not_a_div E3 H].
      destruct (add (totalLiquidity s) assets) eqn:E4; cbn [bind] in H;
        [discriminate H | not_a_div E4 H].
    + destruct (mul assets (totalShares s)) as [m|e] eqn:E5; cbn [bind] in H;
        [|not_a_div E5 H].
      rewrite div_fits in H by (rewrite Hta'; apply HB, Hnz). cbn [bind] in H.
      destruct (usdc_call env) eqn:E1; cbn [bind] in H; [|not_a_div E1 H].
      destruct (add (sharesOf s (msg_sender env)) (m / ta)) eqn:E2;
        cbn [bind] in H; [|not_a_div E2 H].
      destruct (add (totalShares s) (m / ta)) eqn:E3; cbn [bind] in H;
        [|not_a_div E3 H].
      destruct (add (totalLiquidity s) assets) eqn:E4; cbn [bind] in H;
        [discriminate H | not_a_div E4 H].
  - intros env shares H. unfold withdraw in H.
    destruct (N.ltb_spec 0 shares) as [Hpos|Hzero]; cbn [require bind] in H;
      [|discriminate H].
    destruct (N.leb_spec shares (sharesOf s (msg_sender env))) as [Hle|Hgt];
      cbn [require bind] in H; [|discriminate H].
    pose proof (sharesOf_le_sumShares s (msg_sender env)) as Hsum.
    rewrite (books_shares s HBooks) in Hsum.
    destruct (totalAssets s) as [ta|e] eqn:Hta; cbn [bind] in H;
      [|unfold totalAssets in Hta; not_a_div Hta H].
    destruct (mul shares ta) as [m|e] eqn:E5; cbn [bind] in H; [|not_a_div E5 H].
    rewrite div_fits in H by lia. cbn [bind] in H.
    destruct (m / totalShares s <=? totalLiquidity s); cbn [require bind] in H;
      [|discriminate H].
    destruct (sub (sharesOf s (msg_sender env)) shares) eqn:E2; cbn [bind] in H;
      [|not_a_div E2 H].
    destruct (sub (totalShares s) shares) eqn:E3; cbn [bind] in H;
      [|not_a_div E3 H].
    destruct (sub (totalLiquidity s) (m / totalShares s)) eqn:E4;
      cbn [bind] in H; [|not_a_div E4 H].
    destruct (usdc_call env) eqn:E1; cbn [bind] in H;
      [discriminate H | not_a_div E1 H].
Qed.

(** ** Borrowing and repaying *)

(** X10.  Repaying at least the whole debt clears the account: in a pool
    whose books balance, a repayment of any amount not below the accrued
    debt goes through (the token willing), takes exactly the debt, leaves
    debt and principal at 0, and the available credit is then the whole
    credit limit (or 0 while the account is frozen). *)
Theorem X10_paying_in_full_clears_the_account :
  forall (env : Env) (a : address) (amount : N) (s s1 : CredexPool),
    Books s ->
    Covered s ->
    msg_sender env = credexAgent s ->
    active (agentOf s a) = true ->
    _accrueInterest env a s = Ok s1 ->
    usdc_ok env = true ->
    debt (agentOf s1 a) <= amount ->
    totalLiquidity s + debt (agentOf s1 a) <= MAX_UINT256 ->
    exists s',
      repay env a amount s = Ok s' /\
      debt (agentOf s' a) = 0 /\
      principal (agentOf s' a) = 0 /\
      totalLiquidity s' = totalLiquidity s + debt (agentOf s1 a) /\
      availableCredit s' a
        = if frozen (agentOf s a) then 0 else creditLimit (agentOf s a).
Proof.
  intros env a amount s s1 HB HC Hsender Hact Hacc Husdc Hfull Hfit.
  pose proof (accrue_books _ _ _ _ Hacc HB) as HB1.
  pose proof (accrue_covered _ _ _ _ Hacc HC a) as Hcov.
  pose proof (debt_le_sumDebt s1 a) as Hle.
  rewrite (books_debt s1 HB1) in Hle.
  pose proof (accrue_totalLiquidity _ _ _ _ Hacc) as Hliq.
  assert (Hmin : N.min amount (debt (agentOf s1 a)) = debt (agentOf s1 a))
    by lia.
  eexists. split.
  - apply (repay_run env a amount s s1); try assumption.
    rewrite Hmin, Hliq. exact Hfit.
  - rewrite agentOf_after_repay. cbn zeta. rewrite Hmin.
    cbn [debt principal with_lastRepayment with_principal with_debt].
    split; [lia|]. split; [lia|]. split; [simpl; lia|].
    unfold availableCredit. rewrite agentOf_after_repay.
    cbn [active frozen creditLimit principal with_lastRepayment with_principal
         with_debt].
    rewrite (accrue_active _ _ _ _ Hacc), (accrue_frozen _ _ _ _ Hacc),
      (accrue_creditLimit _ _ _ _ Hacc), Hact.
    cbn [negb orb].
    destruct (frozen (agentOf s a)); [reflexivity|].
    replace (principal (agentOf s1 a) -
             (debt (agentOf s1 a) - (debt (agentOf s1 a) - principal (agentOf s1 a))))
      with 0 by lia.
    destruct (N.leb_spec (creditLimit (agentOf s a)) 0); lia.
Qed.

(** The sample agent owes 20.05 USDC; a repayment of 25 USDC takes 20.05
    USDC and leaves the whole limit of 50 USDC available. *)
Lemma X10_witness :
  exists s',
    repay (mkEnv 2 1030 true) 4 25000000 sample_pool = Ok s' /\
    debt (agentOf s' 4) = 0 /\
    totalLiquidity s' = 80000000 + 20050000 /\
    availableCredit s' 4 = 50000000.
Proof.
  destruct (X10_paying_in_full_clears_the_account (mkEnv 2 1030 true) 4 25000000
              sample_pool sample_pool sample_pool_books sample_pool_covered)
    as (s' & Hrun & Hd & _ & Hl & Hav); try crunch.
  exists s'. split; [exact Hrun|]. split; [exact Hd|].
  split; [exact Hl | exact Hav].
Defined.

(** X11.  A borrow that passes the limit check fails with "Insufficient
    liquidity" when the pool holds less cash than the amount; otherwise (the
    token willing, the counters within uint256) it adds the amount to
    principal and debt, takes it from the cash and shrinks the available
    credit by it.  There is no zero check: a borrow of 0 is accepted, and
    leaves principal, debt and cash as the accrual left them. *)
Theorem X11_borrow_moves_cash_into_debt :
  forall (env : Env) (a : address) (amount : N) (s s1 : CredexPool),
    msg_sender env = credexAgent s ->
    active (agentOf s a) = true ->
    frozen (agentOf s a) = false ->
    _accrueInterest env a s = Ok s1 ->
    let acc := agentOf s1 a in
    principal acc + amount <= creditLimit acc ->
    creditLimit acc <= MAX_UINT256 ->
    (totalLiquidity s1 < amount ->
     borrow env a amount s = Err (Revert "Insufficient liquidity")) /\
    (amount <= totalLiquidity s1 ->
     debt acc + amount <= MAX_UINT256 ->
     globalTotalDebt s1 + amount <= MAX_UINT256 ->
     usdc_ok env = true ->
     exists s',
       borrow env a amount s = Ok s' /\
       principal (agentOf s' a) = principal acc + amount /\
       debt (agentOf s' a) = debt acc + amount /\
       totalLiquidity s' = totalLiquidity s - amount /\
       availableCredit s' a + amount = availableCredit s a).
Proof.
  intros env a amount s s1 Hsender Hact Hfr Hacc acc Hlimit Hmax.
  split.
  - intros Hshort. unfold borrow.
    rewrite (onlyAgent_fits _ _ Hsender); cbn [bind].
    rewrite (require_fits _ _ Hact); cbn [bind].
    rewrite require_fits by (rewrite Hfr; reflexivity); cbn [bind].
    rewrite Hacc; cbn [bind]. fold acc.
    rewrite add_fits by lia; cbn [bind].
    rewrite require_fits by (apply N.leb_le; exact Hlimit); cbn [bind].
    apply N.leb_gt in Hshort. rewrite Hshort. reflexivity.
  - intros Hliq Hd Hg Husdc. eexists. split.
    + apply (borrow_run env a amount s s1); assumption.
    + unfold availableCredit. rewrite !agentOf_after_borrow.
      cbn [active frozen creditLimit principal debt with_debt with_principal].
      split; [reflexivity|]. split; [reflexivity|].
      split; [rewrite <- (accrue_totalLiquidity _ _ _ _ Hacc); reflexivity|].
      pose proof (accrue_active _ _ _ _ Hacc) as Ha.
      pose proof (accrue_frozen _ _ _ _ Hacc) as Hf.
      pose proof (accrue_creditLimit _ _ _ _ Hacc) as Hc.
      pose proof (accrue_watermark _ _ _ _ Hacc) as (_ & _ & Hp).
      unfold acc in *. rewrite Ha, Hf, Hact, Hfr. cbn [negb orb].
      rewrite Hc, Hp in *.
      destruct (N.leb_spec (creditLimit (agentOf s a))
                  (principal (agentOf s a) + amount));
        destruct (N.leb_spec (creditLimit (agentOf s a))
                    (principal (agentOf s a))); lia.
Qed.

(** The sample pool holds 80 USDC in cash.  With the limit raised to 200
    USDC a borrow of 90 USDC fails for want of cash, a borrow of 30 USDC
    goes through, and so does a borrow of 0. *)
Lemma X11_witness :
  let rich := transact sample_pool (mkEnv 2 1030 true, SetCreditLimit 4 200000000) in
  borrow (mkEnv 2 1030 true) 4 90000000 rich
    = Err (Revert "Insufficient liquidity") /\
  (exists s', borrow (mkEnv 2 1030 true) 4 30000000 rich = Ok s' /\
              principal (agentOf s' 4) = 50000000 /\
              debt (agentOf s' 4) = 50050000 /\
              totalLiquidity s' = 50000000) /\
  (exists s', borrow (mkEnv 2 1030 true) 4 0 rich = Ok s' /\
              principal (agentOf s' 4) = 20000000 /\
              debt (agentOf s' 4) = 20050000).
Proof.
  intros rich.
  split; [|split].
  - apply (X11_borrow_moves_cash_into_debt (mkEnv 2 1030 true) 4 90000000
             rich rich); crunch.
  - destruct (X11_borrow_moves_cash_into_debt (mkEnv 2 1030 true) 4 30000000
                rich rich) as (_ & Hok); try crunch.
    destruct Hok as (s' & Hrun & Hp & Hd & Hl & _); try crunch.
    exists s'. split; [exact Hrun|]. rewrite Hp, Hd, Hl. repeat split.
  - destruct (X11_borrow_moves_cash_into_debt (mkEnv 2 1030 true) 4 0
                rich rich) as (_ & Hok); try crunch.
    destruct Hok as (s' & Hrun & Hp & Hd & _); try crunch.
    exists s'. split; [exact Hrun|]. rewrite Hp, Hd. repeat split.
Defined.

(** X12.  Borrowing and handing the same amount back is not a round trip
    for the account.  When a borrow is followed by a repayment of the same
    amount, with no interest falling due in between, the debt and the pool's
    cash are back where the borrow's accrual left them, but the principal is
    not: the repayment goes to the outstanding interest first, so up to
    [amount] of that interest has been turned into principal, and the
    available credit has shrunk by as much. *)
Theorem X12_borrow_then_repay_capitalises_interest :
  forall (env env' : Env) (a : address) (amount : N) (s s1 s2 : CredexPool),
    borrow env a amount s = Ok s1 ->
    _accrueInterest env' a s1 = Ok s1 ->
    repay env' a amount s1 = Ok s2 ->
    exists s0,
      _accrueInterest env a s = Ok s0 /\
      debt (agentOf s2 a) = debt (agentOf s0 a) /\
      totalLiquidity s2 = totalLiquidity s0 /\
      principal (agentOf s2 a)
        = N.min (principal (agentOf s0 a) + amount) (debt (agentOf s0 a)) /\
      creditLimit (agentOf s2 a) = creditLimit (agentOf s0 a).
Proof.
  intros env env' a amount s s1 s2 Hb Hsame Hr.
  apply borrow_account in Hb as (s0 & Hacc & Hacct & Hliq & Hle).
  apply repay_account in Hr as (s1' & Hacc' & Hr).
  rewrite Hsame in Hacc'. injection Hacc' as <-.
  cbn zeta in Hr. destruct Hr as (Hcov & Hacct2 & Hliq2).
  exists s0. split; [exact Hacc|].
  rewrite Hacct2, Hliq2, Hliq, Hacct in *.
  cbn [debt principal creditLimit with_lastRepayment with_principal with_debt] in *.
  repeat split; lia.
Qed.

(** The sample agent (principal 20, debt 20.05 USDC) borrows 10 USDC and
    repays 10 USDC in the same block: the debt is 20.05 USDC again, the
    principal is 20.05 USDC. *)
Lemma X12_witness :
  exists s1 s2,
    borrow (mkEnv 2 1030 true) 4 10000000 sample_pool = Ok s1 /\
    repay (mkEnv 2 1030 true) 4 10000000 s1 = Ok s2 /\
    debt (agentOf s2 4) = 20050000 /\
    principal (agentOf s2 4) = 20050000 /\
    totalLiquidity s2 = 80000000.
Proof.
  pose (env := mkEnv 2 1030 true).
  pose (s1 := transact sample_pool (env, Borrow 4 10000000)).
  pose (s2 := transact s1 (env, Repay 4 10000000)).
  assert (Hb : borrow env 4 10000000 sample_pool = Ok s1) by crunch.
  assert (Hsame : _accrueInterest env 4 s1 = Ok s1) by crunch.
  assert (Hr : repay env 4 10000000 s1 = Ok s2) by crunch.
  exists s1, s2. split; [exact Hb|]. split; [exact Hr|].
  destruct (X12_borrow_then_repay_capitalises_interest
              env env 4 10000000 sample_pool s1 s2 Hb Hsame Hr)
    as (s0 & Hacc & Hd & Hl & Hp & _).
  assert (Hs0 : s0 = sample_pool) by (revert Hacc; crunch).
  subst s0. rewrite Hd, Hl, Hp. repeat split.
Defined.

(** ** Interest accrual *)

(** X13.  Accrual is idempotent and only moves forward.  Once
    [_accrueInterest] has run for an account, running it again at the same
    time, or at any later time less than one interval after the new
    watermark, changes nothing.  It never lowers the debt or the watermark,
    never moves the watermark past the current time, and never touches the
    principal, the credit limit or the pool's cash. *)
Theorem X13_accrual_is_idempotent :
  forall (env : Env) (a : address) (s s1 : CredexPool),
    _accrueInterest env a s = Ok s1 ->
    _accrueInterest env a s1 = Ok s1 /\
    (forall env' : Env,
        lastAccrued (agentOf s1 a) <= block_timestamp env' ->
        block_timestamp env' < lastAccrued (agentOf s1 a) + ACCRUAL_INTERVAL ->
        _accrueInterest env' a s1 = Ok s1) /\
    debt (agentOf s a) <= debt (agentOf s1 a) /\
    lastAccrued (agentOf s a) <= lastAccrued (agentOf s1 a) /\
    (lastAccrued (agentOf s1 a) = lastAccrued (agentOf s a) \/
     lastAccrued (agentOf s1 a) <= block_timestamp env) /\
    principal (agentOf s1 a) = principal (agentOf s a) /\
    creditLimit (agentOf s1 a) = creditLimit (agentOf s a) /\
    totalLiquidity s1 = totalLiquidity s.
Proof.
  intros env a s s1 Hacc.
  pose proof (accrue_watermark _ _ _ _ Hacc) as (Hmono & Hnow & Hp).
  split.
  { apply accrue_nothing_pending.
    exact (accrue_leaves_nothing_pending _ _ _ _ Hacc). }
  split.
  { intros env' Hlo Hhi. apply accrue_nothing_pending.
    right. right. split; [exact Hlo|].
    apply N.div_small. unfold ACCRUAL_INTERVAL in *. lia. }
  split.
  { exact (proj1 (proj2 (proj2 (proj2 (accrue_value _ _ _ _ Hacc))))). }
  split; [exact Hmono|]. split; [exact Hnow|]. split; [exact Hp|].
  split; [exact (accrue_creditLimit _ _ _ _ Hacc)|].
  exact (accrue_totalLiquidity _ _ _ _ Hacc).
Qed.

(** The sample agent at time 1130, two intervals and ten seconds after its
    watermark 1000: the accrual charges two intervals and moves the
    watermark to 1120; a second accrual at 1130 changes nothing. *)
Lemma X13_witness :
  exists s1,
    _accrueInterest (mkEnv 2 1130 true) 4 sample_pool = Ok s1 /\
    _accrueInterest (mkEnv 2 1130 true) 4 s1 = Ok s1 /\
    lastAccrued (agentOf s1 4) = 1120.
Proof.
  destruct (_accrueInterest (mkEnv 2 1130 true) 4 sample_pool) as [s1|] eqn:Hacc;
    [|exfalso; revert Hacc; crunch].
  exists s1. split; [reflexivity|].
  split.
  - exact (proj1 (X13_accrual_is_idempotent (mkEnv 2 1130 true) 4 sample_pool s1 Hacc)).
  - revert Hacc. vm_compute. intros Hacc. injection Hacc as <-. reflexivity.
Defined.

(** ** Accounts that were never onboarded *)

(** X14.  In a pool whose books balance, an account that is not active was
    never written: it reads as the all-zero account at any time, it has no
    available credit, and every agent operation on it other than onboarding
    (setCreditLimit, borrow, repay, freeze, unfreeze) is refused with
    "Not active", also for an amount of 0. *)
Theorem X14_inactive_accounts_are_blank :
  forall (env : Env) (a : address) (s : CredexPool),
    Books s ->
    active (agentOf s a) = false ->
    msg_sender env = credexAgent s ->
    (forall env' : Env, getAgentState env' s a = Ok zeroAccount) /\
    availableCredit s a = 0 /\
    (forall limit, setCreditLimit env a limit s = Err (Revert "Not active")) /\
    (forall amount, borrow env a amount s = Err (Revert "Not active")) /\
    (forall amount, repay env a amount s = Err (Revert "Not active")) /\
    freeze env a s = Err (Revert "Not active") /\
    unfreeze env a s = Err (Revert "Not active").
Proof.
  intros env a s HB Hina Hsender.
  assert (Hzero : agentOf s a = zeroAccount).
  { unfold agentOf in *. destruct (agents s !! a) as [acc|] eqn:Hslot;
      [|reflexivity].
    pose proof (books_active s HB a acc Hslot) as Hon.
    simpl in Hina. congruence. }
  split.
  { intros env'. unfold getAgentState. rewrite Hzero. reflexivity. }
  split.
  { unfold availableCredit. rewrite Hina. reflexivity. }
  unfold setCreditLimit, borrow, repay, freeze, unfreeze.
  rewrite (onlyAgent_fits _ _ Hsender), Hina. cbn [bind require].
  repeat split; reflexivity.
Qed.

(** Address 9 was never onboarded in the sample pool. *)
Lemma X14_witness :
  getAgentState (mkEnv 7 5000 true) sample_pool 9 = Ok zeroAccount /\
  repay (mkEnv 2 1030 true) 9 0 sample_pool = Err (Revert "Not active").
Proof.
  destruct (X14_inactive_accounts_are_blank (mkEnv 2 1030 true) 9 sample_pool
              sample_pool_books)
    as (Hview & _ & _ & _ & Hrepay & _); try crunch.
  split; [apply Hview | apply Hrepay].
Defined.

(** ** The clearing agent *)

(** X15.  [handleOnboard] always answers and never throws.  An answer with
    success = false leaves the ledger, the clock and the agent's memory as
    they were.  An answer with success = true means that the address was not
    onboarded before and now is: its account is active, not frozen, without
    debt, with the credit limit that the answer reports and that the agent's
    memory records.  No other account is touched either way. *)
Theorem X15_handleOnboard_always_answers :
  forall (X : Externals) (a : address) (agentId : string) (w : World),
  exists resp w',
    handleOnboard X a agentId w = (Return resp, w') /\
    clock w' = clock w /\
    (forall b, b <> a -> agentOf (ledger w') b = agentOf (ledger w) b) /\
    (success resp = false -> w' = w) /\
    (success resp = true ->
     active (agentOf (ledger w) a) = false /\
     exists limit d,
       data resp = Some d /\
       data_creditLimit d = Some limit /\
       (0 <= limit)%Z /\
       agentOf (ledger w') a
         = mkAgentAccount 0 0 (Z.to_N limit) (clock w) (clock w) false true /\
       memory w' !! a = Some (mkAgentRecord a agentId 0 limit false true)).
Proof.
  intros X a agentId w.
  destruct (handleOnboard_cases X a agentId w)
    as (resp & w' & Hrun &
        [[Hfail ->]|(limit & Hina & _ & _ & Hfits & -> & ->)]);
    do 2 eexists; (split; [exact Hrun|]).
  - split; [reflexivity|]. split; [reflexivity|].
    split; [reflexivity|]. intros Hok. congruence.
  - cbn [clock ledger memory success data].
    split; [reflexivity|].
    split; [intros b Hb; apply agentOf_set_agent_ne; congruence|].
    split; [discriminate|]. intros _. split; [exact Hina|].
    exists limit. eexists. split; [reflexivity|]. split; [reflexivity|].
    split.
    { unfold is_uint256 in Hfits. apply andb_true_iff in Hfits as [Hlo _].
      apply Z.leb_le in Hlo. exact Hlo. }
    split; [apply agentOf_set_agent_eq | apply lookup_insert_eq].
Qed.

(** Onboarding address 5 under id 7 (scores 55 and 56) in the funded pool. *)
Lemma X15_witness :
  exists resp w',
    handleOnboard plain_externals 5 "7" funded_world = (Return resp, w') /\
    success resp = true /\
    creditLimit (agentOf (ledger w') 5) = 27500.
Proof.
  destruct (X15_handleOnboard_always_answers plain_externals 5 "7" funded_world)
    as (resp & w' & Hrun & _ & _ & _ & Hok).
  exists resp, w'. split; [exact Hrun|].
  assert (Hs : success resp = true).
  { revert Hrun. vm_compute. intros [= <- _]. reflexivity. }
  split; [exact Hs|].
  destruct (Hok Hs) as (_ & limit & d & Hd & Hl & _ & Hacct & _).
  rewrite Hacct. cbn [creditLimit].
  revert Hrun Hd Hl. vm_compute. intros [= <- _] [= <-] [= <-]. reflexivity.
Defined.

(** X16.  [ensureActiveAgent] hands out active accounts only.  Whenever it
    returns, the account returned is active and is what the ledger reports
    for the address at the end of the call.  For an address that was active
    already the world is left as it was; for any other address the call has
    onboarded it, and the account returned has no debt and is not frozen. *)
Theorem X16_ensureActiveAgent_returns_active_accounts :
  forall (X : Externals) (a : address) (w w' : World) (agent : AgentAccount),
    ensureActiveAgent X a w = (Return agent, w') ->
    active agent = true /\
    getAgentState (mkEnv (signer X) (clock w') true) (ledger w') a = Ok agent /\
    (active (agentOf (ledger w) a) = true -> w' = w) /\
    (active (agentOf (ledger w) a) = false ->
     debt agent = 0 /\ frozen agent = false /\
     agentOf (ledger w') a = agent /\
     clock w' = clock w + 2 /\
     forall b, b <> a -> agentOf (ledger w') b = agentOf (ledger w) b).
Proof.
  intros X a w w' agent H.
  destruct (ensureActiveAgent_cases X a w w' agent H)
    as [(Hact & -> & Hview)|(limit & Hina & _ & _ & _ & Hagent & ->)].
  - split.
    { apply getAgentState_shape in Hview as (d & ->). exact Hact. }
    split; [exact Hview|]. split; [reflexivity|]. congruence.
  - cbn [clock ledger]. split; [rewrite Hagent; reflexivity|].
    split; [rewrite Hagent; apply view_of_fresh_account|].
    split; [congruence|]. intros _.
    split; [rewrite Hagent; reflexivity|].
    split; [rewrite Hagent; reflexivity|].
    split; [apply agentOf_set_agent_eq|].
    split; [reflexivity|].
    intros b Hb. apply agentOf_set_agent_ne. congruence.
Qed.

(** The sample agent is active: the call returns its account with the
    interest of one interval added, and the world is untouched. *)
Lemma X16_witness :
  exists agent,
    ensureActiveAgent plain_externals 4 (mkWorld sample_pool 1090 ∅)
      = (Return agent, mkWorld sample_pool 1090 ∅) /\
    active agent = true.
Proof.
  destruct (ensureActiveAgent plain_externals 4 (mkWorld sample_pool 1090 ∅))
    as [[agent|e] w'] eqn:Hrun; [|exfalso; revert Hrun; crunch].
  destruct (X16_ensureActiveAgent_returns_active_accounts
              plain_externals 4 _ w' agent Hrun) as (Hact & _ & Hsame & _).
  exists agent. split; [|exact Hact].
  rewrite (Hsame ltac:(reflexivity)). reflexivity.
Defined.

(** X17.  Any request for an address the ledger does not know onboards it
    at the base limit.  When the signer is the ledger's agent and [BigInt]
    reads "0" as 0, [ensureActiveAgent] on an address without an account
    onboards it under the id "0", for which no reputation is read: the limit
    is INITIAL_LIMIT_BASE = 50000 units (0.05 USDC), the clock has advanced
    by the two seconds of the wait, and the account returned is the new
    one. *)
Theorem X17_unknown_addresses_get_the_base_limit :
  forall (X : Externals) (a : address) (w : World),
    agents (ledger w) !! a = None ->
    signer X = credexAgent (ledger w) ->
    BigInt X "0" = Some 0%Z ->
    let fresh :=
      mkAgentAccount 0 0 (Z.to_N INITIAL_LIMIT_BASE) (clock w) (clock w) false true in
    ensureActiveAgent X a w
    = (Return fresh,
       mkWorld (set_agent a fresh (ledger w)) (clock w + 2)
         (<[a := mkAgentRecord a "0" 0 INITIAL_LIMIT_BASE false true]> (memory w))).
Proof.
  intros X a w Hblank Hsigner Hzero fresh.
  assert (Hread : getAgent X a w = (Return zeroAccount, w)).
  { unfold getAgent, getAgentState, agentOf. rewrite Hblank. reflexivity. }
  assert (Hlimit : calculateInitialLimit (obtainedFactor X "0" w)
                   = Some INITIAL_LIMIT_BASE).
  { rewrite (obtainedFactor_of_zero X "0" w Hzero). vm_compute. reflexivity. }
  unfold ensureActiveAgent.
  rewrite (await_run _ _ _ _ _ Hread). cbn [active zeroAccount negb].
  rewrite (await_run _ _ _ _ _
             (handleOnboard_run X a "0" w INITIAL_LIMIT_BASE Hblank Hsigner Hlimit
                ltac:(reflexivity))).
  cbn [success negb]. unfold await, sleep, getAgent. cbn [ledger clock memory].
  rewrite view_of_fresh_account. reflexivity.
Qed.

(** Address 5 is unknown to the funded pool. *)
Lemma X17_witness :
  exists w',
    ensureActiveAgent plain_externals 5 funded_world
      = (Return (mkAgentAccount 0 0 50000 1000 1000 false true), w') /\
    clock w' = 1002 /\
    creditLimit (agentOf (ledger w') 5) = 50000.
Proof.
  eexists. split.
  - apply (X17_unknown_addresses_get_the_base_limit plain_externals 5 funded_world);
      reflexivity.
  - split; reflexivity.
Defined.

(** X18.  [handleBorrow] always answers and never throws.  It answers with
    success = true only after a borrow went through on the ledger: the
    amount parsed, the account (onboarded on the way if need be) was not
    frozen, the amount was within credit limit minus reported debt, interest
    included, which is stricter than the ledger's own check on the
    principal, and the ledger after the call is the ledger's [borrow] of
    that amount.  For an active account that is frozen the answer is a
    failure and nothing has changed. *)
Theorem X18_handleBorrow_lends_within_limit_minus_debt :
  forall (X : Externals) (a : address) (amount : string) (w : World),
  exists resp w',
    handleBorrow X a amount w = (Return resp, w') /\
    (success resp = true ->
     exists amountWei agent w1,
       parseUnits X amount = Some amountWei /\
       ensureActiveAgent X a w = (Return agent, w1) /\
       frozen agent = false /\
       (0 <= amountWei <= Z.of_N (creditLimit agent) - Z.of_N (debt agent))%Z /\
       borrow (mkEnv (signer X) (clock w1) (usdc X a (Z.to_N amountWei))) a
         (Z.to_N amountWei) (ledger w1) = Ok (ledger w') /\
       clock w' = clock w1 /\ memory w' = memory w1) /\
    (active (agentOf (ledger w) a) = true ->
     frozen (agentOf (ledger w) a) = true ->
     success resp = false /\ w' = w).
Proof.
  intros X a amount w. unfold handleBorrow, try_catch.
  destruct (parseUnits X amount) as [amountWei|].
  2:{ do 2 eexists. split; [reflexivity|]. split; [discriminate|].
      intros _ _. split; reflexivity. }
  unfold await at 1.
  destruct (ensureActiveAgent X a w) as [[agent|e] w1] eqn:Hens.
  2:{ do 2 eexists. split; [reflexivity|]. split; [discriminate|].
      intros Hact _. split; [reflexivity|].
      unfold ensureActiveAgent, await, getAgent in Hens.
      destruct (getAgentState _ (ledger w) a) as [first|] eqn:Hview.
      - apply getAgentState_shape in Hview as (d & ->).
        change (active (with_debt d (agentOf (ledger w) a)))
          with (active (agentOf (ledger w) a)) in Hens.
        rewrite Hact in Hens. discriminate Hens.
      - injection Hens as _ <-. reflexivity. }
  pose proof (ensureActiveAgent_cases X a w w1 agent Hens) as Hcases.
  assert (Hfrozen : active (agentOf (ledger w) a) = true ->
                    frozen (agentOf (ledger w) a) = true ->
                    frozen agent = true /\ w1 = w).
  { intros Hact Hfr.
    destruct Hcases as [(_ & -> & Hview)|(limit & Hina & _)]; [|congruence].
    apply getAgentState_shape in Hview as (d & ->). split; [exact Hfr|reflexivity]. }
  destruct (frozen agent) eqn:Hfr.
  { do 2 eexists. split; [reflexivity|]. split; [discriminate|].
    intros Hact Hf. split; [reflexivity|]. apply (Hfrozen Hact Hf). }
  assert (Hnot : forall resp w',
             active (agentOf (ledger w) a) = true ->
             frozen (agentOf (ledger w) a) = true ->
             success resp = false /\ w' = w).
  { intros resp w' Hact Hf. destruct (Hfrozen Hact Hf). discriminate. }
  destruct (Z.ltb_spec (Z.of_N (creditLimit agent) - Z.of_N (debt agent)) amountWei)
    as [Hover|Hwithin].
  { do 2 eexists. split; [reflexivity|]. split; [discriminate|]. apply Hnot. }
  unfold await at 1, client_borrow.
  destruct (is_uint256 amountWei) eqn:Hfits.
  2:{ do 2 eexists. split; [reflexivity|]. split; [discriminate|]. apply Hnot. }
  unfold send.
  destruct (borrow _ a (Z.to_N amountWei) (ledger w1)) as [s'|e] eqn:Hborrow.
  2:{ do 2 eexists. split; [reflexivity|]. split; [discriminate|]. apply Hnot. }
  unfold await, getAgent. cbn [ledger clock].
  destruct (getAgentState _ s' a) as [updated|e] eqn:Hview.
  2:{ do 2 eexists. split; [reflexivity|]. split; [discriminate|]. apply Hnot. }
  do 2 eexists. split; [reflexivity|]. split; [|apply Hnot].
  intros _. exists amountWei, agent, w1.
  split; [reflexivity|]. split; [reflexivity|]. split; [exact Hfr|].
  split.
  { unfold is_uint256 in Hfits. apply andb_true_iff in Hfits as [Hlo _].
    apply Z.leb_le in Hlo. lia. }
  split; [exact Hborrow|]. split; reflexivity.
Qed.

(** The sample agent borrows 0.07 USDC through the handler. *)
Lemma X18_witness :
  exists resp w' amountWei,
    handleBorrow plain_externals 4 "0.07" (mkWorld sample_pool 1030 ∅)
      = (Return resp, w') /\
    success resp = true /\
    parseUnits plain_externals "0.07" = Some amountWei /\
    (0 <= amountWei)%Z.
Proof.
  destruct (X18_handleBorrow_lends_within_limit_minus_debt plain_externals 4 "0.07"
              (mkWorld sample_pool 1030 ∅)) as (resp & w' & Hrun & Hok & _).
  assert (Hs : success resp = true).
  { revert Hrun. vm_compute. intros [= <- _]. reflexivity. }
  destruct (Hok Hs) as (amountWei & agent & w1 & Hparse & _ & _ & [Hlo _] & _).
  exists resp, w', amountWei. repeat split; assumption.
Defined.

(** X19.  A status check of an active account only reads.  [getAgentStatus]
    never throws, and for an active account it leaves the ledger, the clock
    and the memory as they were.  The figures it returns are the ledger's
    report at that time, interest included, and its [available] is credit
    limit minus reported debt: for an account that is not frozen and whose
    debt covers its principal this is never more than the ledger's own
    [availableCredit], and it is negative once the debt exceeds the limit. *)
Theorem X19_status_only_reads_an_active_account :
  forall (X : Externals) (toISOString : N -> option string) (a : address) (w : World),
    active (agentOf (ledger w) a) = true ->
    exists resp,
      getAgentStatus X toISOString a w = (Return resp, w) /\
      forall d,
        status_data resp = Some d ->
        status_success resp = true /\
        exists agent,
          getAgentState (mkEnv (signer X) (clock w) true) (ledger w) a = Ok agent /\
          status_debt d = Z.of_N (debt agent) /\
          status_creditLimit d = Z.of_N (creditLimit (agentOf (ledger w) a)) /\
          status_frozen d = frozen (agentOf (ledger w) a) /\
          status_available d = (status_creditLimit d - status_debt d)%Z /\
          (principal (agentOf (ledger w) a) <= debt (agentOf (ledger w) a) ->
           frozen (agentOf (ledger w) a) = false ->
           (status_available d <= Z.of_N (availableCredit (ledger w) a))%Z).
Proof.
  intros X toISOString a w Hact.
  unfold getAgentStatus, ensureActiveAgent, await, getAgent.
  destruct (getAgentState _ (ledger w) a) as [agent|e] eqn:Hview.
  2:{ eexists. split; [reflexivity|]. intros d Hd. discriminate Hd. }
  destruct (getAgentState_debt_ge _ _ _ _ Hview) as [Hshape Hge].
  assert (Hactive : active agent = true) by (rewrite Hshape; exact Hact).
  rewrite Hactive. cbn [negb ret].
  destruct (toISOString (lastRepayment agent)) as [iso|].
  2:{ eexists. split; [reflexivity|]. intros d Hd. discriminate Hd. }
  eexists. split; [reflexivity|].
  intros d [= <-]. split; [reflexivity|].
  exists agent. split; [reflexivity|].
  cbn [status_debt status_creditLimit status_frozen status_available].
  split; [reflexivity|].
  split; [rewrite Hshape; reflexivity|].
  split; [rewrite Hshape; reflexivity|].
  split; [reflexivity|].
  intros Hcov Hfr. unfold availableCredit. rewrite Hact, Hfr. cbn [negb orb].
  assert (Hcl : creditLimit agent = creditLimit (agentOf (ledger w) a))
    by (rewrite Hshape; reflexivity).
  rewrite Hcl.
  destruct (N.leb_spec (creditLimit (agentOf (ledger w) a))
              (principal (agentOf (ledger w) a))); lia.
Qed.

(** The sample agent one interval after its watermark: the status reports
    a debt of 20.07005 USDC and 29.92995 USDC available, where the ledger's
    [availableCredit] is 30 USDC. *)
Lemma X19_witness :
  exists resp d,
    getAgentStatus plain_externals (fun _ => Some "1970-01-01T00:16:40.000Z") 4
      (mkWorld sample_pool 1060 ∅) = (Return resp, mkWorld sample_pool 1060 ∅) /\
    status_data resp = Some d /\
    status_debt d = 20070050%Z /\
    status_available d = 29929950%Z /\
    availableCredit sample_pool 4 = 30000000.
Proof.
  destruct (X19_status_only_reads_an_active_account plain_externals
              (fun _ => Some "1970-01-01T00:16:40.000Z") 4
              (mkWorld sample_pool 1060 ∅)) as (resp & Hrun & Hdata);
    [reflexivity|].
  assert (Hd : exists d, status_data resp = Some d /\
                         status_debt d = 20070050%Z /\
                         status_available d = 29929950%Z).
  { revert Hrun. vm_compute. intros [= <-]. eexists. repeat split. }
  destruct Hd as (d & Hd & Hdebt & Havail).
  exists resp, d. repeat split; assumption || reflexivity.
Defined.

(** ** The reputation module *)

(** X20.  The reputation factor is clamped.  Whatever [getRepFactorByAgentId]
    and [getRepFactor] return, and whatever factor [calculateRepFactor]
    computes, is a double between 0.1 and 3.0 inclusive, or NaN (which the
    clamp lets through when the number it is given is NaN).  Both readers
    leave the world as it was, and [getRepFactor] never throws. *)
Theorem X20_the_factor_is_clamped :
  forall (X : Externals) (registryAgentId : address -> N -> option Z),
    (forall agentId w f w',
        getRepFactorByAgentId X agentId w = (Return f, w') ->
        w' = w /\ (is_nan f = true \/ clamped f = true)) /\
    (forall a w,
        exists f,
          getRepFactor X registryAgentId a w = (Return f, w) /\
          (is_nan f = true \/ clamped f = true)) /\
    (forall inputs,
        is_nan (factor (calculateRepFactor inputs)) = true \/
        clamped (factor (calculateRepFactor inputs)) = true).
Proof.
  intros X registryAgentId.
  assert (Hone : is_nan PrimFloat.one = true \/ clamped PrimFloat.one = true)
    by (right; reflexivity).
  split; [|split].
  - intros agentId w f w' H.
    pose proof (getRepFactorByAgentId_reads X agentId w) as Hw.
    rewrite H in Hw. cbn [snd] in Hw. split; [exact Hw|].
    unfold getRepFactorByAgentId in H.
    destruct (BigInt X agentId) as [n|]; [|discriminate H].
    destruct (n =? 0)%Z; [injection H as <- _; exact Hone|].
    unfold await, calculateReputationScore, await, getFeedbackEntries in H.
    destruct (queryFilter X n (clock w)) as [[|x l]|];
      try (injection H as <- _; exact Hone).
    injection H as <- _. apply clamp_clamped.
  - intros a w. unfold getRepFactor, await, getAgentId.
    destruct (registryAgentId a (clock w)) as [agentId|];
      [|eexists; split; [reflexivity | exact Hone]].
    destruct (0 <? agentId)%Z; [|eexists; split; [reflexivity | exact Hone]].
    unfold calculateReputationScore, await, getFeedbackEntries.
    destruct (queryFilter X agentId (clock w)) as [[|x l]|];
      try (eexists; split; [reflexivity | exact Hone]).
    eexists. split; [reflexivity | apply clamp_clamped].
  - intros inputs. unfold calculateRepFactor. cbn [factor]. apply clamp_clamped.
Qed.

(** X21.  Feedback can only raise the structured factor.  With the account
    age and the slash count at 0, [calculateRepFactor] yields one of the
    four factors 1, 1.25, 1.5 and 2, whatever the job counts; these are the
    only inputs [readERC8004] produces, so an agent whose jobs all failed
    gets the neutral factor 1 of an agent without history.  For such a
    factor and a stake that is not negative [calculateCreditLimit] returns
    a limit between the stake and twice the stake. *)
Theorem X21_feedback_only_raises_the_factor :
  forall (inputs : ReputationInputs),
    accountAgeDays inputs = PrimFloat.zero ->
    slashCount inputs = PrimFloat.zero ->
    let f := factor (calculateRepFactor inputs) in
    (f = 1%float \/ f = 1.25%float \/ f = 1.5%float \/ f = 2%float) /\
    forall stake : Z,
      (0 <= stake)%Z ->
      exists limit,
        calculateCreditLimit stake f = Some limit /\
        (stake <= limit <= 2 * stake)%Z.
Proof.
  intros inputs Hage Hslash f.
  assert (Hf : f = 1%float \/ f = 1.25%float \/ f = 1.5%float \/ f = 2%float).
  { unfold f, calculateRepFactor. cbn [factor]. rewrite Hage, Hslash.
    destruct (PrimFloat.ltb PrimFloat.zero
                (PrimFloat.add (totalCompleted inputs) (totalFailed inputs)));
      [|left; reflexivity].
    destruct (PrimFloat.leb 0x1.fae147ae147aep-1%float _);
      [right; right; right; reflexivity|].
    destruct (PrimFloat.leb 0x1.e666666666666p-1%float _);
      [right; right; left; reflexivity|].
    destruct (PrimFloat.leb 0x1.ccccccccccccdp-1%float _);
      [right; left; reflexivity | left; reflexivity]. }
  split; [exact Hf|].
  intros stake Hstake. unfold calculateCreditLimit.
  destruct Hf as [-> | [-> | [-> | ->]]].
  - change (BigInt_floor (PrimFloat.mul 1%float 1000%float)) with (Some 1000%Z).
    eexists. split; [reflexivity|].
    rewrite Z.quot_div_nonneg by lia. rewrite Z.div_mul by lia. lia.
  - change (BigInt_floor (PrimFloat.mul 1.25%float 1000%float)) with (Some 1250%Z).
    eexists. split; [reflexivity|].
    rewrite Z.quot_div_nonneg by lia.
    split; [apply Z.div_le_lower_bound; lia | apply Z.div_le_upper_bound; lia].
  - change (BigInt_floor (PrimFloat.mul 1.5%float 1000%float)) with (Some 1500%Z).
    eexists. split; [reflexivity|].
    rewrite Z.quot_div_nonneg by lia.
    split; [apply Z.div_le_lower_bound; lia | apply Z.div_le_upper_bound; lia].
  - change (BigInt_floor (PrimFloat.mul 2%float 1000%float)) with (Some 2000%Z).
    eexists. split; [reflexivity|].
    rewrite Z.quot_div_nonneg by lia.
    split; [apply Z.div_le_lower_bound; lia | apply Z.div_le_upper_bound; lia].
Qed.

(** Nineteen jobs done and one failed is a completion rate of 0.95: the
    factor is 1.5 and a stake of 1001 gives a limit of 1501. *)
Lemma X21_witness :
  let inputs := mkReputationInputs (ById 7) 19%float 1%float 0%float 0%float in
  factor (calculateRepFactor inputs) = 1.5%float /\
  exists limit,
    calculateCreditLimit 1001 (factor (calculateRepFactor inputs)) = Some limit /\
    (1001 <= limit <= 2002)%Z.
Proof.
  intros inputs.
  destruct (X21_feedback_only_raises_the_factor inputs) as [_ Hlimit];
    [reflexivity | reflexivity |].
  split; [vm_compute; reflexivity|].
  destruct (Hlimit 1001%Z ltac:(lia)) as (limit & Hrun & Hbounds).
  exists limit. split; [exact Hrun | lia].
Defined.

(** X22.  [readERC8004] never throws and leaves the world as it was.  For an
    address with a registered identity whose feedback scores are [uint8]
    values, it reports as completed the number of scores of 50 and above
    and as failed the number of scores below 50, so that the two counts add
    up to the number of feedback entries; the age and the slash count are
    always 0.  For an address without identity (the registry call fails, or
    returns an id of 0) all the counts are 0. *)
Theorem X22_readERC8004_counts_the_scores :
  forall (X : Externals) (registryAgentId : address -> N -> option Z)
         (a : address) (w : World),
    (forall agentId entries,
        registryAgentId a (clock w) = Some agentId ->
        (0 < agentId)%Z ->
        queryFilter X agentId (clock w) = Some entries ->
        Forall (fun n : N => n < 256) entries ->
        let completed := length (List.filter (fun n : N => 50 <=? n) entries) in
        let failed := length (List.filter (fun n : N => n <? 50) entries) in
        readERC8004 X registryAgentId a w
        = (Return (mkReputationInputs (ById agentId)
                     (Number (N.of_nat completed)) (Number (N.of_nat failed))
                     PrimFloat.zero PrimFloat.zero), w) /\
        (completed + failed)%nat = length entries) /\
    ((registryAgentId a (clock w) = None \/
      exists agentId, registryAgentId a (clock w) = Some agentId /\ (agentId <= 0)%Z) ->
     readERC8004 X registryAgentId a w
     = (Return (mkReputationInputs (ByAddress a) PrimFloat.zero PrimFloat.zero
                  PrimFloat.zero PrimFloat.zero), w)) /\
    (exists inputs,
        readERC8004 X registryAgentId a w = (Return inputs, w) /\
        accountAgeDays inputs = PrimFloat.zero /\
        slashCount inputs = PrimFloat.zero).
Proof.
  intros X registryAgentId a w. split; [|split].
  - intros agentId entries Hid Hpos Hfeed Huint8 completed failed.
    split; [|apply partition_scores].
    unfold readERC8004, await, getAgentId, getFeedbackEntries.
    rewrite Hid. apply Z.ltb_lt in Hpos. rewrite Hpos, Hfeed. cbn [ret].
    destruct (count_scores entries Huint8) as [-> ->]. reflexivity.
  - intros [Hnone|(agentId & Hid & Hle)];
      unfold readERC8004, await, getAgentId.
    + rewrite Hnone. reflexivity.
    + rewrite Hid. apply Z.ltb_ge in Hle. rewrite Hle. reflexivity.
  - unfold readERC8004, await, getAgentId, getFeedbackEntries.
    destruct (registryAgentId a (clock w)) as [agentId|];
      [|eexists; repeat split].
    destruct (0 <? agentId)%Z; [|eexists; repeat split].
    destruct (queryFilter X agentId (clock w)); eexists; repeat split.
Qed.

(** Address 4 has the id 7, with the scores 55 and 56: two jobs completed,
    none failed. *)
Lemma X22_witness :
  readERC8004 plain_externals sample_registry 4 fresh_world
  = (Return (mkReputationInputs (ById 7) 2%float 0%float 0%float 0%float),
     fresh_world).
Proof.
  destruct (X22_readERC8004_counts_the_scores plain_externals sample_registry 4
              fresh_world) as (Hcount & _).
  destruct (Hcount 7%Z [55; 56]) as [Hrun _];
    [reflexivity | reflexivity | reflexivity | | exact Hrun].
  repeat constructor.
Defined.

(** X23.  The two readers agree.  For an address whose registered id is
    positive, [getRepFactor] returns what [getRepFactorByAgentId] returns
    for that id; for an address without identity (the registry call fails,
    or returns an id of 0) it returns the neutral factor 1. *)
Theorem X23_the_readers_agree :
  forall (X : Externals) (registryAgentId : address -> N -> option Z)
         (a : address) (w : World),
    (forall agentId idString,
        registryAgentId a (clock w) = Some agentId ->
        (0 < agentId)%Z ->
        BigInt X idString = Some agentId ->
        getRepFactor X registryAgentId a w = getRepFactorByAgentId X idString w) /\
    ((registryAgentId a (clock w) = None \/
      exists agentId, registryAgentId a (clock w) = Some agentId /\ (agentId <= 0)%Z) ->
     getRepFactor X registryAgentId a w = (Return PrimFloat.one, w)).
Proof.
  intros X registryAgentId a w. split.
  - intros agentId idString Hid Hpos Hparse.
    unfold getRepFactor, getRepFactorByAgentId, await at 1, getAgentId.
    rewrite Hid, Hparse.
    assert (Hnz : (agentId =? 0)%Z = false) by (apply Z.eqb_neq; lia).
    apply Z.ltb_lt in Hpos. rewrite Hpos, Hnz. reflexivity.
  - intros [Hnone|(agentId & Hid & Hle)]; unfold getRepFactor, await, getAgentId.
    + rewrite Hnone. reflexivity.
    + rewrite Hid. apply Z.ltb_ge in Hle. rewrite Hle. reflexivity.
Qed.

(** Address 4 has the id 7, which the externals read from any id string
    other than "0"; address 5 has no identity. *)
Lemma X23_witness :
  getRepFactor plain_externals sample_registry 4 fresh_world
    = getRepFactorByAgentId plain_externals "7" fresh_world /\
  getRepFactor plain_externals sample_registry 5 fresh_world
    = (Return PrimFloat.one, fresh_world).
Proof.
  destruct (X23_the_readers_agree plain_externals sample_registry 4 fresh_world)
    as [Hsame _].
  destruct (X23_the_readers_agree plain_externals sample_registry 5 fresh_world)
    as [_ Hnone].
  split.
  - apply (Hsame 7%Z "7"); reflexivity.
  - apply Hnone. right. exists 0%Z. split; [reflexivity | lia].
Defined.

(** X24.  A repayment of nothing raises the limit.  The ledger's [repay]
    has no check against a zero amount, and [handleRepay] grows the limit
    after any repayment the ledger took: for an active account of a pool
    whose books balance, a request to repay 0 is answered with success, and
    the credit limit afterwards is the grown limit, which is strictly above
    the old one for every limit from 10 units up to the cap. *)
Theorem X24_a_repayment_of_nothing_raises_the_limit :
  forall (X : Externals) (a : address) (amount : string) (w : World) (s1 : CredexPool),
    Books (ledger w) ->
    Covered (ledger w) ->
    parseUnits X amount = Some 0%Z ->
    signer X = credexAgent (ledger w) ->
    usdc X a 0 = true ->
    active (agentOf (ledger w) a) = true ->
    _accrueInterest (mkEnv (signer X) (clock w) true) a (ledger w) = Ok s1 ->
    debt (agentOf (ledger w) a) <= MAX_UINT256 ->
    totalLiquidity (ledger w) <= MAX_UINT256 ->
    let limit := Z.of_N (creditLimit (agentOf (ledger w) a)) in
    exists resp w',
      handleRepay X a amount w = (Return resp, w') /\
      success resp = true /\
      creditLimit (agentOf (ledger w') a)
        = Z.to_N (Z.max limit (calculateGrowthLimit limit)) /\
      ((10 <= limit < MAX_LIMIT)%Z ->
       creditLimit (agentOf (ledger w) a) < creditLimit (agentOf (ledger w') a)).
Proof.
  intros X a amount w s1 HB HC Hparse Hsigner Husdc Hact Hacc Hdebt Hliq limit.
  pose proof (accrue_then_view _ _ _ _ Hdebt Hacc) as Hview.
  pose proof (ensureActiveAgent_active_run X a w _ Hview Hact) as Hens.
  pose proof (accrue_books _ _ _ _ Hacc HB) as HB1.
  pose proof (accrue_covered _ _ _ _ Hacc HC a) as Hcov.
  pose proof (debt_le_sumDebt s1 a) as Hle.
  rewrite (books_debt s1 HB1) in Hle.
  pose proof (accrue_totalLiquidity _ _ _ _ Hacc) as Htl.
  assert (Hrepay : exists w2, client_repay X a 0 w = (Return tt, w2)).
  { unfold client_repay. change (is_uint256 0) with true. cbn iota.
    change (Z.to_N 0) with 0. rewrite Husdc. unfold send.
    erewrite (repay_run (mkEnv (signer X) (clock w) true) a 0 (ledger w) s1);
      try assumption; try reflexivity.
    - eexists. reflexivity.
    - rewrite N.min_0_l, N.add_0_r, Htl. exact Hliq. }
  destruct Hrepay as (w2 & Hrepay).
  destruct (handleRepay_after_repay X a amount 0%Z w w w2 _ tt Hparse Hens Hrepay)
    as (resp & w' & Hrun & Hok & Hlimit).
  cbn [creditLimit with_debt] in Hlimit. fold limit in Hlimit.
  exists resp, w'. split; [exact Hrun|]. split; [exact Hok|].
  split; [exact Hlimit|].
  intros Hrange. rewrite Hlimit.
  pose proof (calculateGrowthLimit_grows limit Hrange). unfold limit in *. lia.
Qed.

(** The sample agent, whose limit is 50 USDC, repays nothing: the limit is
    55 USDC afterwards. *)
Lemma X24_witness :
  exists resp w',
    handleRepay plain_externals 4 "0" (mkWorld sample_pool 1030 ∅)
      = (Return resp, w') /\
    success resp = true /\
    creditLimit (agentOf (ledger w') 4) = 55000000.
Proof.
  destruct (X24_a_repayment_of_nothing_raises_the_limit plain_externals 4 "0"
              (mkWorld sample_pool 1030 ∅) sample_pool
              sample_pool_books sample_pool_covered)
    as (resp & w' & Hrun & Hok & Hlimit & _); try crunch.
  exists resp, w'. split; [exact Hrun|]. split; [exact Hok|]. exact Hlimit.
Defined.

(** ** Leaving the pool, and lowering a limit *)

(** X25.  The last provider cannot leave while a loan is out.  A provider
    who holds all the shares can withdraw them all exactly when no debt is
    outstanding: then the withdrawal takes the whole cash and leaves no
    shares; with any debt outstanding the shares are worth more than the
    cash and the withdrawal fails with "Insufficient pool liquidity". *)
Theorem X25_the_last_provider_leaves_only_without_debt :
  forall (env : Env) (s : CredexPool),
    sharesOf s (msg_sender env) = totalShares s ->
    0 < totalShares s ->
    totalShares s * (totalLiquidity s + globalTotalDebt s) <= MAX_UINT256 ->
    usdc_ok env = true ->
    (globalTotalDebt s = 0 ->
     exists s',
       withdraw env (totalShares s) s = Ok s' /\
       totalShares s' = 0 /\
       totalLiquidity s' = 0 /\
       sharesOf s' (msg_sender env) = 0) /\
    (0 < globalTotalDebt s ->
     withdraw env (totalShares s) s = Err (Revert "Insufficient pool liquidity")).
Proof.
  intros env s Hall Hpos Hfit Husdc.
  assert (Hsum : totalLiquidity s + globalTotalDebt s <= MAX_UINT256) by nia.
  assert (Hprefix : forall k : N -> result CredexPool,
             (require (0 <? totalShares s) "Zero shares" ;;
              require (totalShares s <=? sharesOf s (msg_sender env))
                "Insufficient shares" ;;
              do _totalAssets <- totalAssets s;
              do m <- mul (totalShares s) _totalAssets;
              do assets <- div m (totalShares s);
              k assets)
             = k (totalLiquidity s + globalTotalDebt s)).
  { intros k.
    rewrite require_fits by (apply N.ltb_lt; exact Hpos). cbn [bind].
    rewrite require_fits by (apply N.leb_le; lia). cbn [bind].
    unfold totalAssets, totalDebt. rewrite add_fits by exact Hsum. cbn [bind].
    rewrite mul_fits by exact Hfit. cbn [bind].
    rewrite div_fits by lia. cbn [bind].
    rewrite N.mul_comm, N.div_mul by lia. reflexivity. }
  split.
  - intros Hnone. unfold withdraw. rewrite Hprefix, Hnone, N.add_0_r.
    rewrite require_fits by (apply N.leb_le; lia). cbn [bind].
    rewrite !sub_fits by lia. cbn [bind]. unfold usdc_call. rewrite Husdc. cbn [bind].
    eexists. split; [reflexivity|]. rewrite !N.sub_diag.
    split; [reflexivity|]. split; [reflexivity|].
    unfold sharesOf in *. simpl. rewrite lookup_insert_eq. simpl.
    rewrite Hall. apply N.sub_diag.
  - intros Hdebt. unfold withdraw. rewrite Hprefix.
    assert (Hshort : (totalLiquidity s + globalTotalDebt s <=? totalLiquidity s) = false)
      by (apply N.leb_gt; lia).
    unfold require at 1. rewrite Hshort. reflexivity.
Qed.

(** Provider 3 holds all the shares of the sample pool, which has lent out
    20.05 USDC; in the idle pool nothing is lent. *)
Lemma X25_witness :
  withdraw (mkEnv 3 1030 true) 100000000 sample_pool
    = Err (Revert "Insufficient pool liquidity").
Proof.
  apply (X25_the_last_provider_leaves_only_without_debt (mkEnv 3 1030 true)
           sample_pool); crunch.
Defined.

(** X26.  A limit can be set below what is owed.  [setCreditLimit] checks
    neither the outstanding principal nor any cap: whenever it goes through
    the limit is the new one and nothing else of the account or the pool's
    counters has changed.  With a limit at or below the principal the
    available credit is 0, and a borrow that reaches the limit check is
    refused with "Exceeds limit", unless the limit equals the principal and
    the amount is 0. *)
Theorem X26_a_limit_may_be_set_below_the_principal :
  forall (env : Env) (a : address) (newLimit : N) (s : CredexPool),
    msg_sender env = credexAgent s ->
    active (agentOf s a) = true ->
    let s' := set_agent a (with_creditLimit newLimit (agentOf s a)) s in
    setCreditLimit env a newLimit s = Ok s' /\
    (newLimit <= principal (agentOf s a) -> availableCredit s' a = 0) /\
    (forall (env' : Env) (amount : N) (s1 : CredexPool),
        msg_sender env' = credexAgent s ->
        frozen (agentOf s a) = false ->
        _accrueInterest env' a s' = Ok s1 ->
        newLimit < principal (agentOf s a) + amount ->
        principal (agentOf s a) + amount <= MAX_UINT256 ->
        borrow env' a amount s' = Err (Revert "Exceeds limit")).
Proof.
  intros env a newLimit s Hsender Hact s'.
  split.
  { unfold setCreditLimit. rewrite (onlyAgent_fits _ _ Hsender). cbn [bind].
    rewrite (require_fits _ _ Hact). reflexivity. }
  assert (Hacct : agentOf s' a = with_creditLimit newLimit (agentOf s a))
    by apply agentOf_set_agent_eq.
  split.
  { intros Hlow. unfold availableCredit. rewrite Hacct.
    cbn [active frozen creditLimit principal with_creditLimit].
    destruct (negb (active (agentOf s a)) || frozen (agentOf s a)); [reflexivity|].
    apply N.leb_le in Hlow. rewrite Hlow. reflexivity. }
  intros env' amount s1 Hsender' Hfr Hacc Hover Hfit.
  pose proof (accrue_watermark _ _ _ _ Hacc) as (_ & _ & Hp).
  pose proof (accrue_creditLimit _ _ _ _ Hacc) as Hc.
  rewrite Hacct in Hp, Hc. cbn [principal creditLimit with_creditLimit] in Hp, Hc.
  unfold borrow.
  rewrite (onlyAgent_fits env' s') by exact Hsender'. cbn [bind].
  rewrite Hacct. cbn [active frozen with_creditLimit].
  rewrite (require_fits _ _ Hact). cbn [bind].
  rewrite require_fits by (rewrite Hfr; reflexivity). cbn [bind].
  rewrite Hacc. cbn [bind]. rewrite Hp, Hc.
  rewrite add_fits by exact Hfit. cbn [bind].
  assert (Hno : (principal (agentOf s a) + amount <=? newLimit) = false)
    by (apply N.leb_gt; exact Hover).
  unfold require at 1. rewrite Hno. reflexivity.
Qed.

(** The sample agent has a principal of 20 USDC; its limit is set to 5
    USDC, and a borrow of 1 USDC is then refused. *)
Lemma X26_witness :
  exists s',
    setCreditLimit (mkEnv 2 1030 true) 4 5000000 sample_pool = Ok s' /\
    availableCredit s' 4 = 0 /\
    borrow (mkEnv 2 1030 true) 4 1000000 s' = Err (Revert "Exceeds limit").
Proof.
  destruct (X26_a_limit_may_be_set_below_the_principal (mkEnv 2 1030 true) 4 5000000
              sample_pool ltac:(reflexivity) ltac:(reflexivity))
    as (Hset & Hzero & Hborrow).
  eexists. split; [exact Hset|]. split.
  - apply Hzero. crunch.
  - apply (Hborrow (mkEnv 2 1030 true) 1000000
             (set_agent 4 (with_creditLimit 5000000 (agentOf sample_pool 4))
                sample_pool)); crunch.
Defined.

(** X27.  Time is charged exactly once, however often interest is accrued.
    Two accruals in a row, at a time and at a later one, leave the
    watermark where a single accrual at the later time would leave it, so
    no interval is counted twice or lost.  The debt after the two is at
    most one unit below the debt after the single one (each accrual floors
    its interest), and may be above it, as the second accrual charges
    interest on the interest of the first. *)
Theorem X27_time_is_charged_once :
  forall (env1 env2 : Env) (a : address) (s s1 s2 once : CredexPool),
    lastAccrued (agentOf s a) <> 0 ->
    debt (agentOf s a) <> 0 ->
    block_timestamp env1 <= block_timestamp env2 ->
    _accrueInterest env1 a s = Ok s1 ->
    _accrueInterest env2 a s1 = Ok s2 ->
    _accrueInterest env2 a s = Ok once ->
    lastAccrued (agentOf s2 a) = lastAccrued (agentOf once a) /\
    intervalsDue env1 (agentOf s a) + intervalsDue env2 (agentOf s1 a)
      = intervalsDue env2 (agentOf s a) /\
    debt (agentOf once a) <= debt (agentOf s2 a) + 1.
Proof.
  intros env1 env2 a s s1 s2 once Hla Hd Hlater H1 H2 Honce.
  destruct (accrue_fields _ _ _ _ Hla Hd H1) as (Hle1 & Hd1 & Hla1).
  destruct (accrue_fields _ _ _ _ Hla Hd Honce) as (_ & Hdo & Hlao).
  assert (Hla1' : lastAccrued (agentOf s1 a) <> 0) by lia.
  assert (Hd1' : debt (agentOf s1 a) <> 0) by lia.
  destruct (accrue_fields _ _ _ _ Hla1' Hd1' H2) as (Hle2 & Hd2 & Hla2).
  unfold interestDue, intervalsDue, ACCRUAL_INTERVAL, INTEREST_RATE_BP in *.
  set (la := lastAccrued (agentOf s a)) in *.
  set (d := debt (agentOf s a)) in *.
  set (t1 := block_timestamp env1) in *.
  set (t2 := block_timestamp env2) in *.
  set (n1 := (t1 - la) / 60) in *.
  pose proof (N.Div0.mul_div_le (t1 - la) 60) as Hfloor. fold n1 in Hfloor.
  assert (Hsplit : (t2 - la) / 60 = (t2 - lastAccrued (agentOf s1 a)) / 60 + n1).
  { rewrite Hla1.
    replace (t2 - la) with (t2 - (la + n1 * 60) + n1 * 60) by lia.
    rewrite N.div_add by lia. reflexivity. }
  set (n2 := (t2 - lastAccrued (agentOf s1 a)) / 60) in *.
  split; [lia|]. split; [lia|].
  rewrite Hdo, Hd2, Hd1, Hsplit.
  replace (d * 10 * (n2 + n1)) with (d * 10 * n1 + d * 10 * n2) by lia.
  pose proof (floor_of_sum (d * 10 * n1) (d * 10 * n2) 10000) as Hsum.
  assert (Hmono : d * 10 * n2 / 10000
                  <= (d + d * 10 * n1 / 10000) * 10 * n2 / 10000).
  { apply N.Div0.div_le_mono. generalize (d * 10 * n1 / 10000). intros; nia. }
  revert Hsum Hmono.
  generalize ((d * 10 * n1 + d * 10 * n2) / 10000).
  generalize ((d + d * 10 * n1 / 10000) * 10 * n2 / 10000).
  generalize (d * 10 * n2 / 10000).
  generalize (d * 10 * n1 / 10000).
  intros; lia.
Qed.

(** The sample agent, with its watermark at 1000: an accrual at 1090 and
    one at 1130 charge one interval each, an accrual at 1130 alone charges
    two, and the watermark is 1120 either way. *)
Lemma X27_witness :
  exists s1 s2 once,
    _accrueInterest (mkEnv 2 1090 true) 4 sample_pool = Ok s1 /\
    _accrueInterest (mkEnv 2 1130 true) 4 s1 = Ok s2 /\
    _accrueInterest (mkEnv 2 1130 true) 4 sample_pool = Ok once /\
    lastAccrued (agentOf s2 4) = lastAccrued (agentOf once 4) /\
    debt (agentOf once 4) <= debt (agentOf s2 4) + 1.
Proof.
  pose (s1 := set_agent 4 (with_lastAccrued 1060 (with_debt 20070050 sample_account))
                (set_globalTotalDebt 20070050 sample_pool)).
  pose (s2 := set_agent 4 (with_lastAccrued 1120 (with_debt 20090120 sample_account))
                (set_globalTotalDebt 20090120 s1)).
  pose (once := set_agent 4 (with_lastAccrued 1120 (with_debt 20090100 sample_account))
                  (set_globalTotalDebt 20090100 sample_pool)).
  assert (H1 : _accrueInterest (mkEnv 2 1090 true) 4 sample_pool = Ok s1) by crunch.
  assert (H2 : _accrueInterest (mkEnv 2 1130 true) 4 s1 = Ok s2) by crunch.
  assert (H3 : _accrueInterest (mkEnv 2 1130 true) 4 sample_pool = Ok once) by crunch.
  exists s1, s2, once. split; [exact H1|]. split; [exact H2|]. split; [exact H3|].
  destruct (X27_time_is_charged_once (mkEnv 2 1090 true) (mkEnv 2 1130 true) 4
              sample_pool s1 s2 once) as (Hla & _ & Hd);
    [crunch | crunch | crunch | exact H1 | exact H2 | exact H3 |].
  split; [exact Hla | exact Hd].
Defined.

(** X28.  A deposit too small for one share is kept and mints nothing.
    [deposit] does not check the number of shares it mints: when shares
    exist and [assets * totalShares] is below the total assets (one share is
    worth more than [assets]), the deposit goes through, the cash grows by
    [assets], and neither the depositor's shares nor the total change. *)
Theorem X28_a_small_deposit_mints_nothing :
  forall (env : Env) (assets : N) (s : CredexPool),
    0 < assets ->
    totalShares s <> 0 ->
    assets * totalShares s < totalLiquidity s + globalTotalDebt s ->
    totalLiquidity s + globalTotalDebt s <= MAX_UINT256 ->
    totalLiquidity s + assets <= MAX_UINT256 ->
    sharesOf s (msg_sender env) <= totalShares s ->
    totalShares s <= MAX_UINT256 ->
    usdc_ok env = true ->
    exists s',
      deposit env assets s = Ok s' /\
      sharesOf s' (msg_sender env) = sharesOf s (msg_sender env) /\
      totalShares s' = totalShares s /\
      totalLiquidity s' = totalLiquidity s + assets /\
      poolAssets s' = poolAssets s + assets.
Proof.
  intros env assets s Hpos Hshares Hsmall Hsum Hcash Hmine Hts Husdc.
  unfold deposit.
  rewrite require_fits by (apply N.ltb_lt; exact Hpos). cbn [bind].
  unfold totalAssets, totalDebt. rewrite add_fits by exact Hsum. cbn [bind].
  apply N.eqb_neq in Hshares. rewrite Hshares.
  rewrite mul_fits by lia. cbn [bind].
  rewrite div_fits by lia. cbn [bind].
  rewrite (N.div_small _ _ Hsmall).
  unfold usdc_call. rewrite Husdc. cbn [bind].
  rewrite !add_fits by lia. cbn [bind].
  eexists. split; [reflexivity|].
  unfold sharesOf, poolAssets. simpl. rewrite lookup_insert_eq. simpl.
  rewrite !N.add_0_r. repeat split; lia.
Qed.

(** The sample pool has 100000000 shares against assets of 100050000: a
    deposit of one unit mints no share. *)
Lemma X28_witness :
  exists s',
    deposit (mkEnv 3 1030 true) 1 sample_pool = Ok s' /\
    totalShares s' = totalShares sample_pool /\
    totalLiquidity s' = 80000001.
Proof.
  destruct (X28_a_small_deposit_mints_nothing (mkEnv 3 1030 true) 1 sample_pool)
    as (s' & Hrun & _ & Hts & Htl & _);
    [crunch | crunch | crunch | crunch | crunch | crunch | crunch | crunch |].
  exists s'. split; [exact Hrun|]. split; [exact Hts | exact Htl].
Defined.
